(** * AurumTrack: anchor detection, gap prediction and the NSE calendar

    A shallow embedding of the core logic of [main.js] (anchor search over
    a chart time series, the previous-close precedence chain, the state
    store updates of the two data sources, the gap prediction and the
    NSE trading calendar that gates it), with the properties the
    specification states about them.

    JS numbers are IEEE-754 binary64 values: they are modelled by Rocq's
    primitive [float], which has the same arithmetic.  Integer quantities
    that the code only counts with (epoch seconds, minutes of a day, array
    indices, day numbers) are modelled by [Z] and [nat]. *)

From Stdlib Require Import ZArith List Bool Lia String Ascii Floats.
From Stdlib Require Import Decimal DecimalString DecimalZ Permutation.
Import ListNotations.

Set Warnings "-inexact-float".
Local Open Scope Z_scope.

(** ** JavaScript values *)

(** The values a quote field, a chart sample or a scanner column holds. *)
Inductive jsval : Type :=
| JUndefined : jsval
| JNull : jsval
| JNum : float -> jsval.

(** [v === null || v === undefined] *)
Definition is_nullish (v : jsval) : bool :=
  match v with
  | JUndefined | JNull => true
  | JNum _ => false
  end.

(** ToBoolean: [undefined], [null], [0], [-0] and [NaN] are falsy. *)
Definition truthy (v : jsval) : bool :=
  match v with
  | JUndefined | JNull => false
  | JNum x => negb (PrimFloat.eqb x 0%float || PrimFloat.is_nan x)
  end.

(** ToNumber, applied by the arithmetic operators. *)
Definition ToNumber (v : jsval) : float :=
  match v with
  | JUndefined => nan
  | JNull => 0%float
  | JNum x => x
  end.

(** [isNaN(v)] *)
Definition js_isNaN (v : jsval) : bool := PrimFloat.is_nan (ToNumber v).

(** [a ?? b] *)
Definition nullish_or (a b : jsval) : jsval :=
  if is_nullish a then b else a.

Infix "??" := nullish_or (at level 45, left associativity).

(** [arr[i]]: reading past the end of an array gives [undefined]. *)
Definition js_nth (arr : list jsval) (i : nat) : jsval :=
  nth i arr JUndefined.

(** How a call ends: normally, or by a [TypeError] raised on reading a
    property of [undefined]. *)
Inductive completion : Type :=
| Normal : completion
| TypeError : completion.

(** ** Time values (ECMAScript) *)

Definition msPerMinute : Z := 60000.
Definition msPerHour : Z := 3600000.
Definition msPerDay : Z := 86400000.

(** [new Date(t)] holds a time value only for [|t| <= 8.64e15]; beyond
    that the date is invalid and every getter returns [NaN]. *)
Definition TimeClip (t : Z) : option Z :=
  if Z.abs t <=? 8640000000000000 then Some t else None.

Definition HourFromTime (t : Z) : Z := (t / msPerHour) mod 24.
Definition MinFromTime (t : Z) : Z := (t / msPerMinute) mod 60.
Definition Day (t : Z) : Z := t / msPerDay.
Definition TimeWithinDay (t : Z) : Z := t mod msPerDay.
Definition WeekDay (t : Z) : Z := (Day t + 4) mod 7.

Definition DayFromYear (y : Z) : Z :=
  365 * (y - 1970) + (y - 1969) / 4 - (y - 1901) / 100 + (y - 1601) / 400.

(** [YearFromTime]: the largest [y] with [DayFromYear y <= d], found
    around the estimate given by the mean length of a year. *)
Definition YearFromDay (d : Z) : Z :=
  let a := 1970 + (400 * d) / 146097 in
  if DayFromYear (a + 1) <=? d then a + 1
  else if DayFromYear a <=? d then a
  else a - 1.

Definition YearFromTime (t : Z) : Z := YearFromDay (Day t).

Definition DaysInYear (y : Z) : Z :=
  if negb (y mod 4 =? 0) then 365
  else if negb (y mod 100 =? 0) then 366
  else if negb (y mod 400 =? 0) then 365
  else 366.

(** [InLeapYear], as the 0/1 the month tables add. *)
Definition InLeapYear (t : Z) : Z :=
  if DaysInYear (YearFromTime t) =? 366 then 1 else 0.

Definition DayWithinYear (t : Z) : Z := Day t - DayFromYear (YearFromTime t).

(** The day of the year on which month [m] (0-based) starts. *)
Definition monthStart (leap m : Z) : Z :=
  match m with
  | 0 => 0
  | 1 => 31
  | 2 => 59 + leap
  | 3 => 90 + leap
  | 4 => 120 + leap
  | 5 => 151 + leap
  | 6 => 181 + leap
  | 7 => 212 + leap
  | 8 => 243 + leap
  | 9 => 273 + leap
  | 10 => 304 + leap
  | _ => 334 + leap
  end.

Definition MonthFromTime (t : Z) : Z :=
  let d := DayWithinYear t in
  let leap := InLeapYear t in
  if d <? 31 then 0
  else if d <? 59 + leap then 1
  else if d <? 90 + leap then 2
  else if d <? 120 + leap then 3
  else if d <? 151 + leap then 4
  else if d <? 181 + leap then 5
  else if d <? 212 + leap then 6
  else if d <? 243 + leap then 7
  else if d <? 273 + leap then 8
  else if d <? 304 + leap then 9
  else if d <? 334 + leap then 10
  else 11.

Definition DateFromTime (t : Z) : Z :=
  DayWithinYear t - monthStart (InLeapYear t) (MonthFromTime t) + 1.

(** [MakeDay(year, month, date)] for a month already in [0..11]. *)
Definition MakeDay (year month date : Z) : Z :=
  DayFromYear year
  + monthStart (if DaysInYear year =? 366 then 1 else 0) month
  + date - 1.

Definition MakeDate (day time : Z) : Z := day * msPerDay + time.

(** ** Date objects

    A [Date] is represented by its local time value: the number of
    milliseconds that the local-time getters see.  [istNow()] builds a
    Date whose local fields read as IST wall-clock time, so for the values
    it returns this is IST time. *)
Definition Date : Type := Z.

Definition getDay (d : Date) : Z := WeekDay d.
Definition getHours (d : Date) : Z := HourFromTime d.
Definition getMinutes (d : Date) : Z := MinFromTime d.
Definition getFullYear (d : Date) : Z := YearFromTime d.
Definition getMonth (d : Date) : Z := MonthFromTime d.
Definition getDate (d : Date) : Z := DateFromTime d.

(** [d.setDate(dt)]: the time value that the date is given.  The source
    then clips it ([TimeClip]), which leaves it as it is unless it lies
    more than 8.64e15 ms from the epoch; the dates that the properties of
    [getNextNseDay] are stated for stay inside that range
    ([clock_reading]). *)
Definition setDate (d : Date) (dt : Z) : Date :=
  MakeDate (MakeDay (YearFromTime d) (MonthFromTime d) dt) (TimeWithinDay d).

(** [d.setHours(0, 0, 0, 0)] *)
Definition setHours0 (d : Date) : Date := MakeDate (Day d) 0.

(** ** Anchor search *)

Definition TARGET_UTC : Z := 10 * 60.

(** [d.getUTCHours() * 60 + d.getUTCMinutes()] for
    [d = new Date(ts * 1000)]; [None] stands for [NaN]. *)
Definition candleMin (ts : Z) : option Z :=
  match TimeClip (ts * 1000) with
  | Some t => Some (HourFromTime t * 60 + MinFromTime t)
  | None => None
  end.

(** [Math.abs(candleMin - TARGET_UTC)] *)
Definition candleDiff (ts : Z) : option Z :=
  match candleMin ts with
  | Some m => Some (Z.abs (m - TARGET_UTC))
  | None => None
  end.

(** The [for] loop of [findAnchor1530]: [n] is [i + 1], so that the loop
    ends at [n = 0]; [bestIdx] keeps the source's [-1] sentinel.  A
    comparison with [NaN] is false, so an invalid date changes nothing. *)
Fixpoint findAnchor1530_loop (timestamps : list Z) (closes : list jsval)
         (n : nat) (bestIdx : Z) (minDiff : Z) : jsval :=
  match n with
  | O => if bestIdx =? -1 then JNull else js_nth closes (Z.to_nat bestIdx)
  | S i =>
      if is_nullish (js_nth closes i)
      then findAnchor1530_loop timestamps closes i bestIdx minDiff
      else
        match candleDiff (nth i timestamps 0) with
        | None => findAnchor1530_loop timestamps closes i bestIdx minDiff
        | Some diff =>
            if diff <=? 5 then js_nth closes i
            else if diff <? minDiff
                 then findAnchor1530_loop timestamps closes i (Z.of_nat i) diff
                 else findAnchor1530_loop timestamps closes i bestIdx minDiff
        end
  end.

Definition findAnchor1530 (timestamps : list Z) (closes : list jsval) : jsval :=
  findAnchor1530_loop timestamps closes (List.length timestamps) (-1) 30.

(** A sample the scan looks at: its close is neither [null] nor
    [undefined]. *)
Definition valid_sample (closes : list jsval) (i : nat) : bool :=
  negb (is_nullish (js_nth closes i)).

(** A valid sample whose minute-of-day is at most [w] minutes from the
    cutoff. *)
Definition within (w : Z) (timestamps : list Z) (closes : list jsval)
           (i : nat) : bool :=
  valid_sample closes i &&
  match candleDiff (nth i timestamps 0) with
  | Some diff => diff <=? w
  | None => false
  end.

(** A valid sample strictly closer than [w] minutes to the cutoff. *)
Definition closer_than (w : Z) (timestamps : list Z) (closes : list jsval)
           (i : nat) : bool :=
  valid_sample closes i &&
  match candleDiff (nth i timestamps 0) with
  | Some diff => diff <? w
  | None => false
  end.

(** The UTC calendar day of a sample. *)
Definition sampleDay (ts : Z) : Z := Day (ts * 1000).

(** [lastValid(arr)] *)
Fixpoint lastValid_loop (arr : list jsval) (n : nat) : jsval :=
  match n with
  | O => JNull
  | S i =>
      if negb (is_nullish (js_nth arr i)) && negb (js_isNaN (js_nth arr i))
      then js_nth arr i
      else lastValid_loop arr i
  end.

Definition lastValid (arr : list jsval) : jsval :=
  lastValid_loop arr (List.length arr).

(** ** The state store [S] *)

(** A quote record.  A record created without [anchor1530] reads it as
    [undefined]. *)
Record Quote : Type := mkQuote {
  cur : jsval;
  prev : jsval;
  anchor1530 : jsval
}.

Definition set_cur (v : jsval) (q : Quote) : Quote :=
  mkQuote v (prev q) (anchor1530 q).
Definition set_prev (v : jsval) (q : Quote) : Quote :=
  mkQuote (cur q) v (anchor1530 q).
Definition set_anchor1530 (v : jsval) (q : Quote) : Quote :=
  mkQuote (cur q) (prev q) v.

Record Store : Type := mkStore {
  firstLoad : bool;
  source : string;
  xau : Quote;
  xag : Quote;
  usdinr : Quote;
  goldBees : Quote;
  silverBees : Quote;
  xauM : Quote;
  xagM : Quote
}.

Definition zeroUsd : Quote := mkQuote (JNum 0) (JNum 0) (JNum 0).
Definition zeroQuote : Quote := mkQuote (JNum 0) (JNum 0) JUndefined.

(** The initial value of [S]. *)
Definition S0 : Store :=
  mkStore true "tradingview" zeroUsd zeroUsd
          zeroQuote zeroQuote zeroQuote zeroQuote zeroQuote.

Definition upd_xau (f : Quote -> Quote) (s : Store) : Store :=
  mkStore (firstLoad s) (source s) (f (xau s)) (xag s) (usdinr s)
          (goldBees s) (silverBees s) (xauM s) (xagM s).
Definition upd_xag (f : Quote -> Quote) (s : Store) : Store :=
  mkStore (firstLoad s) (source s) (xau s) (f (xag s)) (usdinr s)
          (goldBees s) (silverBees s) (xauM s) (xagM s).
Definition upd_usdinr (f : Quote -> Quote) (s : Store) : Store :=
  mkStore (firstLoad s) (source s) (xau s) (xag s) (f (usdinr s))
          (goldBees s) (silverBees s) (xauM s) (xagM s).
Definition upd_goldBees (f : Quote -> Quote) (s : Store) : Store :=
  mkStore (firstLoad s) (source s) (xau s) (xag s) (usdinr s)
          (f (goldBees s)) (silverBees s) (xauM s) (xagM s).
Definition upd_silverBees (f : Quote -> Quote) (s : Store) : Store :=
  mkStore (firstLoad s) (source s) (xau s) (xag s) (usdinr s)
          (goldBees s) (f (silverBees s)) (xauM s) (xagM s).
Definition upd_xauM (f : Quote -> Quote) (s : Store) : Store :=
  mkStore (firstLoad s) (source s) (xau s) (xag s) (usdinr s)
          (goldBees s) (silverBees s) (f (xauM s)) (xagM s).
Definition upd_xagM (f : Quote -> Quote) (s : Store) : Store :=
  mkStore (firstLoad s) (source s) (xau s) (xag s) (usdinr s)
          (goldBees s) (silverBees s) (xauM s) (f (xagM s)).

(** ** Provider payloads *)

(** [raw.meta] of a chart response. *)
Record ChartMeta : Type := mkMeta {
  regularMarketPrice : jsval;
  regularMarketPreviousClose : jsval;
  previousClose : jsval;
  chartPreviousClose : jsval
}.

(** A chart result [raw] that has its [meta] and its
    [indicators.quote[0]] objects, as the provider sends it.  [timestamp]
    and [indicators.quote[0].close] are [None] when the provider left the
    property out (it then reads as [undefined], and indexing it or taking
    its [length] throws).  A result without [meta] or without
    [indicators.quote[0]] is not described: the processing functions throw
    on reading it, before they write anything. *)
Record ChartResult : Type := mkChart {
  meta : ChartMeta;
  timestamp : option (list Z);
  quote_close : option (list jsval)
}.

(** One entry of a scanner response: [{s, d}]. *)
Record ScanItem : Type := mkItem {
  item_s : string;
  item_d : list jsval
}.

(** A scanner response; [None] when it has no [data]. *)
Record ScanResponse : Type := mkScan {
  data : option (list ScanItem)
}.

(** ** Data processing *)

(** [lastValid(closes)], which reads [closes.length]. *)
Definition lastValid_call (closes : option (list jsval)) : option jsval :=
  match closes with
  | Some arr => Some (lastValid arr)
  | None => None
  end.

(** [findAnchor1530(timestamps, closes)] on the properties as read:
    [timestamps.length] throws when [timestamps] is [undefined], and
    [closes[i]] throws when [closes] is [undefined] and the loop runs. *)
Definition findAnchor1530_call (timestamps : option (list Z))
           (closes : option (list jsval)) : option jsval :=
  match timestamps, closes with
  | None, _ => None
  | Some ts, Some cl => Some (findAnchor1530 ts cl)
  | Some [], None => Some JNull
  | Some (_ :: _), None => None
  end.

(** The object [obj] that [processUSD] works on. *)
Definition usd_obj (sym : string) (s : Store) : Quote :=
  if String.eqb sym "GC=F" then xau s else xag s.
Definition upd_usd_obj (sym : string) (f : Quote -> Quote) (s : Store) : Store :=
  if String.eqb sym "GC=F" then upd_xau f s else upd_xag f s.

Definition processUSD (sym : string) (raw : ChartResult) (s : Store)
  : Store * completion :=
  let closes := quote_close raw in
  let timestamps := timestamp raw in
  let prev := regularMarketPreviousClose (meta raw)
              ?? previousClose (meta raw) ?? chartPreviousClose (meta raw) in
  match (if is_nullish (regularMarketPrice (meta raw))
         then lastValid_call closes
         else Some (regularMarketPrice (meta raw))) with
  | None => (s, TypeError)
  | Some cur =>
      let s1 := if String.eqb (source s) "yahoo"
                then upd_usd_obj sym (fun o => set_prev prev (set_cur cur o)) s
                else s in
      match findAnchor1530_call timestamps closes with
      | None => (s1, TypeError)
      | Some anchor =>
          if truthy anchor
          then (upd_usd_obj sym (set_anchor1530 anchor) s1, Normal)
          else if negb (truthy (anchor1530 (usd_obj sym s1)))
               then (upd_usd_obj sym (set_anchor1530 prev) s1, Normal)
               else (s1, Normal)
      end
  end.

Definition processBees (sym : string) (raw : ChartResult) (s : Store)
  : Store * completion :=
  let prev := regularMarketPreviousClose (meta raw)
              ?? previousClose (meta raw) ?? chartPreviousClose (meta raw) in
  match (if is_nullish (regularMarketPrice (meta raw))
         then lastValid_call (quote_close raw)
         else Some (regularMarketPrice (meta raw))) with
  | None => (s, TypeError)
  | Some cur =>
      let f := fun o => set_prev prev (set_cur cur o) in
      (if String.eqb sym "GOLDBEES.NS" then upd_goldBees f s
       else upd_silverBees f s, Normal)
  end.

Definition processForex (raw : ChartResult) (s : Store) : Store :=
  let s1 := upd_usdinr (set_cur (regularMarketPrice (meta raw) ?? JNum 0)) s in
  upd_usdinr (set_prev (regularMarketPreviousClose (meta raw)
                        ?? previousClose (meta raw)
                        ?? chartPreviousClose (meta raw) ?? JNum 0)) s1.

(** The body of the [forEach] callback of [processTVData]. *)
Definition processTVItem (item : ScanItem) (s : Store) : Store :=
  let cur := js_nth (item_d item) 0 in
  let diff := js_nth (item_d item) 2 in
  let prev := JNum (PrimFloat.sub (ToNumber cur) (ToNumber diff)) in
  let f := fun o => set_prev prev (set_cur cur o) in
  if String.eqb (item_s item) "TVC:GOLD" then upd_xau f s
  else if String.eqb (item_s item) "TVC:SILVER" then upd_xag f s
  else if String.eqb (item_s item) "FX_IDC:USDINR" then upd_usdinr f s
  else if String.eqb (item_s item) "NSE:GOLDBEES" then upd_goldBees f s
  else if String.eqb (item_s item) "NSE:SILVERBEES" then upd_silverBees f s
  else if String.eqb (item_s item) "MCX:GOLDM1!" then upd_xauM f s
  else if String.eqb (item_s item) "MCX:SILVERM1!" then upd_xagM f s
  else s.

Definition processTVData (res : ScanResponse) (s : Store) : Store :=
  match data res with
  | None => s
  | Some items => fold_left (fun st item => processTVItem item st) items s
  end.

(** ** Gap prediction *)

(** The arithmetic that the prediction formula uses: the operations of JS
    numbers, which are those of binary64. *)
Class Arith (N : Type) : Type := {
  zero : N;
  one : N;
  add : N -> N -> N;
  sub : N -> N -> N;
  mul : N -> N -> N;
  div : N -> N -> N;
  ltb : N -> N -> bool
}.

#[export] Instance float_Arith : Arith float := {
  zero := 0%float;
  one := 1%float;
  add := PrimFloat.add;
  sub := PrimFloat.sub;
  mul := PrimFloat.mul;
  div := PrimFloat.div;
  ltb := PrimFloat.ltb
}.

Section Formula.
Context {N : Type} {A : Arith N}.

(** [(usdState.cur - usdState.anchor1530) / usdState.anchor1530] *)
Definition overnightPct (usdCur usdAnchor : N) : N :=
  div (sub usdCur usdAnchor) usdAnchor.

(** [beesState.cur * (1 + overnightPct * model.beta)] *)
Definition expected (beesCur pct beta : N) : N :=
  mul beesCur (add one (mul pct beta)).

(** The sign of a number: [1], [-1], or [0] (also for [NaN]). *)
Definition sign (x : N) : Z :=
  if ltb zero x then 1 else if ltb x zero then -1 else 0.

End Formula.

Record Model : Type := mkModel {
  beta : float;
  r2 : float
}.

Definition GOLD_MODEL : Model := mkModel 0.88 0.91.
Definition SILVER_MODEL : Model := mkModel 0.82 0.87.

(** The four elements that [renderGap] writes to, by the number each one
    is made to show ([None]: never written).  Number formatting and the
    count-up animation are left out: [expShown] is the target that
    [animateTo] drives the expected-price element to. *)
Record GapSink : Type := mkGapSink {
  anchorShown : option float;
  nowShown : option float;
  pctShown : option (string * float);
  pctClass : string;
  expShown : option float;
  expTextUp : bool;
  expTextDown : bool
}.

(** [animateTo(expEl, target, 2)] returns at once on a [NaN] target. *)
Definition animateTo (target : float) (els : GapSink) : GapSink :=
  if PrimFloat.is_nan target then els
  else mkGapSink (anchorShown els) (nowShown els) (pctShown els)
                 (pctClass els) (Some target) (expTextUp els) (expTextDown els).

(** [renderGap] of the version with per-instrument models. *)
Definition renderGap (usdState beesState : Quote) (els : GapSink)
           (model : Model) : GapSink :=
  if negb (truthy (cur usdState)) || negb (truthy (anchor1530 usdState))
     || negb (truthy (cur beesState))
  then els
  else
    let pct := overnightPct (ToNumber (cur usdState))
                            (ToNumber (anchor1530 usdState)) in
    let e := expected (ToNumber (cur beesState)) pct (beta model) in
    let sgn := if PrimFloat.leb 0 pct then "+"%string else EmptyString in
    let cls := if PrimFloat.ltb 0 pct then "up"%string
               else if PrimFloat.ltb pct 0 then "down"%string
               else EmptyString in
    animateTo e
      (mkGapSink (Some (ToNumber (anchor1530 usdState)))
                 (Some (ToNumber (cur usdState)))
                 (Some (sgn, PrimFloat.mul pct 100))
                 ("gap-pct " ++ cls)%string
                 (expShown els) (expTextUp els) (expTextDown els)).

(** The earlier version of the file, with one fixed dampening factor. *)
Module V2.

Definition DAMPENING : float := 0.92.

Definition renderGap (usdState beesState : Quote) (els : GapSink) : GapSink :=
  if negb (truthy (cur usdState)) || negb (truthy (anchor1530 usdState))
     || negb (truthy (cur beesState))
  then els
  else
    let diffPct := overnightPct (ToNumber (cur usdState))
                                (ToNumber (anchor1530 usdState)) in
    let e := expected (ToNumber (cur beesState)) diffPct DAMPENING in
    let sgn := if PrimFloat.leb 0 diffPct then "+"%string else EmptyString in
    let cls := if PrimFloat.ltb 0 diffPct then "up"%string
               else if PrimFloat.ltb diffPct 0 then "down"%string
               else EmptyString in
    let els1 :=
      animateTo e
        (mkGapSink (Some (ToNumber (anchor1530 usdState)))
                   (Some (ToNumber (cur usdState)))
                   (Some (sgn, PrimFloat.mul diffPct 100))
                   ("gap-pct " ++ cls)%string
                   (expShown els) (expTextUp els) (expTextDown els)) in
    mkGapSink (anchorShown els1) (nowShown els1) (pctShown els1)
              (pctClass els1) (expShown els1)
              (PrimFloat.ltb (ToNumber (cur beesState)) e)
              (negb (PrimFloat.ltb (ToNumber (cur beesState)) e)
               && PrimFloat.ltb e (ToNumber (cur beesState))).

End V2.

(** ** NSE holiday calendar *)

Definition NSE_HOLIDAYS : list string :=
  [ "2025-02-26"; "2025-03-14"; "2025-03-31"; "2025-04-10"; "2025-04-14";
    "2025-04-18"; "2025-05-01"; "2025-08-15"; "2025-08-27"; "2025-10-02";
    "2025-10-21"; "2025-10-22"; "2025-11-05"; "2025-12-25";
    "2026-01-26"; "2026-03-03"; "2026-03-26"; "2026-03-31"; "2026-04-03";
    "2026-04-14"; "2026-05-01"; "2026-05-28"; "2026-06-26"; "2026-09-14";
    "2026-10-02"; "2026-10-20"; "2026-11-09"; "2026-11-24"; "2026-12-25"
  ]%string.

(** [set.has(x)] on a [Set] of strings. *)
Definition set_has (set : list string) (x : string) : bool :=
  existsb (String.eqb x) set.

(** [String(n)] for an integer. *)
Definition string_of_Z (n : Z) : string := NilZero.string_of_int (Z.to_int n).

Fixpoint fill (n : nat) (c : ascii) : string :=
  match n with
  | O => EmptyString
  | S k => String c (fill k c)
  end.

(** [s.padStart(n, c)] with a one-character filler. *)
Definition padStart (n : nat) (c : ascii) (s : string) : string :=
  (fill (n - String.length s) c ++ s)%string.

Definition toISTDateString (d : Date) : string :=
  let y := getFullYear d in
  let m := padStart 2 "0" (string_of_Z (getMonth d + 1)) in
  let day := padStart 2 "0" (string_of_Z (getDate d)) in
  (string_of_Z y ++ "-" ++ m ++ "-" ++ day)%string.

Definition isNseHoliday (istDate : Date) : bool :=
  set_has NSE_HOLIDAYS (toISTDateString istDate).

(** [dow >= 1 && dow <= 5 && !isNseHoliday(candidate)] *)
Definition isNseTradingDay (candidate : Date) : bool :=
  (1 <=? getDay candidate) && (getDay candidate <=? 5)
  && negb (isNseHoliday candidate).

(** The loop of [getNextNseDay]; [fuel] is the number of iterations left
    of the 14 the source allows. *)
Fixpoint getNextNseDay_loop (fuel : nat) (candidate : Date) : Date :=
  match fuel with
  | O => candidate
  | S k =>
      if isNseTradingDay candidate then candidate
      else getNextNseDay_loop k (setDate candidate (getDate candidate + 1))
  end.

(** [getNextNseDay()]; [now] is the reading of [istNow()] it makes. *)
Definition getNextNseDay (now : Date) : Date :=
  let candidate := setHours0 (setDate now (getDate now + 1)) in
  getNextNseDay_loop 14 candidate.

(** [isTomorrowNseOpen()]; [now] is its own reading of [istNow()] and
    [now'] the later one made inside [getNextNseDay()]. *)
Definition isTomorrowNseOpen (now now' : Date) : bool :=
  let tomorrow := setHours0 (setDate now (getDate now + 1)) in
  let nextNse := getNextNseDay now' in
  (getDate nextNse =? getDate tomorrow)
  && (getMonth nextNse =? getMonth tomorrow)
  && (getFullYear nextNse =? getFullYear tomorrow).

(** ** The prediction section *)

(** A DOM element, by the properties the code writes: [className], the
    text or markup it holds, and [style.display]. *)
Record Elem : Type := mkElem {
  className : string;
  content : string;
  display : string
}.

(** What [updatePredictionSection] sees of the page: the banner and the
    cards container cached in [EL], the section label looked up by id,
    and the elements of class [prediction-price-wrap].  [None] is an
    element that the page does not have. *)
Record PredictionDom : Type := mkDom {
  predictionBanner : option Elem;
  predictionCards : option Elem;
  sectionLabel : option Elem;
  priceWraps : list Elem
}.

Definition dquote : string := String (ascii_of_nat 34) EmptyString.

(** The markup [<i class="..."></i>] of an icon. *)
Definition icon (cls : string) : string :=
  ("<i class=" ++ dquote ++ cls ++ dquote ++ "></i>")%string.

Definition hideExpectedPrices (hide : bool) (els : list Elem) : list Elem :=
  map (fun el => mkElem (className el) (content el)
                        (if hide then "none"%string else EmptyString)) els.

Section Prediction.

(** [d.toLocaleDateString('en-IN', ...)], provided by the browser. *)
Variable fmtDateShort : Date -> string.

Definition closedTodayBanner (nextNseDay : Date) : string :=
  (icon "fa-solid fa-calendar-xmark"
   ++ " NSE is closed today — prediction will be available on the next trading day (<strong>"
   ++ fmtDateShort nextNseDay ++ "</strong>)")%string.

Definition unlocksBanner (min : Z) : string :=
  let remaining := 930 - min in
  let hh := remaining / 60 in
  let mm := Z.rem remaining 60 in
  let timeLeft := if 0 <? hh
                  then (string_of_Z hh ++ "h " ++ string_of_Z mm ++ "m")%string
                  else (string_of_Z mm ++ "m")%string in
  (icon "fa-solid fa-lock"
   ++ " Prediction unlocks at <strong>3:30 PM IST</strong> — opens in "
   ++ timeLeft)%string.

Definition closedTomorrowBanner (nextNseDay : Date) : string :=
  (icon "fa-solid fa-store-slash"
   ++ " NSE is <strong>closed tomorrow</strong> ("
   ++ fmtDateShort nextNseDay
   ++ " is the next trading day) — no expected open price")%string.

(** [updatePredictionSection(ist)].  [now1] is the clock reading made
    by its call of [getNextNseDay()], [now2] and [now3] the two made by
    its call of [isTomorrowNseOpen()]. *)
Definition updatePredictionSection (ist now1 now2 now3 : Date)
           (dom : PredictionDom) : PredictionDom :=
  match predictionBanner dom, predictionCards dom with
  | Some banner, Some cards =>
      let min := getHours ist * 60 + getMinutes ist in
      let dow := getDay ist in
      let isWeekday := (1 <=? dow) && (dow <=? 5) in
      let isHoliday := isNseHoliday ist in
      let nextNseDay := getNextNseDay now1 in
      let label :=
        match sectionLabel dom with
        | Some l => Some (mkElem (className l)
                                 ("Expected Open — " ++ fmtDateShort nextNseDay)
                                 (display l))
        | None => None
        end in
      let afterCloseOnWeekday := isWeekday && negb isHoliday && (930 <=? min) in
      if negb afterCloseOnWeekday then
        let html := if negb isWeekday || isHoliday
                    then closedTodayBanner nextNseDay
                    else unlocksBanner min in
        mkDom (Some (mkElem "prediction-banner banner-locked" html "flex"))
              (Some (mkElem (className cards) (content cards) "none"))
              label (priceWraps dom)
      else if negb (isTomorrowNseOpen now2 now3) then
        mkDom (Some (mkElem "prediction-banner banner-closed"
                            (closedTomorrowBanner nextNseDay) "flex"))
              (Some (mkElem (className cards) (content cards) "grid"))
              label (hideExpectedPrices true (priceWraps dom))
      else
        mkDom (Some (mkElem (className banner) (content banner) "none"))
              (Some (mkElem (className cards) (content cards) "grid"))
              label (hideExpectedPrices false (priceWraps dom))
  | _, _ => dom
  end.

End Prediction.

(** ** Deliveries in scanner mode

    In the [else] branch of [fetchAll] the store is written by
    [processTVData], once per scanner response, and later by [processUSD],
    once per chart response fetched for the anchors. *)
Inductive Delivery : Type :=
| ScannerData : ScanResponse -> Delivery
| ChartData : string -> ChartResult -> Delivery.

Definition deliver (s : Store) (d : Delivery) : Store :=
  match d with
  | ScannerData res => processTVData res s
  | ChartData sym raw => fst (processUSD sym raw s)
  end.

Definition deliver_all (ds : list Delivery) (s : Store) : Store :=
  fold_left deliver ds s.

Definition is_scanner (d : Delivery) : bool :=
  match d with
  | ScannerData _ => true
  | ChartData _ _ => false
  end.

(** ** Statements that the code is checked against *)

(** Timestamps in ascending order, as a chart series has them. *)
Definition ascending (timestamps : list Z) : Prop :=
  forall a b, (a <= b)%nat -> (b < List.length timestamps)%nat ->
              nth a timestamps 0 <= nth b timestamps 0.

(** "Whenever a more recent day contains a sample within the acceptable
    window, the returned anchor comes from that more recent day": if the
    latest day of the series has a sample [i] in the window, the result is
    the close of a sample of that day. *)
Definition prefers_most_recent_day (timestamps : list Z) (closes : list jsval) : Prop :=
  forall i, (i < List.length timestamps)%nat ->
    closer_than 30 timestamps closes i = true ->
    (forall j, (j < List.length timestamps)%nat ->
               sampleDay (nth j timestamps 0) <= sampleDay (nth i timestamps 0)) ->
    exists k, (k < List.length timestamps)%nat /\
              sampleDay (nth k timestamps 0) = sampleDay (nth i timestamps 0) /\
              valid_sample closes k = true /\
              findAnchor1530 timestamps closes = js_nth closes k.

(** The minute of the UTC day in which epoch second [ts] falls. *)
Definition minuteOfDay (ts : Z) : Z := (ts mod 86400) / 60.

(** The epoch seconds that are instants of the calendar: 100 million days
    either way. *)
Definition in_date_range (ts : Z) : bool := Z.abs ts <=? 8640000000000.

(** "A valid (non-null, non-undefined) sample whose minute-of-day is within
    [w] minutes of the 10:00 UTC cutoff", read off the timestamp itself. *)
Definition near_cutoff (w : Z) (timestamps : list Z) (closes : list jsval)
           (i : nat) : bool :=
  match js_nth closes i with
  | JNum _ => in_date_range (nth i timestamps 0)
              && (Z.abs (minuteOfDay (nth i timestamps 0) - 600) <=? w)
  | JNull | JUndefined => false
  end.

(** A reading of the clock: the time value of a [Date] that is at least
    fifteen days away from both ends of the range of [Date] (8.64e15 ms
    from the epoch), so that every day the search for the next trading day
    can visit is a date. *)
Definition clock_reading (now : Date) : Prop :=
  Z.abs now <= 8640000000000000 - 15 * msPerDay.

(** The previous close that a chart response resolves to. *)
Definition resolvedPrev (raw : ChartResult) : jsval :=
  regularMarketPreviousClose (meta raw)
  ?? previousClose (meta raw) ?? chartPreviousClose (meta raw).

(** "For every response in which no anchor is found and for every prior
    state, [processUSD] sets [anchor1530] to the resolved previous
    close." *)
Definition fallback_always (sym : string) (raw : ChartResult) (s : Store) : Prop :=
  findAnchor1530_call (timestamp raw) (quote_close raw) = Some JNull ->
  snd (processUSD sym raw s) = Normal ->
  anchor1530 (usd_obj sym (fst (processUSD sym raw s))) = resolvedPrev raw.

(** A value that is zero, [null] or missing. *)
Definition zero_or_missing (v : jsval) : Prop :=
  v = JNull \/ v = JUndefined \/
  exists x, v = JNum x /\ PrimFloat.eqb x 0%float = true.

(** A value that is present and non-zero. *)
Definition present_nonzero (v : jsval) : Prop :=
  exists x, v = JNum x /\ PrimFloat.eqb x 0%float = false.

(** The object [obj] that [processBees] works on. *)
Definition bees_obj (sym : string) (s : Store) : Quote :=
  if String.eqb sym "GOLDBEES.NS" then goldBees s else silverBees s.

(** What the scanner writes and the cards display: the data source and
    the [cur] and [prev] of every record, the anchors left out. *)
Definition displayed (s : Store) : string * list (jsval * jsval) :=
  (source s,
   map (fun q => (cur q, prev q))
       [xau s; xag s; usdinr s; goldBees s; silverBees s; xauM s; xagM s]).

(** "For anchor non-zero and current, local current and beta positive, the
    expected open that [renderGap] computes satisfies
    [sign(expectedOpen - localCurrent) = sign(overnightMove)]." *)
Definition gap_sign_claim (usdState beesState : Quote) (model : Model) : Prop :=
  PrimFloat.eqb (ToNumber (anchor1530 usdState)) 0 = false ->
  PrimFloat.ltb 0 (ToNumber (cur usdState)) = true ->
  PrimFloat.ltb 0 (ToNumber (cur beesState)) = true ->
  PrimFloat.ltb 0 (beta model) = true ->
  forall els, exists e,
    expShown (renderGap usdState beesState els model) = Some e
    /\ sign (sub e (ToNumber (cur beesState)))
       = sign (overnightPct (ToNumber (cur usdState))
                            (ToNumber (anchor1530 usdState))).

(** A sink that nothing has been written to. *)
Definition blankSink : GapSink :=
  mkGapSink None None None EmptyString None false false.

(** ** Checking a range of days *)

(** [f] holds on the [n] integers from [lo] on. *)
Fixpoint range_all (f : Z -> bool) (lo : Z) (n : nat) : bool :=
  match n with
  | O => true
  | S k => f lo && range_all f (lo + 1) k
  end.

(** One of the 14 days from day number [d] on is a trading day. *)
Definition trading_within_14 (d : Z) : bool :=
  existsb (fun k => isNseTradingDay (MakeDate (d + Z.of_nat k) 0)) (seq 0 14).

(** If day [d] is a holiday that falls on a Monday, the day after it is
    not a holiday. *)
Definition monday_holiday_then_tuesday (d : Z) : bool :=
  negb (isNseHoliday (MakeDate d 0) && (WeekDay (MakeDate d 0) =? 1))
  || negb (isNseHoliday (MakeDate (d + 1) 0)).

(** ** The calls of one refresh cycle

    What [fetchAll] does to the store: in chart mode one call of
    [processUSD], [processForex] or [processBees] per response, each inside
    a [try] whose [catch] only logs; in scanner mode [processTVData] per
    response, then [processUSD] for the two anchors. *)
Inductive Update : Type :=
| UpScanner : ScanResponse -> Update
| UpUSD : string -> ChartResult -> Update
| UpBees : string -> ChartResult -> Update
| UpForex : ChartResult -> Update.

Definition apply_update (s : Store) (u : Update) : Store :=
  match u with
  | UpScanner res => processTVData res s
  | UpUSD sym raw => fst (processUSD sym raw s)
  | UpBees sym raw => fst (processBees sym raw s)
  | UpForex raw => processForex raw s
  end.

Definition apply_updates (us : list Update) (s : Store) : Store :=
  fold_left apply_update us s.

(** The records of the store. *)
Inductive Slot : Type :=
| SlotXau | SlotXag | SlotUsdinr | SlotGoldBees | SlotSilverBees
| SlotXauM | SlotXagM.

Definition slot (r : Slot) (s : Store) : Quote :=
  match r with
  | SlotXau => xau s
  | SlotXag => xag s
  | SlotUsdinr => usdinr s
  | SlotGoldBees => goldBees s
  | SlotSilverBees => silverBees s
  | SlotXauM => xauM s
  | SlotXagM => xagM s
  end.

(** The record that a chart-provider call works on; a scanner response
    has no single one. *)
Definition chart_target (u : Update) : option Slot :=
  match u with
  | UpScanner _ => None
  | UpUSD sym _ => Some (if String.eqb sym "GC=F" then SlotXau else SlotXag)
  | UpBees sym _ =>
      Some (if String.eqb sym "GOLDBEES.NS" then SlotGoldBees else SlotSilverBees)
  | UpForex _ => Some SlotUsdinr
  end.

(** What [lastValid] accepts: [arr[i] !== null && arr[i] !== undefined
    && !isNaN(arr[i])]. *)
Definition valid_close (arr : list jsval) (i : nat) : bool :=
  negb (is_nullish (js_nth arr i)) && negb (js_isNaN (js_nth arr i)).

(** The state of the scan: no candidate yet, or a valid sample closer than
    30 minutes whose distance is [minDiff]. *)
Definition scan_state (ts : list Z) (cl : list jsval) (b m : Z) : Prop :=
  (b = -1 /\ m = 30)
  \/ exists i, b = Z.of_nat i /\ (i < List.length ts)%nat
               /\ valid_sample cl i = true
               /\ candleDiff (nth i ts 0) = Some m /\ m < 30.


(** The symbols that [processTVData] knows. *)
Definition known_symbol (sym : string) : bool :=
  existsb (String.eqb sym)
          ["TVC:GOLD"; "TVC:SILVER"; "FX_IDC:USDINR"; "NSE:GOLDBEES";
           "NSE:SILVERBEES"; "MCX:GOLDM1!"; "MCX:SILVERM1!"]%string.

(** Replacing one record of the store. *)
Definition upd_slot (r : Slot) (f : Quote -> Quote) (s : Store) : Store :=
  match r with
  | SlotXau => upd_xau f s
  | SlotXag => upd_xag f s
  | SlotUsdinr => upd_usdinr f s
  | SlotGoldBees => upd_goldBees f s
  | SlotSilverBees => upd_silverBees f s
  | SlotXauM => upd_xauM f s
  | SlotXagM => upd_xagM f s
  end.

(** ** Market status, live dots and the clock tick *)

Definition SecFromTime (t : Z) : Z := (t / 1000) mod 60.
Definition getSeconds (d : Date) : Z := SecFromTime d.

(** [istString(d)] *)
Definition istString (d : Date) : string :=
  let hh := padStart 2 "0" (string_of_Z (getHours d)) in
  let mm := padStart 2 "0" (string_of_Z (getMinutes d)) in
  let ss := padStart 2 "0" (string_of_Z (getSeconds d)) in
  (hh ++ ":" ++ mm ++ ":" ++ ss)%string.

(** [isNseOpen()]; [now] is its reading of [istNow()]. *)
Definition isNseOpen (now : Date) : bool :=
  let d := getDay now in
  let min := getHours now * 60 + getMinutes now in
  if (d =? 0) || (d =? 6) then false
  else if isNseHoliday now then false
  else (555 <=? min) && (min <? 930).

(** A status dot, by its membership of the classes [active] and
    [inactive]. *)
Record Dot : Type := mkDot {
  dotActive : bool;
  dotInactive : bool
}.

(** The status line and the four dots; [None] is an element that the
    page does not have. *)
Record StatusDom : Type := mkStatusDom {
  nseStatus : option Elem;
  dotInternational : option Dot;
  dotMcx : option Dot;
  dotBees : option Dot;
  dotPrediction : option Dot
}.

(** [setDot(id, isActive)] on the element found for [id]. *)
Definition setDot (el : option Dot) (isActive : bool) : option Dot :=
  match el with
  | None => None
  | Some _ => Some (mkDot isActive (negb isActive))
  end.

Definition updateLiveDots (minIST dayOfWeek : Z) (isHoliday : bool)
           (dom : StatusDom) : StatusDom :=
  let isWeekday := (1 <=? dayOfWeek) && (dayOfWeek <=? 5) && negb isHoliday in
  let mcxOpen := isWeekday && (540 <=? minIST) && (minIST <? 1410) in
  let nseOpen := isWeekday && (555 <=? minIST) && (minIST <? 930) in
  let predActive := isWeekday && (930 <=? minIST) in
  mkStatusDom (nseStatus dom)
              (setDot (dotInternational dom) isWeekday)
              (setDot (dotMcx dom) mcxOpen)
              (setDot (dotBees dom) nseOpen)
              (setDot (dotPrediction dom) predActive).

(** [updateNseStatus(ist)]: writing to a status element that the page
    lacks throws before anything is changed. *)
Definition updateNseStatus (ist : Date) (dom : StatusDom) : StatusDom * completion :=
  let d := getDay ist in
  let min := getHours ist * 60 + getMinutes ist in
  let isHoliday := isNseHoliday ist in
  let '(txt, cls) :=
    if (d =? 0) || (d =? 6) then ("NSE: Weekend"%string, "closed"%string)
    else if isHoliday then ("NSE: Holiday 🗓️"%string, "closed"%string)
    else if min <? 540 then ("NSE: Closed"%string, "closed"%string)
    else if min <? 555 then ("NSE: Pre-open ⏰"%string, "pre"%string)
    else if min <? 930 then ("NSE: Open 🟢"%string, "open"%string)
    else ("NSE: Closed"%string, "closed"%string) in
  match nseStatus dom with
  | None => (dom, TypeError)
  | Some el =>
      (updateLiveDots min d isHoliday
         (mkStatusDom (Some (mkElem cls txt (display el)))
                      (dotInternational dom) (dotMcx dom) (dotBees dom)
                      (dotPrediction dom)),
       Normal)
  end.

(** One of the 4 days from day number [d] on is a trading day. *)
Definition trading_within_4 (d : Z) : bool :=
  existsb (fun k => isNseTradingDay (MakeDate (d + Z.of_nat k) 0)) (seq 0 4).

(** The page as the clock tick sees it. *)
Record Page : Type := mkPage {
  clock : option Elem;
  statusDom : StatusDom;
  predictionDom : PredictionDom
}.

(** [tick()] of [startLiveClock]: [ist] is its reading of [istNow()],
    [now1], [now2], [now3] the later readings made inside
    [updatePredictionSection].  A missing clock or status element throws
    and ends the tick there. *)
Definition tick (fmtDateShort : Date -> string) (ist now1 now2 now3 : Date)
           (page : Page) : Page * completion :=
  match clock page with
  | None => (page, TypeError)
  | Some c =>
      let c' := Some (mkElem (className c) (istString ist ++ " IST") (display c)) in
      match updateNseStatus ist (statusDom page) with
      | (sd, TypeError) => (mkPage c' sd (predictionDom page), TypeError)
      | (sd, Normal) =>
          (mkPage c' sd
                  (updatePredictionSection fmtDateShort ist now1 now2 now3
                                           (predictionDom page)),
           Normal)
      end
  end.

(** The month and day parts of the date strings of a year, and whether
    the part after the year tells two of them apart. *)
Definition month_day_part (m d : Z) : string :=
  (padStart 2 "0" (string_of_Z (m + 1)) ++ "-" ++ padStart 2 "0" (string_of_Z d))%string.

Definition month_day_parts : list (Z * Z) :=
  flat_map (fun m => map (fun d => (Z.of_nat m, Z.of_nat d)) (seq 1 31)) (seq 0 12).

Definition month_day_parts_distinct : bool :=
  forallb (fun p =>
    forallb (fun q =>
      negb (String.eqb (month_day_part (fst p) (snd p))
                       (month_day_part (fst q) (snd q)))
      || ((fst p =? fst q) && (snd p =? snd q)))
      month_day_parts)
    month_day_parts.

(** [Nil] prints as the digit 0. *)
Definition nonempty_digits (u : Decimal.uint) : Decimal.uint :=
  match u with
  | Nil => D0 Nil
  | _ => u
  end.

(** ** Day change of a card *)

(** The elements that [renderChange] writes to: the class of the row and
    of its caret icon ([None]: the row has no caret element), and what the
    two texts are made to show: sign prefix, number, and decimals. *)
Record ChangeSink : Type := mkChangeSink {
  rowClassName : string;
  caretClassName : option string;
  changeShown : option (string * float * Z);
  changePctShown : option (string * float)
}.

Definition renderChange (sink : ChangeSink) (cur prev : jsval) (decimals : Z)
  : ChangeSink * completion :=
  if negb (truthy cur) || negb (truthy prev) then (sink, Normal)
  else
    let diff := PrimFloat.sub (ToNumber cur) (ToNumber prev) in
    let pct := PrimFloat.mul (PrimFloat.div diff (ToNumber prev)) 100 in
    let sgn := if PrimFloat.leb 0 diff then "+"%string else EmptyString in
    let cls := if PrimFloat.ltb 0 diff then "up"%string
               else if PrimFloat.ltb diff 0 then "down"%string
               else EmptyString in
    let row := ("card-change " ++ cls)%string in
    match caretClassName sink with
    | None =>
        (mkChangeSink row None (changeShown sink) (changePctShown sink), TypeError)
    | Some _ =>
        (mkChangeSink row
           (Some (if PrimFloat.ltb diff 0 then "fa-solid fa-caret-down caret"%string
                  else "fa-solid fa-caret-up caret"%string))
           (Some (sgn, diff, decimals))
           (Some (sgn, pct)),
         Normal)
    end.

(** ** The cache of the last quotes *)

(** [JSON.parse(JSON.stringify(x))] for a number: [NaN] and the infinities
    are written as [null], negative zero as [0], and every other number is
    read back as it was. *)
Definition json_number (x : float) : jsval :=
  match PrimFloat.classify x with
  | FloatClass.NaN | PInf | NInf => JNull
  | NZero => JNum 0
  | _ => JNum x
  end.

(** The same for a property of an object: [None] when the property is
    left out, as an [undefined] one is. *)
Definition json_property (v : jsval) : option jsval :=
  match v with
  | JUndefined => None
  | JNull => Some JNull
  | JNum x => Some (json_number x)
  end.

(** A quote record as read back from the cache. *)
Record CachedQuote : Type := mkCachedQuote {
  cached_cur : option jsval;
  cached_prev : option jsval;
  cached_anchor1530 : option jsval
}.

(** The object under the key [market_data], as [JSON.parse] returns it. *)
Record CacheData : Type := mkCacheData {
  cached_xau : CachedQuote;
  cached_xag : CachedQuote;
  cached_usdinr : CachedQuote;
  cached_goldBees : CachedQuote;
  cached_silverBees : CachedQuote;
  cached_xauM : CachedQuote;
  cached_xagM : CachedQuote
}.

Definition json_quote (q : Quote) : CachedQuote :=
  mkCachedQuote (json_property (cur q)) (json_property (prev q))
                (json_property (anchor1530 q)).

(** [saveCache()]: what a later [JSON.parse] of the item it writes
    yields. *)
Definition saveCache (s : Store) : CacheData :=
  mkCacheData (json_quote (xau s)) (json_quote (xag s)) (json_quote (usdinr s))
              (json_quote (goldBees s)) (json_quote (silverBees s))
              (json_quote (xauM s)) (json_quote (xagM s)).

(** [Object.assign(q, c)] *)
Definition assign_quote (c : CachedQuote) (q : Quote) : Quote :=
  mkQuote (match cached_cur c with Some v => v | None => cur q end)
          (match cached_prev c with Some v => v | None => prev q end)
          (match cached_anchor1530 c with Some v => v | None => anchor1530 q end).

(** [loadCache()] on the store.  [stored] is the parsed item ([None] when
    there is none or it does not parse: nothing happens then); [rendered]
    is how the [renderUI()] call inside it ends, a throw being caught
    before [firstLoad] is reset. *)
Definition loadCache (stored : option CacheData) (rendered : completion)
           (s : Store) : Store :=
  match stored with
  | None => s
  | Some data =>
      mkStore (match rendered with Normal => false | TypeError => true end)
              (source s)
              (assign_quote (cached_xau data) (xau s))
              (assign_quote (cached_xag data) (xag s))
              (assign_quote (cached_usdinr data) (usdinr s))
              (assign_quote (cached_goldBees data) (goldBees s))
              (assign_quote (cached_silverBees data) (silverBees s))
              (assign_quote (cached_xauM data) (xauM s))
              (assign_quote (cached_xagM data) (xagM s))
  end.

(** The three properties of a quote record. *)
Inductive Field : Type := FieldCur | FieldPrev | FieldAnchor1530.

Definition field (f : Field) (q : Quote) : jsval :=
  match f with
  | FieldCur => cur q
  | FieldPrev => prev q
  | FieldAnchor1530 => anchor1530 q
  end.

(** A value that the cache keeps as it is: [null], or a number that is
    finite and not negative zero. *)
Definition cache_exact (v : jsval) : bool :=
  match v with
  | JUndefined => false
  | JNull => true
  | JNum x =>
      match PrimFloat.classify x with
      | FloatClass.NaN | PInf | NInf | NZero => false
      | _ => true
      end
  end.

(** ** Countdown and theme *)

Definition INTERVAL : Z := 5000.

(** The callback of [startCountdown]: [cd = Math.max(0, cd - 1)]. *)
Definition countdown_tick (cd : Z) : Z := Z.max 0 (cd - 1).

(** [resetCountdown()] *)
Definition resetCountdown : Z := INTERVAL / 1000.

Fixpoint countdown_after (n : nat) (cd : Z) : Z :=
  match n with
  | O => cd
  | S k => countdown_after k (countdown_tick cd)
  end.

(** The theme as stored ([localStorage], [None]: no item), as applied to
    the page ([data-theme]) and the class of the icon. *)
Record ThemeState : Type := mkTheme {
  savedTheme : option string;
  dataTheme : option string;
  themeIconClass : string
}.

Definition applyTheme (theme : string) (st : ThemeState) : ThemeState :=
  mkTheme (savedTheme st) (Some theme)
          (if String.eqb theme "dark" then "fa-solid fa-moon" else "fa-solid fa-sun").

(** [initTheme()], without the listener it installs. *)
Definition initTheme (st : ThemeState) : ThemeState :=
  let saved := match savedTheme st with
               | None => "dark"%string
               | Some t => if String.eqb t EmptyString then "dark"%string else t
               end in
  applyTheme saved st.

(** The click listener of the theme button. *)
Definition themeClick (st : ThemeState) : ThemeState :=
  let next := match dataTheme st with
              | Some t => if String.eqb t "dark" then "light"%string else "dark"%string
              | None => "dark"%string
              end in
  let st1 := applyTheme next st in
  mkTheme (Some next) (dataTheme st1) (themeIconClass st1).

Fixpoint themeClicks (n : nat) (st : ThemeState) : ThemeState :=
  match n with
  | O => st
  | S k => themeClicks k (themeClick st)
  end.

(** ** Binary64 rounding

    What the specification of the primitive operations ([SpecFloat]) is
    measured against: exact values as scaled integers, and the bounds that
    a rounded result keeps. *)

(** The state of the right shift of mantissa [m] after [k] steps: the
    quotient, and no round or sticky bit when the division is exact. *)
Definition shr_inv (m k : Z) (mrs : shr_record) : Prop :=
  0 <= shr_m mrs /\ shr_m mrs = m / 2 ^ k
  /\ (m mod 2 ^ k = 0 -> shr_r mrs = false /\ shr_s mrs = false).

(** [2 ^ e], scaled by [2 ^ 2200] so that the exponents of binary64 and
    of the exact products of two binary64 numbers give integers. *)
Definition pow2 (e : Z) : Z := 2 ^ (e + 2200).

(** Truncation to the exponent of the format: the shift that
    [shr_fexp] applies to mantissa [M] at exponent [e]. *)
Definition shift_of (M e : Z) : Z :=
  Z.max 0 (fexp prec emax (Zdigits2 M + e) - e).

(** What a rounding to nearest produces from mantissa [m2] at exponent
    [e2]. *)
Definition SFround_shape (s : bool) (m2 e2 : Z) : spec_float :=
  match m2 with
  | Z0 => S754_zero s
  | Zpos p => if e2 <=? 971 then S754_finite s p e2 else S754_infinity s
  | Zneg _ => S754_nan
  end.

(** [r] is the rounding of [M * 2 ^ e] with sign [s]: it lies between the
    binary64 numbers around that value. *)
Definition rounds_to (s : bool) (M e : Z) (r : spec_float) : Prop :=
  exists m2 e2,
    r = SFround_shape s m2 e2
    /\ 0 <= m2
    /\ (e2 <= e \/ 2 ^ 52 <= m2 \/ e2 = -1074)
    /\ (forall my ey, 0 < my <= 2 ^ 53 -> -1074 <= ey ->
          my * pow2 ey <= M * pow2 e -> my * pow2 ey <= m2 * pow2 e2)
    /\ (forall my ey, 0 < my < 2 ^ 53 -> -1074 <= ey ->
          M * pow2 e <= my * pow2 ey -> m2 * pow2 e2 <= my * pow2 ey).

(** [r] is a number (not [NaN]) with sign bit [s]. *)
Definition sf_sign_is (s : bool) (r : spec_float) : Prop :=
  match r with
  | S754_zero s' | S754_infinity s' | S754_finite s' _ _ => s' = s
  | S754_nan => False
  end.

(** The numbers 0, 1, [2 ^ -52] and the neighbours [1 + 2 ^ -52] and
    [1 - 2 ^ -52] of 1. *)
Definition sf0 : spec_float := S754_zero false.
Definition sf1 : spec_float := S754_finite false 4503599627370496 (-52).

Definition sf_eps : spec_float := S754_finite false 4503599627370496 (-104).
Definition sf_above1 : spec_float := S754_finite false 4503599627370497 (-52).
Definition sf_below1 : spec_float := S754_finite false 9007199254740990 (-53).

Ltac zlia := Z.to_euclidean_division_equations; lia.

(** * Properties *)

(** ** The anchor search *)

Lemma within_valid w ts cl i :
  within w ts cl i = true -> is_nullish (js_nth cl i) = false.
Proof.
  unfold within, valid_sample. intros H.
  apply andb_prop in H. destruct H as [H _].
  now apply negb_true_iff in H.
Qed.

Lemma within_diff w ts cl i :
  within w ts cl i = true ->
  exists d, candleDiff (nth i ts 0) = Some d /\ d <= w.
Proof.
  unfold within. intros H. apply andb_prop in H. destruct H as [_ H].
  destruct (candleDiff (nth i ts 0)) as [d|]; [|discriminate].
  exists d. split; [reflexivity|]. now apply Z.leb_le.
Qed.

(** A sample that is not within the tolerance is skipped or only
    remembered as a candidate: the scan goes on below it. *)
Lemma findAnchor1530_loop_skip ts cl k b m :
  within 5 ts cl k = false ->
  exists b' m', findAnchor1530_loop ts cl (S k) b m
                = findAnchor1530_loop ts cl k b' m'.
Proof.
  intros H. cbn [findAnchor1530_loop].
  unfold within, valid_sample in H.
  destruct (is_nullish (js_nth cl k)); [now eauto|].
  cbn in H.
  destruct (candleDiff (nth k ts 0)) as [d|]; [|now eauto].
  rewrite H. destruct (d <? m); eauto.
Qed.

Lemma findAnchor1530_loop_exact ts cl n : forall i b m,
  (i < n)%nat ->
  within 5 ts cl i = true ->
  (forall j, (i < j < n)%nat -> within 5 ts cl j = false) ->
  findAnchor1530_loop ts cl n b m = js_nth cl i.
Proof.
  induction n as [|k IH]; intros i b m Hi Hw Hlast; [lia|].
  destruct (Nat.eq_dec i k) as [->|Hne].
  - cbn [findAnchor1530_loop].
    rewrite (within_valid _ _ _ _ Hw).
    destruct (within_diff _ _ _ _ Hw) as (d & -> & Hd).
    apply Z.leb_le in Hd. now rewrite Hd.
  - destruct (findAnchor1530_loop_skip ts cl k b m) as (b' & m' & ->).
    + apply Hlast. lia.
    + apply IH; [lia|assumption|]. intros j Hj. apply Hlast. lia.
Qed.

(** Among the indices below [n] that satisfy [P] there is a last one. *)
Lemma last_index (P : nat -> bool) n :
  (exists i, (i < n)%nat /\ P i = true) ->
  exists i, (i < n)%nat /\ P i = true /\
            forall j, (i < j < n)%nat -> P j = false.
Proof.
  induction n as [|k IH]; intros (i & Hi & HP); [lia|].
  destruct (P k) eqn:Hk.
  - exists k. repeat split; [lia|assumption|]. intros j Hj. lia.
  - destruct IH as (i' & Hi' & HP' & Hlast).
    + exists i. split; [|assumption].
      destruct (Nat.eq_dec i k) as [->|]; [congruence|lia].
    + exists i'. repeat split; [lia|assumption|].
      intros j Hj. destruct (Nat.eq_dec j k) as [->|]; [assumption|].
      apply Hlast. lia.
Qed.

(** The code's minute arithmetic on [new Date(ts * 1000)] gives the
    minute of the UTC day of [ts], and nothing for a timestamp that is no
    date. *)
Lemma candleDiff_minuteOfDay ts :
  candleDiff ts
  = if in_date_range ts then Some (Z.abs (minuteOfDay ts - 600)) else None.
Proof.
  unfold candleDiff, candleMin, TimeClip, in_date_range, minuteOfDay,
    HourFromTime, MinFromTime, msPerHour, msPerMinute, TARGET_UTC.
  replace (Z.abs (ts * 1000) <=? 8640000000000000) with (Z.abs ts <=? 8640000000000)
    by (apply Bool.eq_true_iff_eq; rewrite !Z.leb_le; lia).
  destruct (Z.abs ts <=? 8640000000000); [|reflexivity].
  do 2 f_equal. f_equal.
  replace (ts * 1000 / 3600000) with (ts / 3600) by zlia.
  replace (ts * 1000 / 60000) with (ts / 60) by zlia.
  zlia.
Qed.

Lemma near_cutoff_within w ts cl i : near_cutoff w ts cl i = within w ts cl i.
Proof.
  unfold near_cutoff, within, valid_sample. rewrite candleDiff_minuteOfDay.
  destruct (js_nth cl i); cbn [is_nullish negb andb]; try reflexivity.
  now destruct (in_date_range (nth i ts 0)).
Qed.

(** C1. When sample [i] is the most recent (last) valid sample whose
    minute-of-day is within 5 minutes of the 10:00 UTC cutoff,
    [findAnchor1530] returns its close, whatever farther candidates the
    series holds before or after it. *)
Theorem findAnchor1530_exact_match_priority
        (timestamps : list Z) (closes : list jsval) (i : nat) :
  (i < List.length timestamps)%nat ->
  near_cutoff 5 timestamps closes i = true ->
  (forall j, (i < j < List.length timestamps)%nat ->
             near_cutoff 5 timestamps closes j = false) ->
  findAnchor1530 timestamps closes = js_nth closes i.
Proof.
  intros Hi Hn Hlast. unfold findAnchor1530.
  apply findAnchor1530_loop_exact; [assumption|now rewrite <- near_cutoff_within|].
  intros j Hj. rewrite <- near_cutoff_within. now apply Hlast.
Qed.

(** 09:55, 10:00 and 10:15 UTC: the 10:15 sample is met first and kept as
    a candidate, the 10:00 sample is returned. *)
Lemma findAnchor1530_exact_match_priority_witness :
  findAnchor1530 [35700; 36000; 36900] [JNum 10; JNum 20; JNum 30] = JNum 20.
Proof.
  apply (findAnchor1530_exact_match_priority
           [35700; 36000; 36900] [JNum 10; JNum 20; JNum 30] 1%nat).
  - simpl; lia.
  - reflexivity.
  - intros j Hj. simpl in Hj. assert (j = 2%nat) as -> by lia. reflexivity.
Defined.

Lemma findAnchor1530_loop_none ts cl n :
  (forall j, (j < n)%nat -> closer_than 30 ts cl j = false) ->
  findAnchor1530_loop ts cl n (-1) 30 = JNull.
Proof.
  induction n as [|k IH]; intros H; [reflexivity|].
  cbn [findAnchor1530_loop].
  assert (Hk := H k (Nat.lt_succ_diag_r k)).
  assert (IH' : findAnchor1530_loop ts cl k (-1) 30 = JNull)
    by (apply IH; intros j Hj; apply H; lia).
  unfold closer_than, valid_sample in Hk.
  destruct (is_nullish (js_nth cl k)); [assumption|].
  cbn in Hk.
  destruct (candleDiff (nth k ts 0)) as [d|]; [|assumption].
  rewrite Hk. apply Z.ltb_ge in Hk.
  replace (d <=? 5) with false by (symmetry; apply Z.leb_gt; lia).
  assumption.
Qed.

(** C3. When no valid sample of the series is closer than 30 minutes to the
    cutoff (so, in particular, when none is within the window),
    [findAnchor1530] returns [null]. *)
Theorem findAnchor1530_none_in_window (timestamps : list Z) (closes : list jsval) :
  (forall i, (i < List.length timestamps)%nat ->
             closer_than 30 timestamps closes i = false) ->
  findAnchor1530 timestamps closes = JNull.
Proof. intros H. unfold findAnchor1530. now apply findAnchor1530_loop_none. Qed.

Lemma findAnchor1530_none_in_window_witness :
  findAnchor1530 [30000; 37800; 39600] [JNum 10; JNum 20; JNum 30] = JNull.
Proof.
  apply findAnchor1530_none_in_window.
  intros [|[|[|i]]] Hi; try reflexivity. simpl in Hi. lia.
Defined.

Lemma sampleDay_mono a b : a <= b -> sampleDay a <= sampleDay b.
Proof.
  intros H. unfold sampleDay, Day, msPerDay.
  apply Z.div_le_mono; lia.
Qed.

(** Two closes that differ as numbers are different values. *)
Lemma JNum_neq x y : PrimFloat.eqb x x = true -> PrimFloat.eqb x y = false -> JNum x <> JNum y.
Proof. intros Hx Hy E. injection E as ->. congruence. Qed.

(** C2, as stated, fails.  The series has the 10:00 UTC sample of
    22 January 2026 and, on the 23rd, a sample at 10:20 UTC only: the latest
    day has a sample inside the window, and the anchor returned is the
    close of the day before. *)
Lemma findAnchor1530_older_day_counterexample :
  ~ prefers_most_recent_day [1769076000; 1769163600] [JNum 4100; JNum 4200].
Proof.
  intros H.
  destruct (H 1%nat) as (k & Hk & Hday & _ & Hres).
  - simpl; lia.
  - vm_compute; reflexivity.
  - intros j Hj. destruct j as [|[|j]];
      [vm_compute; discriminate | vm_compute; discriminate | simpl in Hj; lia].
  - destruct k as [|[|k]].
    + vm_compute in Hday. discriminate.
    + revert Hres. change (JNum 4100 <> JNum 4200). now apply JNum_neq.
    + simpl in Hk. lia.
Qed.

(** C2, amended.  On a time-ascending series, when sample [i] is the last
    valid sample within 5 minutes of the cutoff, the anchor is its close,
    and [i] lies on the most recent day that has such a sample; samples
    that are merely inside the 30-minute window, on whatever day, do not
    displace it. *)
Theorem findAnchor1530_most_recent_exact_day
        (timestamps : list Z) (closes : list jsval) (i : nat) :
  ascending timestamps ->
  (i < List.length timestamps)%nat ->
  near_cutoff 5 timestamps closes i = true ->
  (forall j, (i < j < List.length timestamps)%nat ->
             near_cutoff 5 timestamps closes j = false) ->
  findAnchor1530 timestamps closes = js_nth closes i
  /\ forall j, (j < List.length timestamps)%nat ->
       near_cutoff 5 timestamps closes j = true ->
       sampleDay (nth j timestamps 0) <= sampleDay (nth i timestamps 0).
Proof.
  intros Hasc Hi Hn Hlast. split.
  - unfold findAnchor1530.
    apply findAnchor1530_loop_exact; [assumption|now rewrite <- near_cutoff_within|].
    intros j Hj. rewrite <- near_cutoff_within. now apply Hlast.
  - intros j Hj Hnj. apply sampleDay_mono.
    destruct (Nat.le_gt_cases j i) as [Hle|Hgt].
    + now apply Hasc.
    + rewrite Hlast in Hnj by lia. discriminate.
Qed.

(** The series of the counterexample: 10:00 UTC on 22 January 2026 and
    10:20 UTC on the 23rd.  The anchor is the close of the 22nd. *)
Lemma findAnchor1530_most_recent_exact_day_witness :
  findAnchor1530 [1769076000; 1769163600] [JNum 4100; JNum 4200] = JNum 4100.
Proof.
  apply (findAnchor1530_most_recent_exact_day
           [1769076000; 1769163600] [JNum 4100; JNum 4200] 0%nat).
  - intros a b Hab Hb.
    destruct b as [|[|b]]; [| |simpl in Hb; lia];
      destruct a as [|[|a]]; simpl; lia.
  - simpl; lia.
  - reflexivity.
  - intros j Hj. simpl in Hj. assert (j = 1%nat) as -> by lia. reflexivity.
Defined.

(** Once a candidate is held, samples that are neither within the
    tolerance nor strictly closer than it leave it in place. *)
Lemma findAnchor1530_loop_keep ts cl n : forall b m,
  b <> -1 ->
  (forall j d, (j < n)%nat -> valid_sample cl j = true ->
               candleDiff (nth j ts 0) = Some d -> 5 < d /\ m <= d) ->
  findAnchor1530_loop ts cl n b m = js_nth cl (Z.to_nat b).
Proof.
  induction n as [|k IH]; intros b m Hb H.
  - cbn. destruct (b =? -1) eqn:E; [apply Z.eqb_eq in E; contradiction|reflexivity].
  - cbn [findAnchor1530_loop].
    assert (IH' : findAnchor1530_loop ts cl k b m = js_nth cl (Z.to_nat b))
      by (apply IH; [assumption|]; intros j d Hj; apply H; lia).
    destruct (is_nullish (js_nth cl k)) eqn:Ev; [assumption|].
    destruct (candleDiff (nth k ts 0)) as [d|] eqn:Ed; [|assumption].
    destruct (H k d) as [H5 Hm]; [lia|unfold valid_sample; now rewrite Ev|assumption|].
    replace (d <=? 5) with false by (symmetry; apply Z.leb_gt; lia).
    replace (d <? m) with false by (symmetry; apply Z.ltb_ge; lia).
    assumption.
Qed.

Lemma findAnchor1530_loop_closest ts cl n : forall i d b m,
  (i < n)%nat ->
  valid_sample cl i = true -> candleDiff (nth i ts 0) = Some d -> d < m ->
  (forall j, (j < n)%nat -> within 5 ts cl j = false) ->
  (forall j dj, (j < i)%nat -> valid_sample cl j = true ->
                candleDiff (nth j ts 0) = Some dj -> d <= dj) ->
  (forall j dj, (i < j < n)%nat -> valid_sample cl j = true ->
                candleDiff (nth j ts 0) = Some dj -> d < dj) ->
  findAnchor1530_loop ts cl n b m = js_nth cl i.
Proof.
  induction n as [|k IH]; intros i d b m Hi Hv Hd Hdm H5 Hbefore Hafter; [lia|].
  cbn [findAnchor1530_loop].
  destruct (Nat.eq_dec i k) as [->|Hne].
  - unfold valid_sample in Hv. apply negb_true_iff in Hv. rewrite Hv, Hd.
    assert (Hk5 := H5 k ltac:(lia)). unfold within, valid_sample in Hk5.
    rewrite Hv, Hd in Hk5. cbn in Hk5. rewrite Hk5.
    apply Z.leb_gt in Hk5.
    replace (d <? m) with true by (symmetry; apply Z.ltb_lt; lia).
    rewrite findAnchor1530_loop_keep; [now rewrite Nat2Z.id|lia|].
    intros j dj Hj Hvj Hdj. split; [|now apply (Hbefore j)].
    assert (Hj5 := H5 j ltac:(lia)). unfold within in Hj5.
    rewrite Hvj, Hdj in Hj5. cbn in Hj5. apply Z.leb_gt in Hj5. lia.
  - assert (Hstep : forall b' m', d < m' ->
               findAnchor1530_loop ts cl k b' m' = js_nth cl i).
    { intros b' m' Hm'. apply (IH i d b' m'); try assumption; try lia.
      - intros j Hj. apply H5. lia.
      - intros j dj Hj. apply Hafter. lia. }
    destruct (is_nullish (js_nth cl k)) eqn:Ev; [now apply Hstep|].
    destruct (candleDiff (nth k ts 0)) as [dk|] eqn:Ed; [|now apply Hstep].
    assert (Hk5 := H5 k ltac:(lia)). unfold within, valid_sample in Hk5.
    rewrite Ev, Ed in Hk5. cbn in Hk5. rewrite Hk5.
    assert (Hdk : d < dk)
      by (apply (Hafter k); [lia|unfold valid_sample; now rewrite Ev|assumption]).
    destruct (dk <? m); now apply Hstep.
Qed.

(** X2. When no sample is within the tolerance, the anchor is the closest
    valid sample inside the 30-minute window, the most recent one among
    equally close samples, on whatever day it lies. *)
Theorem findAnchor1530_closest_in_window (timestamps : list Z) (closes : list jsval)
        (i : nat) (d : Z) :
  (i < List.length timestamps)%nat ->
  valid_sample closes i = true ->
  candleDiff (nth i timestamps 0) = Some d -> d < 30 ->
  (forall j, (j < List.length timestamps)%nat -> within 5 timestamps closes j = false) ->
  (forall j dj, (j < i)%nat -> valid_sample closes j = true ->
                candleDiff (nth j timestamps 0) = Some dj -> d <= dj) ->
  (forall j dj, (i < j < List.length timestamps)%nat -> valid_sample closes j = true ->
                candleDiff (nth j timestamps 0) = Some dj -> d < dj) ->
  findAnchor1530 timestamps closes = js_nth closes i.
Proof.
  intros. unfold findAnchor1530.
  now apply (findAnchor1530_loop_closest timestamps closes _ i d).
Qed.

(** A sample 10 minutes from the cutoff on 22 January is preferred to one
    20 minutes from it on the 23rd. *)
Example findAnchor1530_closest_older_day :
  findAnchor1530 [1769076600; 1769163600] [JNum 4100; JNum 4200] = JNum 4100.
Proof. vm_compute. reflexivity. Qed.

(** ** The state store *)

Lemma usd_obj_upd sym f s : usd_obj sym (upd_usd_obj sym f s) = f (usd_obj sym s).
Proof. unfold usd_obj, upd_usd_obj. now destruct (String.eqb sym "GC=F"). Qed.

(** C4, as stated, fails: a record that already holds an anchor keeps it
    when a response (here with one sample, at 04:00 UTC) has no qualifying
    sample. *)
Lemma processUSD_fallback_counterexample :
  ~ fallback_always "GC=F"
      (mkChart (mkMeta (JNum 4210) (JNum 4150) JNull JNull)
               (Some [1769140800]) (Some [JNum 4205]))
      (upd_xau (set_anchor1530 (JNum 4180)) S0).
Proof.
  intros H. unfold fallback_always in H.
  specialize (H eq_refl eq_refl). vm_compute in H.
  revert H. now apply JNum_neq.
Qed.

(** C4, amended.  When [findAnchor1530] finds no anchor in a response,
    [processUSD] sets [anchor1530] to the resolved previous close if the
    record holds no anchor yet (its [anchor1530] is falsy), and keeps the
    anchor that the record holds otherwise. *)
Theorem processUSD_fallback_anchor (sym : string) (raw : ChartResult) (s : Store) :
  findAnchor1530_call (timestamp raw) (quote_close raw) = Some JNull ->
  snd (processUSD sym raw s) = Normal ->
  (truthy (anchor1530 (usd_obj sym s)) = false ->
   anchor1530 (usd_obj sym (fst (processUSD sym raw s))) = resolvedPrev raw)
  /\ (truthy (anchor1530 (usd_obj sym s)) = true ->
      anchor1530 (usd_obj sym (fst (processUSD sym raw s)))
      = anchor1530 (usd_obj sym s)).
Proof.
  intros Hnone Hnormal. unfold processUSD in *. rewrite Hnone in *.
  destruct (if is_nullish (regularMarketPrice (meta raw))
            then lastValid_call (quote_close raw)
            else Some (regularMarketPrice (meta raw))) as [c|];
    [|discriminate].
  cbn [truthy] in *.
  set (s1 := if String.eqb (source s) "yahoo"
             then upd_usd_obj sym (fun o => set_prev _ (set_cur c o)) s
             else s) in *.
  assert (Hs1 : anchor1530 (usd_obj sym s1) = anchor1530 (usd_obj sym s)).
  { unfold s1. destruct (String.eqb (source s) "yahoo"); [|reflexivity].
    now rewrite usd_obj_upd. }
  rewrite Hs1. split; intros Ht; rewrite Ht; cbn.
  - now rewrite usd_obj_upd.
  - exact Hs1.
Qed.

Lemma processUSD_fallback_anchor_witness :
  (truthy (anchor1530 (usd_obj "GC=F" (upd_xau (set_anchor1530 JNull) S0))) = false ->
   anchor1530 (usd_obj "GC=F"
     (fst (processUSD "GC=F"
             (mkChart (mkMeta (JNum 2650) (JNum 2600) JNull JNull) (Some []) (Some []))
             (upd_xau (set_anchor1530 JNull) S0))))
   = resolvedPrev (mkChart (mkMeta (JNum 2650) (JNum 2600) JNull JNull) (Some []) (Some [])))
  /\ (truthy (anchor1530 (usd_obj "GC=F" (upd_xau (set_anchor1530 JNull) S0))) = true ->
      anchor1530 (usd_obj "GC=F"
        (fst (processUSD "GC=F"
                (mkChart (mkMeta (JNum 2650) (JNum 2600) JNull JNull) (Some []) (Some []))
                (upd_xau (set_anchor1530 JNull) S0))))
      = anchor1530 (usd_obj "GC=F" (upd_xau (set_anchor1530 JNull) S0))).
Proof.
  apply (processUSD_fallback_anchor "GC=F"
           (mkChart (mkMeta (JNum 2650) (JNum 2600) JNull JNull) (Some []) (Some []))
           (upd_xau (set_anchor1530 JNull) S0)); reflexivity.
Defined.

(** C9. The previous close of a chart response is the first of
    [regularMarketPreviousClose], [previousClose], [chartPreviousClose]
    that is neither [null] nor missing; this is the value that
    [processBees] and, with the chart provider as data source,
    [processUSD] store in [prev].  A response with [null], 105.2, 104.9 in
    these fields resolves to 105.2. *)
Theorem previous_close_precedence (raw : ChartResult) :
  (forall sym s, snd (processBees sym raw s) = Normal ->
     prev (bees_obj sym (fst (processBees sym raw s))) = resolvedPrev raw)
  /\ (forall sym s, source s = "yahoo"%string ->
        snd (processUSD sym raw s) = Normal ->
        prev (usd_obj sym (fst (processUSD sym raw s))) = resolvedPrev raw)
  /\ (is_nullish (regularMarketPreviousClose (meta raw)) = false ->
      resolvedPrev raw = regularMarketPreviousClose (meta raw))
  /\ (is_nullish (regularMarketPreviousClose (meta raw)) = true ->
      is_nullish (previousClose (meta raw)) = false ->
      resolvedPrev raw = previousClose (meta raw))
  /\ (is_nullish (regularMarketPreviousClose (meta raw)) = true ->
      is_nullish (previousClose (meta raw)) = true ->
      resolvedPrev raw = chartPreviousClose (meta raw))
  /\ prev (goldBees (fst (processBees "GOLDBEES.NS"
            (mkChart (mkMeta (JNum 106.1) JNull (JNum 105.2) (JNum 104.9))
                     (Some []) (Some [])) S0)))
     = JNum 105.2.
Proof.
  repeat split.
  - intros sym s. unfold processBees, bees_obj, resolvedPrev.
    destruct (if is_nullish (regularMarketPrice (meta raw))
              then lastValid_call (quote_close raw)
              else Some (regularMarketPrice (meta raw))); [|discriminate].
    intros _. now destruct (String.eqb sym "GOLDBEES.NS").
  - intros sym s Hsrc. unfold processUSD, resolvedPrev. rewrite Hsrc.
    destruct (if is_nullish (regularMarketPrice (meta raw))
              then lastValid_call (quote_close raw)
              else Some (regularMarketPrice (meta raw))); [|discriminate].
    cbn [String.eqb Ascii.eqb Bool.eqb].
    destruct (findAnchor1530_call (timestamp raw) (quote_close raw)) as [a|];
      [|discriminate].
    intros _.
    destruct (truthy a); cbn [fst]; [now rewrite !usd_obj_upd|].
    destruct (negb _); cbn [fst]; now rewrite !usd_obj_upd.
  - unfold resolvedPrev, nullish_or.
    destruct (regularMarketPreviousClose (meta raw)); cbn; congruence.
  - unfold resolvedPrev, nullish_or.
    destruct (regularMarketPreviousClose (meta raw)),
             (previousClose (meta raw)); cbn; congruence.
  - unfold resolvedPrev, nullish_or.
    destruct (regularMarketPreviousClose (meta raw)),
             (previousClose (meta raw)); cbn; congruence.
Qed.

Lemma previous_close_precedence_witness :
  prev (usd_obj "SI=F"
         (fst (processUSD "SI=F"
                 (mkChart (mkMeta (JNum 31.5) JNull (JNum 105.2) (JNum 104.9))
                          (Some [36000]) (Some [JNum 31.2]))
                 (mkStore true "yahoo" zeroUsd zeroUsd zeroQuote zeroQuote
                          zeroQuote zeroQuote zeroQuote))))
  = JNum 105.2
  /\ resolvedPrev (mkChart (mkMeta (JNum 31.5) JNull (JNum 105.2) (JNum 104.9))
                           (Some [36000]) (Some [JNum 31.2]))
     = JNum 105.2.
Proof.
  pose proof (previous_close_precedence
                (mkChart (mkMeta (JNum 31.5) JNull (JNum 105.2) (JNum 104.9))
                         (Some [36000]) (Some [JNum 31.2])))
    as (_ & Husd & _ & Hsecond & _).
  split.
  - rewrite Husd; reflexivity.
  - apply Hsecond; reflexivity.
Defined.

Lemma source_processTVItem it s : source (processTVItem it s) = source s.
Proof.
  unfold processTVItem.
  repeat match goal with
         | |- context [if ?b then _ else _] => destruct b
         end; reflexivity.
Qed.

Lemma displayed_processTVItem it s1 s2 :
  displayed s1 = displayed s2 ->
  displayed (processTVItem it s1) = displayed (processTVItem it s2).
Proof.
  unfold displayed, processTVItem. cbn [map]. intros H.
  injection H as Hsrc Hau1 Hau2 Hag1 Hag2 Hin1 Hin2 Hgb1 Hgb2 Hsb1 Hsb2
                  Hxm1 Hxm2 Hgm1 Hgm2.
  repeat match goal with
         | |- context [if ?b then _ else _] => destruct b
         end; cbn; congruence.
Qed.

Lemma displayed_processTVData res s1 s2 :
  displayed s1 = displayed s2 ->
  displayed (processTVData res s1) = displayed (processTVData res s2).
Proof.
  unfold processTVData. destruct (data res) as [items|]; [|trivial].
  revert s1 s2. induction items as [|it items IH]; intros s1 s2 H; [exact H|].
  cbn [fold_left]. apply IH. now apply displayed_processTVItem.
Qed.

Lemma displayed_source s1 s2 : displayed s1 = displayed s2 -> source s1 = source s2.
Proof. unfold displayed. congruence. Qed.

(** With the scanner as data source, [processUSD] writes [anchor1530] at
    most. *)
Lemma processUSD_scanner_writes sym raw s :
  source s = "tradingview"%string ->
  fst (processUSD sym raw s) = s
  \/ exists a, fst (processUSD sym raw s) = upd_usd_obj sym (set_anchor1530 a) s.
Proof.
  intros Hsrc. unfold processUSD. rewrite Hsrc.
  change (String.eqb "tradingview" "yahoo") with false. cbv iota.
  destruct (if is_nullish (regularMarketPrice (meta raw))
            then lastValid_call (quote_close raw)
            else Some (regularMarketPrice (meta raw))); [|now left].
  destruct (findAnchor1530_call (timestamp raw) (quote_close raw)) as [a|];
    [|now left].
  destruct (truthy a); [right; now exists a|].
  destruct (negb (truthy (anchor1530 (usd_obj sym s)))); [right; eexists; reflexivity | now left].
Qed.

Lemma displayed_upd_anchor sym a s :
  displayed (upd_usd_obj sym (set_anchor1530 a) s) = displayed s.
Proof. unfold upd_usd_obj. now destruct (String.eqb sym "GC=F"). Qed.

Lemma displayed_processUSD sym raw s :
  source s = "tradingview"%string ->
  displayed (fst (processUSD sym raw s)) = displayed s.
Proof.
  intros Hsrc.
  destruct (processUSD_scanner_writes sym raw s Hsrc) as [->|(a & ->)];
    [reflexivity | apply displayed_upd_anchor].
Qed.

Lemma displayed_deliver_all ds : forall s1 s2,
  source s1 = "tradingview"%string ->
  displayed s1 = displayed s2 ->
  displayed (deliver_all ds s1)
  = displayed (deliver_all (filter is_scanner ds) s2).
Proof.
  induction ds as [|d ds IH]; intros s1 s2 Hsrc H; [exact H|].
  destruct d as [res|sym raw]; cbn [filter is_scanner deliver_all fold_left deliver].
  - apply IH; [|now apply displayed_processTVData].
    unfold processTVData. destruct (data res) as [items|]; [|exact Hsrc].
    clear - Hsrc. revert s1 Hsrc.
    induction items as [|it items IHi]; intros s1 Hsrc; [exact Hsrc|].
    cbn [fold_left]. apply IHi. now rewrite source_processTVItem.
  - apply IH.
    + rewrite <- Hsrc. apply displayed_source. now apply displayed_processUSD.
    + rewrite <- H. now apply displayed_processUSD.
Qed.

(** C10. The store starts with the scanner as data source, and while that
    is the source [processUSD] changes nothing but the [anchor1530] of the
    record it works on: [cur] and [prev] of the gold and silver records
    (and every other record) stay as they are.  So whatever chart and
    scanner responses arrive, the displayed [cur] and [prev] are those that
    the scanner responses alone produce. *)
Theorem processUSD_scanner_mode_frame (s : Store) :
  source S0 = "tradingview"%string
  /\ (source s = "tradingview"%string ->
      (forall sym raw,
          let s' := fst (processUSD sym raw s) in
          cur (xau s') = cur (xau s) /\ prev (xau s') = prev (xau s)
          /\ cur (xag s') = cur (xag s) /\ prev (xag s') = prev (xag s)
          /\ usdinr s' = usdinr s /\ goldBees s' = goldBees s
          /\ silverBees s' = silverBees s /\ xauM s' = xauM s /\ xagM s' = xagM s
          /\ source s' = source s /\ firstLoad s' = firstLoad s)
      /\ (forall ds, displayed (deliver_all ds s)
                     = displayed (deliver_all (filter is_scanner ds) s))).
Proof.
  split; [reflexivity|]. intros Hsrc. split.
  - intros sym raw s'. subst s'.
    destruct (processUSD_scanner_writes sym raw s Hsrc) as [->|(a & ->)].
    + repeat split.
    + unfold upd_usd_obj. destruct (String.eqb sym "GC=F"); repeat split.
  - intros ds. now apply displayed_deliver_all.
Qed.

Lemma processUSD_scanner_mode_frame_witness :
  cur (xau (fst (processUSD "GC=F"
                   (mkChart (mkMeta (JNum 2650) (JNum 2600) JNull JNull)
                            (Some [36000]) (Some [JNum 2640])) S0)))
  = cur (xau S0)
  /\ anchor1530 (xau (fst (processUSD "GC=F"
                   (mkChart (mkMeta (JNum 2650) (JNum 2600) JNull JNull)
                            (Some [36000]) (Some [JNum 2640])) S0)))
     = JNum 2640.
Proof.
  destruct (processUSD_scanner_mode_frame S0) as (Hsrc & H).
  destruct (H Hsrc) as (Hframe & _).
  split.
  - apply (Hframe "GC=F"%string
             (mkChart (mkMeta (JNum 2650) (JNum 2600) JNull JNull)
                      (Some [36000]) (Some [JNum 2640]))).
  - reflexivity.
Defined.

(** ** Binary64 rounding

    The operations of JS numbers round to nearest.  What the sign of the
    predicted gap needs is that rounding keeps the order: a rounded sum or
    product is not below a number of the format that the exact value is
    not below, and not above one that the exact value is not above. *)

Lemma digits2_pos_bounds (m : positive) :
  2 ^ (Zpos (digits2_pos m) - 1) <= Zpos m < 2 ^ Zpos (digits2_pos m).
Proof.
  induction m as [m IH|m IH|]; cbn [digits2_pos].
  - rewrite Pos2Z.inj_succ. change (Zpos m~1) with (2 * Zpos m + 1).
    replace (Z.succ (Zpos (digits2_pos m)) - 1) with (Z.succ (Zpos (digits2_pos m) - 1)) by lia.
    rewrite !Z.pow_succ_r by lia. lia.
  - rewrite Pos2Z.inj_succ. change (Zpos m~0) with (2 * Zpos m).
    replace (Z.succ (Zpos (digits2_pos m)) - 1) with (Z.succ (Zpos (digits2_pos m) - 1)) by lia.
    rewrite !Z.pow_succ_r by lia. lia.
  - cbn. lia.
Qed.

Lemma shr_1_spec mrs :
  0 <= shr_m mrs ->
  0 <= shr_m (shr_1 mrs) /\ shr_m (shr_1 mrs) = shr_m mrs / 2
  /\ shr_r (shr_1 mrs) = Z.odd (shr_m mrs)
  /\ shr_s (shr_1 mrs) = shr_r mrs || shr_s mrs.
Proof.
  destruct mrs as [m r s]. cbn [shr_m shr_r shr_s]. intros Hm.
  destruct m as [|[p|p|]|]; cbn [shr_1 shr_m shr_r shr_s]; try lia.
  - repeat split; reflexivity.
  - repeat split; try lia. change (Zpos p~1) with (2 * Zpos p + 1). zlia.
  - repeat split; try lia. change (Zpos p~0) with (2 * Zpos p). zlia.
  - repeat split; try lia.
Qed.

Lemma shr_inv_step m k mrs :
  0 <= m -> 0 <= k -> shr_inv m k mrs -> shr_inv m (k + 1) (shr_1 mrs).
Proof.
  intros Hm Hk (H0 & Hq & Hz).
  destruct (shr_1_spec mrs H0) as (H0' & Hq' & Hr' & Hs').
  assert (Hp : 0 < 2 ^ k) by (apply Z.pow_pos_nonneg; lia).
  assert (Hp' : 2 ^ (k + 1) = 2 ^ k * 2) by (rewrite Z.pow_add_r by lia; reflexivity).
  split; [assumption|]. split.
  - rewrite Hq', Hq, Hp'. now rewrite Z.div_div by lia.
  - intros Hmod. rewrite Hp' in Hmod.
    apply Z.mod_divide in Hmod; [|lia]. destruct Hmod as [c Hc].
    assert (Hmk : m mod 2 ^ k = 0).
    { apply Z.mod_divide; [lia|]. exists (c * 2). rewrite Hc. ring. }
    destruct (Hz Hmk) as [Hr Hs].
    rewrite Hs', Hr, Hs, Hr', Hq. split; [|reflexivity].
    rewrite <- Z.negb_even. apply negb_false_iff. apply Z.even_spec.
    exists c. rewrite Hc. replace (c * (2 ^ k * 2)) with (2 * c * 2 ^ k) by ring.
    apply Z.div_mul. lia.
Qed.

Lemma iter_pos_shr_inv m p : 0 <= m -> forall k mrs,
  0 <= k -> shr_inv m k mrs -> shr_inv m (k + Zpos p) (iter_pos shr_1 p mrs).
Proof.
  intros Hm. induction p as [p IH|p IH|]; intros k mrs Hk H; cbn [iter_pos].
  - replace (k + Zpos p~1) with (k + 1 + Zpos p + Zpos p) by lia.
    apply IH; [lia|]. apply IH; [lia|]. now apply shr_inv_step.
  - replace (k + Zpos p~0) with (k + Zpos p + Zpos p) by lia.
    apply IH; [lia|]. now apply IH.
  - now apply shr_inv_step.
Qed.

Lemma shr_fexp_exact m e :
  0 <= m ->
  exists mrs,
    shr_fexp prec emax m e loc_Exact
    = (mrs, e + Z.max 0 (fexp prec emax (Zdigits2 m + e) - e))
    /\ shr_inv m (Z.max 0 (fexp prec emax (Zdigits2 m + e) - e)) mrs.
Proof.
  intros Hm. unfold shr_fexp, shr. cbn [shr_record_of_loc].
  destruct (fexp prec emax (Zdigits2 m + e) - e) as [|p|p] eqn:E.
  - eexists. split; [f_equal; lia|].
    cbn. unfold shr_inv. cbn. rewrite Z.div_1_r, Z.mod_1_r. auto.
  - eexists. split; [reflexivity|].
    replace (Z.max 0 (Zpos p)) with (0 + Zpos p) by lia.
    apply iter_pos_shr_inv; [assumption|lia|].
    unfold shr_inv. cbn. rewrite Z.div_1_r, Z.mod_1_r. auto.
  - eexists. split; [f_equal; lia|].
    cbn. unfold shr_inv. cbn. rewrite Z.div_1_r, Z.mod_1_r. auto.
Qed.

Lemma round_nearest_even_spec mrs :
  (round_nearest_even (shr_m mrs) (loc_of_shr_record mrs) = shr_m mrs
   \/ round_nearest_even (shr_m mrs) (loc_of_shr_record mrs) = shr_m mrs + 1)
  /\ (shr_r mrs = false -> shr_s mrs = false ->
      round_nearest_even (shr_m mrs) (loc_of_shr_record mrs) = shr_m mrs).
Proof.
  destruct mrs as [q [|] [|]]; cbn; try destruct (Z.even q); split;
    auto; intros; discriminate.
Qed.

Lemma fexp_eq x : fexp prec emax x = Z.max (x - 53) (-1074).
Proof. reflexivity. Qed.

Lemma pow2_pos e : -2200 <= e -> 0 < pow2 e.
Proof. intros H. unfold pow2. apply Z.pow_pos_nonneg; lia. Qed.

Lemma pow2_add e n : -2200 <= e -> 0 <= n -> pow2 (e + n) = 2 ^ n * pow2 e.
Proof.
  intros He Hn. unfold pow2.
  replace (e + n + 2200) with (n + (e + 2200)) by lia.
  apply Z.pow_add_r; lia.
Qed.

Lemma pow2_le e e' : -2200 <= e -> e <= e' -> pow2 e <= pow2 e'.
Proof. intros He H. unfold pow2. apply Z.pow_le_mono_r; lia. Qed.

Lemma Zdigits2_bounds M :
  0 < M -> 2 ^ (Zdigits2 M - 1) <= M < 2 ^ Zdigits2 M /\ 0 < Zdigits2 M.
Proof.
  destruct M as [|p|p]; try lia. intros _. cbn [Zdigits2].
  split; [apply digits2_pos_bounds|lia].
Qed.

Lemma trunc_norm M e :
  0 < M -> 0 < shift_of M e ->
  e + shift_of M e = -1074 \/ 2 ^ 52 <= M / 2 ^ shift_of M e.
Proof.
  intros HM. unfold shift_of. rewrite fexp_eq.
  destruct (Zdigits2_bounds M HM) as [[Hlo Hhi] Hd].
  set (d := Zdigits2 M) in *. intros Hn.
  destruct (Z_le_gt_dec (d + e - 53) (-1074)) as [Hc|Hc].
  - left. lia.
  - right. replace (Z.max 0 (Z.max (d + e - 53) (-1074) - e)) with (d - 53) in * by lia.
    apply Z.div_le_lower_bound; [apply Z.pow_pos_nonneg; lia|].
    rewrite <- Z.pow_add_r by lia.
    replace (d - 53 + 52) with (d - 1) by lia. assumption.
Qed.

Lemma trunc_le M e :
  0 <= M -> -2200 <= e ->
  M / 2 ^ shift_of M e * pow2 (e + shift_of M e) <= M * pow2 e.
Proof.
  intros HM He. set (n := shift_of M e).
  assert (Hn : 0 <= n) by (unfold n, shift_of; lia).
  rewrite pow2_add by assumption.
  assert (Hp : 0 < 2 ^ n) by (apply Z.pow_pos_nonneg; lia).
  pose proof (pow2_pos e He) as Hpe.
  pose proof (Z.mul_div_le M (2 ^ n) Hp) as Hq.
  replace (M / 2 ^ n * (2 ^ n * pow2 e)) with (2 ^ n * (M / 2 ^ n) * pow2 e) by ring.
  apply Z.mul_le_mono_nonneg_r; lia.
Qed.

Lemma trunc_LB M e my ey :
  0 < M -> -2200 <= e -> 0 < my <= 2 ^ 53 -> -1074 <= ey ->
  my * pow2 ey <= M * pow2 e ->
  my * pow2 ey <= M / 2 ^ shift_of M e * pow2 (e + shift_of M e).
Proof.
  intros HM He Hmy Hey H.
  destruct (Z.eq_dec (shift_of M e) 0) as [E0|E0].
  - rewrite E0. cbn [Z.pow]. rewrite Z.div_1_r, Z.add_0_r. assumption.
  - assert (Hn : 0 < shift_of M e) by (unfold shift_of in *; lia).
    pose proof (trunc_norm M e HM Hn) as Hnorm.
    set (n := shift_of M e) in *. set (q := M / 2 ^ n) in *.
    assert (Hp : 0 < 2 ^ n) by (apply Z.pow_pos_nonneg; lia).
    pose proof (pow2_pos e He) as Hpe.
    destruct (Z_le_gt_dec (e + n) ey) as [Hc|Hc].
    + assert (Epy : pow2 ey = 2 ^ (ey - (e + n)) * pow2 (e + n))
        by (rewrite <- pow2_add by lia; f_equal; lia).
      assert (Epn : pow2 (e + n) = 2 ^ n * pow2 e) by (apply pow2_add; lia).
      set (k := 2 ^ (ey - (e + n))) in *.
      assert (Hk : 0 < k) by (apply Z.pow_pos_nonneg; lia).
      rewrite Epy, Epn in *. clear Epy Epn.
      assert (HY : my * k * 2 ^ n <= M).
      { apply (Z.mul_le_mono_pos_r _ _ (pow2 e)); [assumption|].
        replace (my * k * 2 ^ n * pow2 e) with (my * (k * (2 ^ n * pow2 e))) by ring.
        assumption. }
      assert (HYq : my * k <= q).
      { apply Z.div_le_lower_bound; [assumption|]. lia. }
      replace (my * (k * (2 ^ n * pow2 e))) with (my * k * (2 ^ n * pow2 e)) by ring.
      apply Z.mul_le_mono_nonneg_r; [|assumption].
      apply Z.mul_nonneg_nonneg; lia.
    + destruct Hnorm as [Hmin|Hq]; [lia|].
      pose proof (pow2_le (ey + 1) (e + n) ltac:(lia) ltac:(lia)) as Hle.
      rewrite (pow2_add ey 1) in Hle by lia. change (2 ^ 1) with 2 in Hle.
      pose proof (pow2_pos ey ltac:(lia)) as Hpy.
      pose proof (pow2_pos (e + n) ltac:(lia)) as Hpn.
      change (2 ^ 53) with (2 * 2 ^ 52) in Hmy.
      assert (H1 : my * pow2 ey <= 2 ^ 52 * (2 * pow2 ey)) by nia.
      assert (H2 : 2 ^ 52 * (2 * pow2 ey) <= 2 ^ 52 * pow2 (e + n)).
      { apply Z.mul_le_mono_nonneg_l; [lia|assumption]. }
      assert (H3 : 2 ^ 52 * pow2 (e + n) <= q * pow2 (e + n)).
      { apply Z.mul_le_mono_nonneg_r; lia. }
      lia.
Qed.

Lemma round_UB M e my ey :
  0 < M -> -2200 <= e -> 0 < my < 2 ^ 53 -> -1074 <= ey ->
  M * pow2 e <= my * pow2 ey ->
  M mod 2 ^ shift_of M e <> 0 ->
  (M / 2 ^ shift_of M e + 1) * pow2 (e + shift_of M e) <= my * pow2 ey.
Proof.
  intros HM He Hmy Hey H Hrem.
  destruct (Z.eq_dec (shift_of M e) 0) as [E0|E0].
  - rewrite E0 in Hrem. cbn [Z.pow] in Hrem. rewrite Z.mod_1_r in Hrem. congruence.
  - assert (Hn : 0 < shift_of M e) by (unfold shift_of in *; lia).
    pose proof (trunc_norm M e HM Hn) as Hnorm.
    pose proof (trunc_le M e ltac:(lia) He) as Htr.
    set (n := shift_of M e) in *. set (q := M / 2 ^ n) in *.
    assert (Hp : 0 < 2 ^ n) by (apply Z.pow_pos_nonneg; lia).
    pose proof (pow2_pos e He) as Hpe.
    destruct (Z_le_gt_dec (e + n) ey) as [Hc|Hc].
    + assert (Epy : pow2 ey = 2 ^ (ey - (e + n)) * pow2 (e + n))
        by (rewrite <- pow2_add by lia; f_equal; lia).
      assert (Epn : pow2 (e + n) = 2 ^ n * pow2 e) by (apply pow2_add; lia).
      set (k := 2 ^ (ey - (e + n))) in *.
      assert (Hk : 0 < k) by (apply Z.pow_pos_nonneg; lia).
      rewrite Epy, Epn in *. clear Epy Epn.
      assert (HY : M <= my * k * 2 ^ n).
      { apply (Z.mul_le_mono_pos_r _ _ (pow2 e)); [assumption|].
        replace (my * k * 2 ^ n * pow2 e) with (my * (k * (2 ^ n * pow2 e))) by ring.
        assumption. }
      assert (HYq : q + 1 <= my * k).
      { assert (Hdm := Z.div_mod M (2 ^ n) ltac:(lia)).
        assert (Hmb := Z.mod_pos_bound M (2 ^ n) Hp).
        fold q in Hdm. nia. }
      replace (my * (k * (2 ^ n * pow2 e))) with (my * k * (2 ^ n * pow2 e)) by ring.
      apply Z.mul_le_mono_nonneg_r; [|assumption].
      apply Z.mul_nonneg_nonneg; lia.
    + exfalso. destruct Hnorm as [Hmin|Hq]; [lia|].
      pose proof (pow2_le (ey + 1) (e + n) ltac:(lia) ltac:(lia)) as Hle.
      rewrite (pow2_add ey 1) in Hle by lia. change (2 ^ 1) with 2 in Hle.
      pose proof (pow2_pos ey ltac:(lia)) as Hpy.
      pose proof (pow2_pos (e + n) ltac:(lia)) as Hpn.
      change (2 ^ 53) with (2 * 2 ^ 52) in Hmy.
      assert (H1 : my * pow2 ey < 2 ^ 52 * (2 * pow2 ey)) by nia.
      assert (H2 : 2 ^ 52 * (2 * pow2 ey) <= 2 ^ 52 * pow2 (e + n)).
      { apply Z.mul_le_mono_nonneg_l; [lia|assumption]. }
      assert (H3 : 2 ^ 52 * pow2 (e + n) <= q * pow2 (e + n)).
      { apply Z.mul_le_mono_nonneg_r; lia. }
      lia.
Qed.

Lemma shift_of_zero e : -1074 <= e -> shift_of 0 e = 0.
Proof. intros H. unfold shift_of. rewrite fexp_eq. cbn [Zdigits2]. lia. Qed.

Lemma shift_of_ge M e : 0 < shift_of M e -> -1074 <= e + shift_of M e.
Proof. unfold shift_of. rewrite fexp_eq. lia. Qed.

Lemma binary_round_aux_exact s (m : positive) e :
  -2200 <= e ->
  exists m2 e2,
    binary_round_aux prec emax s (Zpos m) e loc_Exact
    = match m2 with
      | Z0 => S754_zero s
      | Zpos p => if e2 <=? 971 then S754_finite s p e2 else S754_infinity s
      | Zneg _ => S754_nan
      end
    /\ 0 <= m2 /\ e <= e2
    /\ (e2 = e /\ m2 = Zpos m \/ 2 ^ 52 <= m2 \/ e2 = -1074)
    /\ (forall my ey, 0 < my <= 2 ^ 53 -> -1074 <= ey ->
          my * pow2 ey <= Zpos m * pow2 e -> my * pow2 ey <= m2 * pow2 e2)
    /\ (forall my ey, 0 < my < 2 ^ 53 -> -1074 <= ey ->
          Zpos m * pow2 e <= my * pow2 ey -> m2 * pow2 e2 <= my * pow2 ey).
Proof.
  intros He. unfold binary_round_aux.
  destruct (shr_fexp_exact (Zpos m) e ltac:(lia)) as (mrs1 & E1 & (H01 & Hq1 & Hz1)).
  rewrite E1. fold (shift_of (Zpos m) e) in *.
  set (n1 := shift_of (Zpos m) e) in *.
  assert (Hn1 : 0 <= n1) by (unfold n1, shift_of; lia).
  destruct (round_nearest_even_spec mrs1) as (Hm1 & Hex1).
  set (m1 := round_nearest_even (shr_m mrs1) (loc_of_shr_record mrs1)) in *.
  assert (H0m1 : 0 <= m1) by lia.
  destruct (shr_fexp_exact m1 (e + n1) H0m1) as (mrs2 & E2 & (H02 & Hq2 & _)).
  rewrite E2. fold (shift_of m1 (e + n1)) in *.
  set (n2 := shift_of m1 (e + n1)) in *.
  assert (Hn2 : 0 <= n2) by (unfold n2, shift_of; lia).
  exists (shr_m mrs2), (e + n1 + n2).
  split; [destruct (shr_m mrs2); reflexivity|].
  split; [assumption|]. split; [lia|].
  pose proof (pow2_pos e He) as Hpe.
  assert (Hp1 : 0 < 2 ^ n1) by (apply Z.pow_pos_nonneg; lia).
  (* the first truncation *)
  assert (Hq1le : shr_m mrs1 * pow2 (e + n1) <= Zpos m * pow2 e)
    by (rewrite Hq1; apply trunc_le; lia).
  assert (Hstage2 : shr_m mrs2 * pow2 (e + n1 + n2) <= m1 * pow2 (e + n1))
    by (rewrite Hq2; apply trunc_le; lia).
  split; [|split].
  - (* normal form *)
    destruct (Z.eq_dec n2 0) as [E20|E20].
    + assert (Em2 : shr_m mrs2 = m1)
        by (rewrite Hq2, E20; cbn [Z.pow]; apply Z.div_1_r).
      destruct (Z.eq_dec n1 0) as [E10|E10].
      * left. split; [lia|]. rewrite Em2.
        rewrite Hex1; [rewrite Hq1, E10; cbn [Z.pow]; apply Z.div_1_r| |];
          apply Hz1; rewrite E10; cbn [Z.pow]; apply Z.mod_1_r.
      * right. destruct (trunc_norm (Zpos m) e ltac:(lia)) as [Hmin|Hq];
          [fold n1; lia|right; fold n1 in Hmin; lia|].
        left. fold n1 in Hq. rewrite <- Hq1 in Hq. lia.
    + right.
      assert (Hm1pos : 0 < m1).
      { destruct (Z.eq_dec m1 0) as [Ez|]; [|lia]. exfalso.
        destruct (Z.eq_dec n1 0) as [E10|E10].
        - rewrite Hex1 in Ez;
            [rewrite Hq1, E10 in Ez; cbn [Z.pow] in Ez; rewrite Z.div_1_r in Ez; lia| |];
            apply Hz1; rewrite E10; cbn [Z.pow]; apply Z.mod_1_r.
        - apply E20. unfold n2. rewrite Ez. apply shift_of_zero.
          apply shift_of_ge. fold n1. lia. }
      destruct (trunc_norm m1 (e + n1) Hm1pos) as [Hmin|Hq];
        [fold n2; lia|right; fold n2 in Hmin; lia|].
      left. fold n2 in Hq. rewrite <- Hq2 in Hq. assumption.
  - (* lower bound *)
    intros my ey Hmy Hey H.
    assert (Hs1 : my * pow2 ey <= shr_m mrs1 * pow2 (e + n1))
      by (rewrite Hq1; apply trunc_LB; try assumption; lia).
    pose proof (pow2_pos (e + n1) ltac:(lia)) as Hpn1.
    pose proof (pow2_pos ey ltac:(lia)) as Hpy.
    assert (Hs1' : my * pow2 ey <= m1 * pow2 (e + n1)) by nia.
    assert (Hm1pos : 0 < m1) by nia.
    rewrite Hq2. apply trunc_LB; try assumption; lia.
  - (* upper bound *)
    intros my ey Hmy Hey H.
    assert (Hs1 : m1 * pow2 (e + n1) <= my * pow2 ey).
    { destruct (Z.eq_dec (Zpos m mod 2 ^ n1) 0) as [Ez|Ez].
      - rewrite Hex1 by (apply Hz1; assumption). lia.
      - destruct Hm1 as [->| ->]; [lia|].
        rewrite Hq1. apply round_UB; try assumption; lia. }
    lia.
Qed.

Lemma binary_round_aux_rounds s m e :
  -2200 <= e ->
  rounds_to s (Zpos m) e (binary_round_aux prec emax s (Zpos m) e loc_Exact).
Proof.
  intros He.
  destruct (binary_round_aux_exact s m e He) as (m2 & e2 & E & H0 & _ & Hn & HL & HU).
  exists m2, e2. split; [exact E|]. split; [assumption|].
  split; [|split; assumption].
  destruct Hn as [[-> _]|[H|H]]; [left; lia|right; now left|right; now right].
Qed.

Lemma shl_align_spec mx ex ex' :
  exists mz,
    shl_align mx ex ex' = (mz, Z.min ex ex')
    /\ Zpos mz = Zpos mx * 2 ^ (ex - Z.min ex ex').
Proof.
  unfold shl_align. destruct (ex' - ex) as [|d|d] eqn:E.
  - exists mx. replace (Z.min ex ex') with ex by lia.
    rewrite Z.sub_diag. cbn [Z.pow]. split; [reflexivity|lia].
  - exists mx. replace (Z.min ex ex') with ex by lia.
    rewrite Z.sub_diag. cbn [Z.pow]. split; [reflexivity|lia].
  - exists (Pos.iter xO mx d). replace (Z.min ex ex') with ex' by lia.
    split; [reflexivity|].
    change (Pos.iter xO mx d) with (shift_pos d mx).
    rewrite shift_pos_correct. replace (ex - ex') with (Zpos d) by lia.
    rewrite Z.mul_comm. reflexivity.
Qed.

Lemma shl_align_value mx ex ez :
  ez <= ex -> -2200 <= ez ->
  Zpos (fst (shl_align mx ex ez)) * pow2 ez = Zpos mx * pow2 ex.
Proof.
  intros Hle He. destruct (shl_align_spec mx ex ez) as (mz & E & Hz).
  rewrite E. cbn [fst]. rewrite Hz. replace (Z.min ex ez) with ez by lia.
  replace ex with (ez + (ex - ez)) at 2 by lia.
  rewrite pow2_add by lia. ring.
Qed.

Lemma binary_round_rounds s m e :
  -2200 <= e ->
  rounds_to s (Zpos m) e (binary_round prec emax s m e).
Proof.
  intros He. unfold binary_round.
  destruct (shl_align_spec m e (fexp prec emax (Zpos (digits2_pos m) + e)))
    as (mz & E & Hz).
  rewrite E. set (ez := Z.min e _) in *.
  assert (Hez : -2200 <= ez <= e) by (unfold ez; rewrite fexp_eq; lia).
  destruct (binary_round_aux_rounds s mz ez ltac:(lia))
    as (m2 & e2 & Er & H0 & Hn & HL & HU).
  assert (Ev : Zpos mz * pow2 ez = Zpos m * pow2 e).
  { rewrite Hz. replace e with (ez + (e - ez)) at 2 by lia.
    rewrite pow2_add by lia. ring. }
  exists m2, e2. split; [exact Er|]. split; [assumption|].
  split; [lia|]. rewrite <- Ev. split; assumption.
Qed.

Lemma rounds_to_sign s M e r : rounds_to s M e r -> sf_sign_is s r.
Proof.
  intros (m2 & e2 & -> & H0 & _). unfold SFround_shape.
  destruct m2 as [|p|p]; [reflexivity| |lia].
  cbn. now destruct (e2 <=? 971).
Qed.

(** Numbers of the format. *)
Lemma bounded_facts m e :
  bounded prec emax m e = true ->
  -1074 <= e <= 971 /\ Zpos m < 2 ^ 53 /\ (-1074 < e -> 2 ^ 52 <= Zpos m).
Proof.
  unfold bounded, canonical_mantissa. rewrite fexp_eq. intros H.
  apply andb_prop in H. destruct H as [Hc He].
  apply Z.eqb_eq in Hc. apply Z.leb_le in He. change (emax - prec) with 971 in He.
  destruct (digits2_pos_bounds m) as [Hlo Hhi].
  set (d := Zpos (digits2_pos m)) in *.
  assert (Hd : 0 < d) by (unfold d; lia).
  split; [lia|]. split.
  - apply (Z.lt_le_trans _ _ _ Hhi). apply Z.pow_le_mono_r; lia.
  - intros Hgt. replace 52 with (d - 1) by lia. assumption.
Qed.

Lemma canonical_lt m1 e1 m2 e2 :
  bounded prec emax m1 e1 = true -> bounded prec emax m2 e2 = true ->
  e1 < e2 -> Zpos m1 * pow2 e1 < Zpos m2 * pow2 e2.
Proof.
  intros H1 H2 Hlt.
  destruct (bounded_facts _ _ H1) as (He1 & Hm1 & _).
  destruct (bounded_facts _ _ H2) as (He2 & _ & Hm2).
  specialize (Hm2 ltac:(lia)).
  pose proof (pow2_le (e1 + 1) e2 ltac:(lia) ltac:(lia)) as Hle.
  rewrite (pow2_add e1 1) in Hle by lia. change (2 ^ 1) with 2 in Hle.
  pose proof (pow2_pos e1 ltac:(lia)) as Hp1.
  change (2 ^ 53) with (2 * 2 ^ 52) in Hm1.
  assert (Zpos m1 * pow2 e1 < 2 ^ 52 * (2 * pow2 e1)) by nia.
  assert (2 ^ 52 * (2 * pow2 e1) <= 2 ^ 52 * pow2 e2)
    by (apply Z.mul_le_mono_nonneg_l; lia).
  assert (2 ^ 52 * pow2 e2 <= Zpos m2 * pow2 e2)
    by (apply Z.mul_le_mono_nonneg_r; lia).
  lia.
Qed.

Lemma SFcompare_finite m1 e1 m2 e2 :
  bounded prec emax m1 e1 = true -> bounded prec emax m2 e2 = true ->
  SFcompare (S754_finite false m1 e1) (S754_finite false m2 e2)
  = Some (Zpos m1 * pow2 e1 ?= Zpos m2 * pow2 e2).
Proof.
  intros H1 H2. cbn [SFcompare]. f_equal.
  destruct (Z.compare_spec e1 e2) as [->|Hlt|Hgt].
  - destruct (bounded_facts _ _ H2) as (He2 & _).
    pose proof (pow2_pos e2 ltac:(lia)) as Hp.
    rewrite <- Zmult_compare_compat_r by lia. reflexivity.
  - symmetry. apply Z.compare_lt_iff. now apply canonical_lt.
  - symmetry. apply Z.compare_gt_iff. now apply canonical_lt.
Qed.

Lemma SFltb_finite m1 e1 m2 e2 :
  bounded prec emax m1 e1 = true -> bounded prec emax m2 e2 = true ->
  SFltb (S754_finite false m1 e1) (S754_finite false m2 e2)
  = (Zpos m1 * pow2 e1 <? Zpos m2 * pow2 e2).
Proof.
  intros H1 H2. unfold SFltb. rewrite SFcompare_finite by assumption.
  unfold Z.ltb. now destruct (_ ?= _).
Qed.

Lemma SFleb_finite m1 e1 m2 e2 :
  bounded prec emax m1 e1 = true -> bounded prec emax m2 e2 = true ->
  SFleb (S754_finite false m1 e1) (S754_finite false m2 e2)
  = (Zpos m1 * pow2 e1 <=? Zpos m2 * pow2 e2).
Proof.
  intros H1 H2. unfold SFleb. rewrite SFcompare_finite by assumption.
  unfold Z.leb. now destruct (_ ?= _).
Qed.

Lemma rounds_to_cases s M e r :
  rounds_to s M e r ->
  exists m2 e2,
    0 <= m2
    /\ (e2 <= e \/ 2 ^ 52 <= m2 \/ e2 = -1074)
    /\ (forall my ey, 0 < my <= 2 ^ 53 -> -1074 <= ey ->
          my * pow2 ey <= M * pow2 e -> my * pow2 ey <= m2 * pow2 e2)
    /\ (forall my ey, 0 < my < 2 ^ 53 -> -1074 <= ey ->
          M * pow2 e <= my * pow2 ey -> m2 * pow2 e2 <= my * pow2 ey)
    /\ (r = S754_zero s /\ m2 = 0
        \/ (exists p, r = S754_finite s p e2 /\ m2 = Zpos p /\ e2 <= 971)
        \/ (r = S754_infinity s /\ 0 < m2 /\ 971 < e2)).
Proof.
  intros (m2 & e2 & -> & H0 & Hn & HL & HU). exists m2, e2.
  repeat (split; [assumption|]). unfold SFround_shape.
  destruct m2 as [|p|p]; [left; auto| |lia].
  destruct (e2 <=? 971) eqn:E.
  - right; left. exists p. apply Z.leb_le in E. auto.
  - right; right. apply Z.leb_gt in E. split; [reflexivity|lia].
Qed.

Lemma valid_finite s m e :
  valid_binary (S754_finite s m e) = true -> bounded prec emax m e = true.
Proof. trivial. Qed.

(** A rounded value is not below a number of the format that the exact
    value is not below. *)
Lemma rounds_to_ge M e r my ey :
  rounds_to false M e r -> valid_binary r = true ->
  bounded prec emax my ey = true ->
  Zpos my * pow2 ey <= M * pow2 e ->
  SFleb (S754_finite false my ey) r = true
  /\ SFltb r (S754_finite false my ey) = false.
Proof.
  intros Hr Hv Hb H.
  destruct (bounded_facts _ _ Hb) as (Hey & Hmy & _).
  pose proof (pow2_pos ey ltac:(lia)) as Hpy.
  destruct (rounds_to_cases _ _ _ _ Hr) as (m2 & e2 & H0 & _ & HL & _ & Hc).
  specialize (HL (Zpos my) ey ltac:(lia) ltac:(lia) H).
  destruct Hc as [[-> ->]|[(p & -> & -> & He2)|[-> _]]].
  - exfalso. nia.
  - rewrite SFleb_finite, SFltb_finite by (trivial; now apply valid_finite).
    split; [apply Z.leb_le|apply Z.ltb_ge]; assumption.
  - split; reflexivity.
Qed.

Lemma rounds_to_gt M e r my ey my' ey' :
  rounds_to false M e r -> valid_binary r = true ->
  bounded prec emax my ey = true ->
  0 < my' <= 2 ^ 53 -> -1074 <= ey' ->
  Zpos my * pow2 ey < my' * pow2 ey' -> my' * pow2 ey' <= M * pow2 e ->
  SFltb (S754_finite false my ey) r = true.
Proof.
  intros Hr Hv Hb Hmy' Hey' Hlt H.
  destruct (bounded_facts _ _ Hb) as (Hey & Hmy & _).
  pose proof (pow2_pos ey ltac:(lia)) as Hpy.
  destruct (rounds_to_cases _ _ _ _ Hr) as (m2 & e2 & H0 & _ & HL & _ & Hc).
  specialize (HL my' ey' Hmy' Hey' H).
  destruct Hc as [[-> ->]|[(p & -> & -> & He2)|[-> _]]].
  - exfalso. nia.
  - rewrite SFltb_finite by (trivial; now apply valid_finite).
    apply Z.ltb_lt. lia.
  - reflexivity.
Qed.

Lemma no_overflow m2 e2 e my ey :
  (e2 <= e \/ 2 ^ 52 <= m2 \/ e2 = -1074) -> e <= 971 -> 971 < e2 ->
  bounded prec emax my ey = true ->
  m2 * pow2 e2 <= Zpos my * pow2 ey -> False.
Proof.
  intros Hn He He2 Hb H.
  destruct (bounded_facts _ _ Hb) as (Hey & Hmy & _).
  destruct Hn as [Hn|[Hn|Hn]]; try lia.
  pose proof (pow2_le (ey + 1) e2 ltac:(lia) ltac:(lia)) as Hle.
  rewrite (pow2_add ey 1) in Hle by lia. change (2 ^ 1) with 2 in Hle.
  pose proof (pow2_pos ey ltac:(lia)) as Hpy.
  change (2 ^ 53) with (2 * 2 ^ 52) in Hmy.
  assert (Zpos my * pow2 ey < 2 ^ 52 * (2 * pow2 ey)) by nia.
  assert (2 ^ 52 * (2 * pow2 ey) <= 2 ^ 52 * pow2 e2)
    by (apply Z.mul_le_mono_nonneg_l; lia).
  assert (2 ^ 52 * pow2 e2 <= m2 * pow2 e2)
    by (apply Z.mul_le_mono_nonneg_r; lia).
  lia.
Qed.

Lemma rounds_to_le M e r my ey :
  rounds_to false M e r -> valid_binary r = true ->
  bounded prec emax my ey = true -> e <= 971 ->
  M * pow2 e <= Zpos my * pow2 ey ->
  SFleb r (S754_finite false my ey) = true
  /\ SFltb (S754_finite false my ey) r = false.
Proof.
  intros Hr Hv Hb He H.
  destruct (bounded_facts _ _ Hb) as (Hey & Hmy & _).
  destruct (rounds_to_cases _ _ _ _ Hr) as (m2 & e2 & H0 & Hn & _ & HU & Hc).
  specialize (HU (Zpos my) ey ltac:(lia) ltac:(lia) H).
  destruct Hc as [[-> ->]|[(p & -> & -> & He2)|[-> [Hm2 He2]]]].
  - split; reflexivity.
  - rewrite SFleb_finite, SFltb_finite by (trivial; now apply valid_finite).
    split; [apply Z.leb_le|apply Z.ltb_ge]; assumption.
  - exfalso. now apply (no_overflow m2 e2 e my ey).
Qed.

Lemma rounds_to_lt M e r my ey my' ey' :
  rounds_to false M e r -> valid_binary r = true ->
  bounded prec emax my ey = true -> e <= 971 ->
  0 < my' < 2 ^ 53 -> -1074 <= ey' ->
  my' * pow2 ey' < Zpos my * pow2 ey -> M * pow2 e <= my' * pow2 ey' ->
  SFltb r (S754_finite false my ey) = true.
Proof.
  intros Hr Hv Hb He Hmy' Hey' Hlt H.
  destruct (bounded_facts _ _ Hb) as (Hey & Hmy & _).
  destruct (rounds_to_cases _ _ _ _ Hr) as (m2 & e2 & H0 & Hn & _ & HU & Hc).
  specialize (HU my' ey' Hmy' Hey' H).
  destruct Hc as [[-> ->]|[(p & -> & -> & He2)|[-> [Hm2 He2]]]].
  - reflexivity.
  - rewrite SFltb_finite by (trivial; now apply valid_finite).
    apply Z.ltb_lt. lia.
  - exfalso. apply (no_overflow m2 e2 e my ey); try assumption. lia.
Qed.

(** The rounding of a non-zero value at an exponent of the format is not
    zero. *)
Lemma rounds_to_nonzero s M e r :
  rounds_to s M e r -> 0 < M -> -1074 <= e ->
  (exists p e2, r = S754_finite s p e2) \/ r = S754_infinity s.
Proof.
  intros Hr HM He.
  destruct (rounds_to_cases _ _ _ _ Hr) as (m2 & e2 & H0 & _ & HL & _ & Hc).
  assert (H1 : 1 * pow2 (-1074) <= m2 * pow2 e2).
  { apply HL; [change (2 ^ 53) with 9007199254740992; lia|lia|].
    pose proof (pow2_le (-1074) e ltac:(lia) He).
    pose proof (pow2_pos (-1074) ltac:(lia)). nia. }
  pose proof (pow2_pos (-1074) ltac:(lia)) as Hp.
  destruct Hc as [[-> ->]|[(p & -> & -> & He2)|[-> _]]].
  - exfalso. lia.
  - left. eauto.
  - now right.
Qed.

(** The operations on two finite numbers. *)
Lemma SFmul_finite sx mx ex sy my ey :
  -1074 <= ex -> -1074 <= ey ->
  rounds_to (xorb sx sy) (Zpos mx * Zpos my) (ex + ey)
            (SF64mul (S754_finite sx mx ex) (S754_finite sy my ey)).
Proof.
  intros Hx Hy. unfold SF64mul. cbn [SFmul]. rewrite <- Pos2Z.inj_mul.
  apply binary_round_aux_rounds. lia.
Qed.

Lemma binary_normalize_rounds M e :
  -2200 <= e ->
  (M = 0 /\ binary_normalize prec emax M e false = S754_zero false)
  \/ (0 < M /\ rounds_to false M e (binary_normalize prec emax M e false))
  \/ (M < 0 /\ rounds_to true (- M) e (binary_normalize prec emax M e false)).
Proof.
  intros He. destruct M as [|p|p]; cbn [binary_normalize].
  - left. auto.
  - right; left. split; [lia|]. now apply binary_round_rounds.
  - right; right. split; [lia|]. cbn [Z.opp]. now apply binary_round_rounds.
Qed.

Lemma cond_Zopp_mul s x p : cond_Zopp s x * p = cond_Zopp s (x * p).
Proof. destruct s; cbn [cond_Zopp]; lia. Qed.

Lemma SFadd_finite sx mx ex sy my ey :
  -1074 <= ex -> -1074 <= ey ->
  exists Sm,
    SF64add (S754_finite sx mx ex) (S754_finite sy my ey)
    = binary_normalize prec emax Sm (Z.min ex ey) false
    /\ Sm * pow2 (Z.min ex ey)
       = cond_Zopp sx (Zpos mx * pow2 ex) + cond_Zopp sy (Zpos my * pow2 ey).
Proof.
  intros Hx Hy. eexists. split; [reflexivity|].
  rewrite Z.mul_add_distr_r, !cond_Zopp_mul.
  rewrite !shl_align_value by lia. reflexivity.
Qed.

Lemma SFsub_finite sx mx ex sy my ey :
  -1074 <= ex -> -1074 <= ey ->
  exists Sm,
    SF64sub (S754_finite sx mx ex) (S754_finite sy my ey)
    = binary_normalize prec emax Sm (Z.min ex ey) false
    /\ Sm * pow2 (Z.min ex ey)
       = cond_Zopp sx (Zpos mx * pow2 ex) - cond_Zopp sy (Zpos my * pow2 ey).
Proof.
  intros Hx Hy. eexists. split; [reflexivity|].
  rewrite Z.mul_sub_distr_r, !cond_Zopp_mul.
  rewrite !shl_align_value by lia. reflexivity.
Qed.

Lemma pow2_mul a b :
  -2200 <= a -> -2200 <= b -> -2200 <= a + b ->
  pow2 (a + b) * 2 ^ 2200 = pow2 a * pow2 b.
Proof.
  intros Ha Hb Hab. unfold pow2. rewrite <- !Z.pow_add_r by lia.
  f_equal. lia.
Qed.

Lemma sf1_value : 4503599627370496 * pow2 (-52) = 2 ^ 2200.
Proof. reflexivity. Qed.

Lemma sf1_bounded : bounded prec emax 4503599627370496 (-52) = true.
Proof. reflexivity. Qed.

Lemma K_pos : 0 < 2 ^ 2200.
Proof. apply Z.pow_pos_nonneg; lia. Qed.

Lemma sign_false_not_neg r : sf_sign_is false r -> SFltb r sf0 = false.
Proof. destruct r as [s|s| |s m e]; cbn; intros H; try rewrite H; easy. Qed.

Lemma sign_true_not_pos r : sf_sign_is true r -> SFltb sf0 r = false.
Proof. destruct r as [s|s| |s m e]; cbn; intros H; try rewrite H; easy. Qed.

Lemma sign_true_below r m e :
  sf_sign_is true r ->
  SFltb (S754_finite false m e) r = false
  /\ SFleb r (S754_finite false m e) = true
  /\ SFltb r (S754_finite false m e) = true.
Proof. destruct r as [s|s| |s m' e']; cbn; intros H; try rewrite H; easy. Qed.

Ltac sf_cases X H :=
  destruct X as [[|]|[|]| |[|] ? ?];
  try (cbn [SFltb SFleb SFcompare sf0 sf1] in H; discriminate H).

(** Multiplying by a positive number keeps a number from being negative,
    and from being positive. *)
Lemma SFmul_not_neg X B :
  valid_binary X = true -> valid_binary B = true ->
  SFltb sf0 B = true -> SFltb X sf0 = false ->
  SFltb (SF64mul X B) sf0 = false.
Proof.
  intros HvX HvB HB HX.
  sf_cases B HB; sf_cases X HX; try reflexivity.
  apply sign_false_not_neg.
  apply bounded_facts in HvX, HvB.
  match goal with
  | |- sf_sign_is _ (SF64mul (S754_finite _ ?mx ?ex) (S754_finite _ ?my ?ey)) =>
      apply (rounds_to_sign false _ _ _
               (SFmul_finite false mx ex false my ey ltac:(lia) ltac:(lia)))
  end.
Qed.

Lemma SFmul_not_pos X B :
  valid_binary X = true -> valid_binary B = true ->
  SFltb sf0 B = true -> SFltb sf0 X = false ->
  SFltb sf0 (SF64mul X B) = false.
Proof.
  intros HvX HvB HB HX.
  sf_cases B HB; sf_cases X HX; try reflexivity.
  apply sign_true_not_pos.
  apply bounded_facts in HvX, HvB.
  match goal with
  | |- sf_sign_is _ (SF64mul (S754_finite _ ?mx ?ex) (S754_finite _ ?my ?ey)) =>
      apply (rounds_to_sign true _ _ _
               (SFmul_finite true mx ex false my ey ltac:(lia) ltac:(lia)))
  end.
Qed.

(** Adding a number that is not negative to 1 gives at least 1. *)
Lemma SFadd_one_not_below T :
  valid_binary T = true -> valid_binary (SF64add sf1 T) = true ->
  SFltb T sf0 = false -> SFltb (SF64add sf1 T) sf1 = false.
Proof.
  intros HvT Hv HT. sf_cases T HT; try reflexivity.
  apply bounded_facts in HvT.
  destruct (SFadd_finite false 4503599627370496 (-52) false m e
                         ltac:(lia) ltac:(lia)) as (Sm & E & HS).
  unfold sf1 in *. rewrite E in *. cbn [cond_Zopp] in HS.
  rewrite sf1_value in HS. pose proof K_pos as HK. set (K := 2 ^ 2200) in *.
  set (ez := Z.min (-52) e) in *.
  pose proof (pow2_pos ez ltac:(lia)) as Hpz.
  pose proof (pow2_pos e ltac:(lia)) as Hpe.
  assert (HSpos : 0 < Sm) by nia.
  destruct (binary_normalize_rounds Sm ez ltac:(lia)) as [[H _]|[[_ Hr]|[H _]]];
    try lia.
  apply (rounds_to_ge Sm ez _ 4503599627370496 (-52) Hr Hv sf1_bounded).
  rewrite sf1_value. fold K. nia.
Qed.

Lemma SFadd_one_not_above T :
  valid_binary T = true -> valid_binary (SF64add sf1 T) = true ->
  SFltb sf0 T = false -> SFltb sf1 (SF64add sf1 T) = false.
Proof.
  intros HvT Hv HT. sf_cases T HT; try reflexivity.
  apply bounded_facts in HvT.
  destruct (SFadd_finite false 4503599627370496 (-52) true m e
                         ltac:(lia) ltac:(lia)) as (Sm & E & HS).
  unfold sf1 in *. rewrite E in *. cbn [cond_Zopp] in HS.
  rewrite sf1_value in HS. pose proof K_pos as HK. set (K := 2 ^ 2200) in *.
  set (ez := Z.min (-52) e) in *.
  pose proof (pow2_pos ez ltac:(lia)) as Hpz.
  pose proof (pow2_pos e ltac:(lia)) as Hpe.
  destruct (binary_normalize_rounds Sm ez ltac:(lia))
    as [[_ ->]|[[HSpos Hr]|[_ Hr]]].
  - reflexivity.
  - apply (rounds_to_le Sm ez _ 4503599627370496 (-52) Hr Hv sf1_bounded);
      [lia|rewrite sf1_value; fold K; nia].
  - now apply sign_true_below, (rounds_to_sign _ _ _ _ Hr).
Qed.

Lemma pow2_0 : pow2 0 = 2 ^ 2200.
Proof. reflexivity. Qed.

(** Multiplying a positive number by a factor not below 1 does not give
    less, and by a factor not above 1 does not give more. *)
Lemma SFmul_not_below L U :
  valid_binary L = true -> valid_binary U = true ->
  valid_binary (SF64mul L U) = true ->
  SFltb sf0 L = true -> SFltb U sf1 = false ->
  SFltb (SF64mul L U) L = false.
Proof.
  intros HvL HvU Hv HL HU.
  sf_cases L HL; sf_cases U HU; try reflexivity.
  rename m into ml, e into el, m0 into mu, e0 into eu.
  unfold sf1 in HU. rewrite SFltb_finite in HU by (trivial; apply sf1_bounded).
  apply Z.ltb_ge in HU. rewrite sf1_value in HU.
  pose proof (bounded_facts _ _ HvL) as (Hel & _).
  pose proof (bounded_facts _ _ HvU) as (Heu & _).
  apply (rounds_to_ge _ _ _ ml el (SFmul_finite false ml el false mu eu
                                     ltac:(lia) ltac:(lia)) Hv HvL).
  pose proof K_pos as HK.
  pose proof (pow2_mul el eu ltac:(lia) ltac:(lia) ltac:(lia)) as Hm.
  set (K := 2 ^ 2200) in *.
  pose proof (pow2_pos el ltac:(lia)) as Hpl.
  apply (Z.mul_le_mono_pos_r _ _ K HK).
  replace (Zpos ml * Zpos mu * pow2 (el + eu) * K)
    with (Zpos ml * Zpos mu * (pow2 (el + eu) * K)) by ring.
  rewrite Hm.
  replace (Zpos ml * Zpos mu * (pow2 el * pow2 eu))
    with (Zpos ml * pow2 el * (Zpos mu * pow2 eu)) by ring.
  apply Z.mul_le_mono_nonneg_l; [lia|assumption].
Qed.

Lemma SFmul_not_above L U :
  valid_binary L = true -> valid_binary U = true ->
  valid_binary (SF64mul L U) = true ->
  SFltb sf0 L = true -> SFltb sf1 U = false ->
  SFltb L (SF64mul L U) = false.
Proof.
  intros HvL HvU Hv HL HU.
  sf_cases L HL; sf_cases U HU; try reflexivity.
  - (* a negative factor *)
    rename m into ml, e into el, m0 into mu, e0 into eu.
    pose proof (bounded_facts _ _ HvL) as (Hel & _).
    pose proof (bounded_facts _ _ HvU) as (Heu & _).
    apply sign_true_below.
    apply (rounds_to_sign true _ _ _ (SFmul_finite false ml el true mu eu
                                        ltac:(lia) ltac:(lia))).
  - rename m into ml, e into el, m0 into mu, e0 into eu.
    unfold sf1 in HU. rewrite SFltb_finite in HU by (trivial; apply sf1_bounded).
    apply Z.ltb_ge in HU. rewrite sf1_value in HU.
    pose proof (bounded_facts _ _ HvL) as (Hel & _).
    pose proof (bounded_facts _ _ HvU) as (Heu & _).
    pose proof K_pos as HK.
    pose proof (pow2_mul el eu ltac:(lia) ltac:(lia) ltac:(lia)) as Hm.
    assert (Heu0 : eu <= 0).
    { destruct (Z_le_gt_dec eu 0) as [|Hgt]; [assumption|exfalso].
      pose proof (pow2_le 1 eu ltac:(lia) ltac:(lia)) as Hle.
      change (pow2 1) with (2 * 2 ^ 2200) in Hle.
      set (K := 2 ^ 2200) in *. nia. }
    set (K := 2 ^ 2200) in *.
    pose proof (pow2_pos el ltac:(lia)) as Hpl.
    apply (rounds_to_le _ _ _ ml el (SFmul_finite false ml el false mu eu
                                       ltac:(lia) ltac:(lia)) Hv HvL);
      [lia|].
    apply (Z.mul_le_mono_pos_r _ _ K HK).
    replace (Zpos ml * Zpos mu * pow2 (el + eu) * K)
      with (Zpos ml * Zpos mu * (pow2 (el + eu) * K)) by ring.
    rewrite Hm.
    replace (Zpos ml * Zpos mu * (pow2 el * pow2 eu))
      with (Zpos ml * pow2 el * (Zpos mu * pow2 eu)) by ring.
    apply Z.mul_le_mono_nonneg_l; [lia|assumption].
Qed.

(** The sign of a difference. *)
Lemma SFsub_not_neg E L :
  valid_binary E = true -> valid_binary L = true ->
  SFltb sf0 L = true -> SFltb E L = false ->
  SFltb (SF64sub E L) sf0 = false.
Proof.
  intros HvE HvL HL HE.
  sf_cases L HL; sf_cases E HE; try reflexivity.
  rename m into ml, e into el, m0 into me, e0 into ee.
  rewrite SFltb_finite in HE by assumption. apply Z.ltb_ge in HE.
  pose proof (bounded_facts _ _ HvL) as (Hel & _).
  pose proof (bounded_facts _ _ HvE) as (Hee & _).
  destruct (SFsub_finite false me ee false ml el ltac:(lia) ltac:(lia))
    as (Sm & -> & HS).
  cbn [cond_Zopp] in HS. set (ez := Z.min ee el) in *.
  pose proof (pow2_pos ez ltac:(lia)) as Hpz.
  destruct (binary_normalize_rounds Sm ez ltac:(lia))
    as [[_ ->]|[[_ Hr]|[Hneg _]]].
  - reflexivity.
  - now apply sign_false_not_neg, (rounds_to_sign _ _ _ _ Hr).
  - exfalso. nia.
Qed.

Lemma SFsub_not_pos E L :
  valid_binary E = true -> valid_binary L = true ->
  SFltb sf0 L = true -> SFltb L E = false ->
  SFltb sf0 (SF64sub E L) = false.
Proof.
  intros HvE HvL HL HE.
  sf_cases L HL; sf_cases E HE; try reflexivity.
  - rename m into ml, e into el, m0 into me, e0 into ee.
    pose proof (bounded_facts _ _ HvL) as (Hel & _).
    pose proof (bounded_facts _ _ HvE) as (Hee & _).
    destruct (SFsub_finite true me ee false ml el ltac:(lia) ltac:(lia))
      as (Sm & -> & HS).
    cbn [cond_Zopp] in HS. set (ez := Z.min ee el) in *.
    pose proof (pow2_pos ez ltac:(lia)) as Hpz.
    pose proof (pow2_pos ee ltac:(lia)) as Hpe.
    pose proof (pow2_pos el ltac:(lia)) as Hpl.
    destruct (binary_normalize_rounds Sm ez ltac:(lia))
      as [[HS0 _]|[[Hpos _]|[_ Hr]]].
    + exfalso. nia.
    + exfalso. nia.
    + now apply sign_true_not_pos, (rounds_to_sign _ _ _ _ Hr).
  - rename m into ml, e into el, m0 into me, e0 into ee.
    rewrite SFltb_finite in HE by assumption. apply Z.ltb_ge in HE.
    pose proof (bounded_facts _ _ HvL) as (Hel & _).
    pose proof (bounded_facts _ _ HvE) as (Hee & _).
    destruct (SFsub_finite false me ee false ml el ltac:(lia) ltac:(lia))
      as (Sm & -> & HS).
    cbn [cond_Zopp] in HS. set (ez := Z.min ee el) in *.
    pose proof (pow2_pos ez ltac:(lia)) as Hpz.
    destruct (binary_normalize_rounds Sm ez ltac:(lia))
      as [[_ ->]|[[Hpos _]|[_ Hr]]].
    + reflexivity.
    + exfalso. nia.
    + now apply sign_true_not_pos, (rounds_to_sign _ _ _ _ Hr).
Qed.

Lemma sf_eps_value : 4503599627370496 * pow2 (-104) = 2 ^ 2148.
Proof. reflexivity. Qed.
Lemma sf_above1_value : 4503599627370497 * pow2 (-52) = 2 ^ 2200 + 2 ^ 2148.
Proof. reflexivity. Qed.
Lemma sf_below1_value : 9007199254740990 * pow2 (-53) = 2 ^ 2200 - 2 ^ 2148.
Proof. reflexivity. Qed.
Lemma K_split : 2 ^ 2200 = 2 ^ 52 * 2 ^ 2148.
Proof. reflexivity. Qed.
Lemma k_pos : 0 < 2 ^ 2148.
Proof. apply Z.pow_pos_nonneg; lia. Qed.

(** The same facts, strictly, for a move of at least one unit in the last
    place of 1. *)
Lemma SFadd_one_above T :
  valid_binary T = true -> valid_binary (SF64add sf1 T) = true ->
  SFleb sf_eps T = true -> SFleb sf_above1 (SF64add sf1 T) = true.
Proof.
  intros HvT Hv HT. sf_cases T HT; try reflexivity.
  unfold sf_eps in HT. rewrite SFleb_finite in HT by (trivial; reflexivity).
  apply Z.leb_le in HT. rewrite sf_eps_value in HT.
  apply bounded_facts in HvT.
  destruct (SFadd_finite false 4503599627370496 (-52) false m e
                         ltac:(lia) ltac:(lia)) as (Sm & E & HS).
  unfold sf1 in *. rewrite E in *. cbn [cond_Zopp] in HS.
  rewrite sf1_value in HS. pose proof K_pos as HK. pose proof k_pos as Hk.
  set (K := 2 ^ 2200) in *. set (k := 2 ^ 2148) in *.
  set (ez := Z.min (-52) e) in *.
  pose proof (pow2_pos ez ltac:(lia)) as Hpz.
  assert (HSpos : 0 < Sm) by nia.
  destruct (binary_normalize_rounds Sm ez ltac:(lia)) as [[H _]|[[_ Hr]|[H _]]];
    try lia.
  apply (rounds_to_ge Sm ez _ 4503599627370497 (-52) Hr Hv eq_refl).
  rewrite sf_above1_value. fold K k. lia.
Qed.

Lemma SFadd_one_below T :
  valid_binary T = true -> valid_binary (SF64add sf1 T) = true ->
  SFltb T sf0 = true -> SFleb sf_eps (SFabs T) = true ->
  SFleb (SF64add sf1 T) sf_below1 = true.
Proof.
  intros HvT Hv Hneg HT. sf_cases T Hneg; try reflexivity.
  cbn [SFabs] in HT.
  unfold sf_eps in HT. rewrite SFleb_finite in HT by (trivial; reflexivity).
  apply Z.leb_le in HT. rewrite sf_eps_value in HT.
  apply bounded_facts in HvT.
  destruct (SFadd_finite false 4503599627370496 (-52) true m e
                         ltac:(lia) ltac:(lia)) as (Sm & E & HS).
  unfold sf1 in *. rewrite E in *. cbn [cond_Zopp] in HS.
  rewrite sf1_value in HS. pose proof K_pos as HK. pose proof k_pos as Hk.
  set (K := 2 ^ 2200) in *. set (k := 2 ^ 2148) in *.
  set (ez := Z.min (-52) e) in *.
  pose proof (pow2_pos ez ltac:(lia)) as Hpz.
  destruct (binary_normalize_rounds Sm ez ltac:(lia))
    as [[_ ->]|[[HSpos Hr]|[_ Hr]]].
  - reflexivity.
  - apply (rounds_to_le Sm ez _ 9007199254740990 (-53) Hr Hv eq_refl);
      [lia|]. rewrite sf_below1_value. fold K k. lia.
  - now apply sign_true_below, (rounds_to_sign _ _ _ _ Hr).
Qed.

Lemma SFmul_above ml el U :
  valid_binary (S754_finite false ml el) = true -> 2 ^ 52 <= Zpos ml ->
  valid_binary U = true ->
  valid_binary (SF64mul (S754_finite false ml el) U) = true ->
  SFleb sf_above1 U = true ->
  SFltb (S754_finite false ml el) (SF64mul (S754_finite false ml el) U) = true.
Proof.
  intros HvL Hnorm HvU Hv HU. sf_cases U HU; try reflexivity.
  rename m into mu, e into eu.
  unfold sf_above1 in HU. rewrite SFleb_finite in HU by (trivial; reflexivity).
  apply Z.leb_le in HU. rewrite sf_above1_value in HU.
  pose proof (bounded_facts _ _ HvL) as (Hel & Hml & _).
  pose proof (bounded_facts _ _ HvU) as (Heu & _).
  pose proof (pow2_mul el eu ltac:(lia) ltac:(lia) ltac:(lia)) as Hm.
  pose proof K_pos as HK. pose proof k_pos as Hk. pose proof K_split as HKk.
  set (K := 2 ^ 2200) in *. set (k := 2 ^ 2148) in *.
  pose proof (pow2_pos el ltac:(lia)) as Hpl.
  apply (rounds_to_gt _ _ _ ml el (Zpos ml + 1) el
           (SFmul_finite false ml el false mu eu ltac:(lia) ltac:(lia)) Hv HvL);
    [lia|lia|lia|].
  apply (Z.mul_le_mono_pos_r _ _ K HK).
  replace (Zpos ml * Zpos mu * pow2 (el + eu) * K)
    with (Zpos ml * Zpos mu * (pow2 (el + eu) * K)) by ring.
  rewrite Hm.
  replace (Zpos ml * Zpos mu * (pow2 el * pow2 eu))
    with (Zpos ml * pow2 el * (Zpos mu * pow2 eu)) by ring.
  assert (H1 : Zpos ml * pow2 el * (K + k) <= Zpos ml * pow2 el * (Zpos mu * pow2 eu))
    by (apply Z.mul_le_mono_nonneg_l; [lia|assumption]).
  assert (H2 : 2 ^ 52 * pow2 el <= Zpos ml * pow2 el)
    by (apply Z.mul_le_mono_nonneg_r; lia).
  set (c := 2 ^ 52) in *. nia.
Qed.

Lemma SFmul_below ml el U :
  valid_binary (S754_finite false ml el) = true -> 2 ^ 52 <= Zpos ml ->
  valid_binary U = true ->
  valid_binary (SF64mul (S754_finite false ml el) U) = true ->
  SFleb U sf_below1 = true ->
  SFltb (SF64mul (S754_finite false ml el) U) (S754_finite false ml el) = true.
Proof.
  intros HvL Hnorm HvU Hv HU. sf_cases U HU; try reflexivity.
  - rename m into mu, e into eu.
    pose proof (bounded_facts _ _ HvL) as (Hel & _).
    pose proof (bounded_facts _ _ HvU) as (Heu & _).
    apply sign_true_below.
    apply (rounds_to_sign true _ _ _ (SFmul_finite false ml el true mu eu
                                        ltac:(lia) ltac:(lia))).
  - rename m into mu, e into eu.
    unfold sf_below1 in HU. rewrite SFleb_finite in HU by (trivial; reflexivity).
    apply Z.leb_le in HU. rewrite sf_below1_value in HU.
    pose proof (bounded_facts _ _ HvL) as (Hel & Hml & _).
    pose proof (bounded_facts _ _ HvU) as (Heu & _).
    pose proof (pow2_mul el eu ltac:(lia) ltac:(lia) ltac:(lia)) as Hm.
    pose proof K_pos as HK. pose proof k_pos as Hk. pose proof K_split as HKk.
    assert (Heu0 : eu <= 0).
    { destruct (Z_le_gt_dec eu 0) as [|Hgt]; [assumption|exfalso].
      pose proof (pow2_le 1 eu ltac:(lia) ltac:(lia)) as Hle.
      change (pow2 1) with (2 * 2 ^ 2200) in Hle.
      set (K := 2 ^ 2200) in *. set (k := 2 ^ 2148) in *. nia. }
    set (K := 2 ^ 2200) in *. set (k := 2 ^ 2148) in *.
    pose proof (pow2_pos el ltac:(lia)) as Hpl.
    apply (rounds_to_lt _ _ _ ml el (Zpos ml - 1) el
             (SFmul_finite false ml el false mu eu ltac:(lia) ltac:(lia)) Hv HvL);
      [lia|change (2 ^ 52) with 4503599627370496 in Hnorm; lia|lia|lia|].
    apply (Z.mul_le_mono_pos_r _ _ K HK).
    replace (Zpos ml * Zpos mu * pow2 (el + eu) * K)
      with (Zpos ml * Zpos mu * (pow2 (el + eu) * K)) by ring.
    rewrite Hm.
    replace (Zpos ml * Zpos mu * (pow2 el * pow2 eu))
      with (Zpos ml * pow2 el * (Zpos mu * pow2 eu)) by ring.
    assert (H1 : Zpos ml * pow2 el * (Zpos mu * pow2 eu) <= Zpos ml * pow2 el * (K - k))
      by (apply Z.mul_le_mono_nonneg_l; [lia|assumption]).
    assert (H2 : 2 ^ 52 * pow2 el <= Zpos ml * pow2 el)
      by (apply Z.mul_le_mono_nonneg_r; lia).
    set (c := 2 ^ 52) in *. nia.
Qed.

Lemma nonzero_positive r :
  (exists p e2, r = S754_finite false p e2) \/ r = S754_infinity false ->
  SFltb sf0 r = true.
Proof. intros [(p & e2 & ->)| ->]; reflexivity. Qed.

Lemma nonzero_negative r :
  (exists p e2, r = S754_finite true p e2) \/ r = S754_infinity true ->
  SFltb r sf0 = true.
Proof. intros [(p & e2 & ->)| ->]; reflexivity. Qed.

Lemma SFsub_pos E ml el :
  valid_binary E = true -> valid_binary (S754_finite false ml el) = true ->
  SFltb (S754_finite false ml el) E = true ->
  SFltb sf0 (SF64sub E (S754_finite false ml el)) = true.
Proof.
  intros HvE HvL HE. sf_cases E HE; try reflexivity.
  rename m into me, e into ee.
  rewrite SFltb_finite in HE by assumption. apply Z.ltb_lt in HE.
  pose proof (bounded_facts _ _ HvL) as (Hel & _).
  pose proof (bounded_facts _ _ HvE) as (Hee & _).
  destruct (SFsub_finite false me ee false ml el ltac:(lia) ltac:(lia))
    as (Sm & -> & HS).
  cbn [cond_Zopp] in HS. set (ez := Z.min ee el) in *.
  pose proof (pow2_pos ez ltac:(lia)) as Hpz.
  destruct (binary_normalize_rounds Sm ez ltac:(lia))
    as [[HS0 _]|[[Hpos Hr]|[Hneg _]]].
  - exfalso. nia.
  - apply nonzero_positive. apply (rounds_to_nonzero _ _ _ _ Hr Hpos). lia.
  - exfalso. nia.
Qed.

Lemma SFsub_neg E ml el :
  valid_binary E = true -> valid_binary (S754_finite false ml el) = true ->
  SFltb E (S754_finite false ml el) = true ->
  SFltb (SF64sub E (S754_finite false ml el)) sf0 = true.
Proof.
  intros HvE HvL HE. sf_cases E HE; try reflexivity.
  - rename m into me, e into ee.
    pose proof (bounded_facts _ _ HvL) as (Hel & _).
    pose proof (bounded_facts _ _ HvE) as (Hee & _).
    destruct (SFsub_finite true me ee false ml el ltac:(lia) ltac:(lia))
      as (Sm & -> & HS).
    cbn [cond_Zopp] in HS. set (ez := Z.min ee el) in *.
    pose proof (pow2_pos ez ltac:(lia)) as Hpz.
    pose proof (pow2_pos ee ltac:(lia)) as Hpe.
    pose proof (pow2_pos el ltac:(lia)) as Hpl.
    destruct (binary_normalize_rounds Sm ez ltac:(lia))
      as [[HS0 _]|[[Hpos _]|[Hneg Hr]]].
    + exfalso. nia.
    + exfalso. nia.
    + apply nonzero_negative. apply (rounds_to_nonzero _ _ _ _ Hr); lia.
  - rename m into me, e into ee.
    rewrite SFltb_finite in HE by assumption. apply Z.ltb_lt in HE.
    pose proof (bounded_facts _ _ HvL) as (Hel & _).
    pose proof (bounded_facts _ _ HvE) as (Hee & _).
    destruct (SFsub_finite false me ee false ml el ltac:(lia) ltac:(lia))
      as (Sm & -> & HS).
    cbn [cond_Zopp] in HS. set (ez := Z.min ee el) in *.
    pose proof (pow2_pos ez ltac:(lia)) as Hpz.
    destruct (binary_normalize_rounds Sm ez ltac:(lia))
      as [[HS0 _]|[[Hpos _]|[Hneg Hr]]].
    + exfalso. nia.
    + exfalso. nia.
    + apply nonzero_negative. apply (rounds_to_nonzero _ _ _ _ Hr); lia.
Qed.

(** ** The same facts for the primitive operations *)

Lemma Prim2SF_mul_valid x y : valid_binary (SF64mul (Prim2SF x) (Prim2SF y)) = true.
Proof. rewrite <- mul_spec. apply Prim2SF_valid. Qed.

Lemma Prim2SF_add_valid x y : valid_binary (SF64add (Prim2SF x) (Prim2SF y)) = true.
Proof. rewrite <- add_spec. apply Prim2SF_valid. Qed.

Lemma float_ltb_asym x : PrimFloat.ltb 0 x = true -> PrimFloat.ltb x 0 = false.
Proof.
  rewrite !ltb_spec. change (Prim2SF 0) with sf0.
  now destruct (Prim2SF x) as [[|]|[|]| |[|] m e].
Qed.

Lemma float_ltb_asym' x : PrimFloat.ltb x 0 = true -> PrimFloat.ltb 0 x = false.
Proof.
  rewrite !ltb_spec. change (Prim2SF 0) with sf0.
  now destruct (Prim2SF x) as [[|]|[|]| |[|] m e].
Qed.

Lemma float_mul_not_neg x b :
  PrimFloat.ltb 0 b = true -> PrimFloat.ltb x 0 = false ->
  PrimFloat.ltb (x * b) 0 = false.
Proof.
  rewrite !ltb_spec, mul_spec. change (Prim2SF 0) with sf0.
  apply SFmul_not_neg; apply Prim2SF_valid.
Qed.

Lemma float_mul_not_pos x b :
  PrimFloat.ltb 0 b = true -> PrimFloat.ltb 0 x = false ->
  PrimFloat.ltb 0 (x * b) = false.
Proof.
  rewrite !ltb_spec, mul_spec. change (Prim2SF 0) with sf0.
  apply SFmul_not_pos; apply Prim2SF_valid.
Qed.

Lemma float_add_one_not_below t :
  PrimFloat.ltb t 0 = false -> PrimFloat.ltb (1 + t) 1 = false.
Proof.
  rewrite !ltb_spec, add_spec. change (Prim2SF 0) with sf0.
  change (Prim2SF 1) with sf1.
  apply SFadd_one_not_below; [apply Prim2SF_valid|].
  change sf1 with (Prim2SF 1). apply Prim2SF_add_valid.
Qed.

Lemma float_add_one_not_above t :
  PrimFloat.ltb 0 t = false -> PrimFloat.ltb 1 (1 + t) = false.
Proof.
  rewrite !ltb_spec, add_spec. change (Prim2SF 0) with sf0.
  change (Prim2SF 1) with sf1.
  apply SFadd_one_not_above; [apply Prim2SF_valid|].
  change sf1 with (Prim2SF 1). apply Prim2SF_add_valid.
Qed.

Lemma float_mul_not_below l u :
  PrimFloat.ltb 0 l = true -> PrimFloat.ltb u 1 = false ->
  PrimFloat.ltb (l * u) l = false.
Proof.
  rewrite !ltb_spec, mul_spec. change (Prim2SF 0) with sf0.
  change (Prim2SF 1) with sf1.
  apply SFmul_not_below; first [apply Prim2SF_valid|apply Prim2SF_mul_valid].
Qed.

Lemma float_mul_not_above l u :
  PrimFloat.ltb 0 l = true -> PrimFloat.ltb 1 u = false ->
  PrimFloat.ltb l (l * u) = false.
Proof.
  rewrite !ltb_spec, mul_spec. change (Prim2SF 0) with sf0.
  change (Prim2SF 1) with sf1.
  apply SFmul_not_above; first [apply Prim2SF_valid|apply Prim2SF_mul_valid].
Qed.

Lemma float_sub_not_neg e l :
  PrimFloat.ltb 0 l = true -> PrimFloat.ltb e l = false ->
  PrimFloat.ltb (e - l) 0 = false.
Proof.
  rewrite !ltb_spec, sub_spec. change (Prim2SF 0) with sf0.
  apply SFsub_not_neg; apply Prim2SF_valid.
Qed.

Lemma float_sub_not_pos e l :
  PrimFloat.ltb 0 l = true -> PrimFloat.ltb l e = false ->
  PrimFloat.ltb 0 (e - l) = false.
Proof.
  rewrite !ltb_spec, sub_spec. change (Prim2SF 0) with sf0.
  apply SFsub_not_pos; apply Prim2SF_valid.
Qed.

(** The sign of [l * (1 + p * b) - l] is never opposite to the sign of
    [p]. *)
Lemma float_gap_not_neg p b l :
  PrimFloat.ltb 0 b = true -> PrimFloat.ltb 0 l = true ->
  PrimFloat.ltb p 0 = false ->
  PrimFloat.ltb (l * (1 + p * b) - l) 0 = false.
Proof.
  intros Hb Hl Hp.
  apply float_sub_not_neg; [assumption|].
  apply float_mul_not_below; [assumption|].
  apply float_add_one_not_below.
  now apply float_mul_not_neg.
Qed.

Lemma float_gap_not_pos p b l :
  PrimFloat.ltb 0 b = true -> PrimFloat.ltb 0 l = true ->
  PrimFloat.ltb 0 p = false ->
  PrimFloat.ltb 0 (l * (1 + p * b) - l) = false.
Proof.
  intros Hb Hl Hp.
  apply float_sub_not_pos; [assumption|].
  apply float_mul_not_above; [assumption|].
  apply float_add_one_not_above.
  now apply float_mul_not_pos.
Qed.

Lemma classify_normal l :
  PrimFloat.classify l = PNormal ->
  exists ml el, Prim2SF l = S754_finite false ml el /\ 2 ^ 52 <= Zpos ml.
Proof.
  rewrite classify_spec. unfold SF64classify, SFclassify.
  destruct (Prim2SF l) as [[|]|[|]| |[|] m e]; try discriminate.
  - destruct (Zpos (digits2_pos m) =? prec); discriminate.
  - destruct (Zpos (digits2_pos m) =? prec) eqn:E; [|discriminate].
    intros _. exists m, e. split; [reflexivity|].
    apply Z.eqb_eq in E. pose proof (digits2_pos_bounds m) as [H _].
    rewrite E in H. exact H.
Qed.

Lemma float_gap_pos p b l :
  PrimFloat.ltb 0 b = true -> PrimFloat.classify l = PNormal ->
  PrimFloat.ltb 0 (p * b) = true ->
  PrimFloat.leb 0x1p-52 (PrimFloat.abs (p * b)) = true ->
  PrimFloat.ltb 0 (l * (1 + p * b) - l) = true.
Proof.
  intros Hb Hl Hpos Heps.
  destruct (classify_normal l Hl) as (ml & el & El & Hnorm).
  pose proof (Prim2SF_valid l) as HvL. rewrite El in HvL.
  assert (Hu : PrimFloat.leb (1 + 0x1p-52) (1 + p * b) = true).
  { set (a := (1 + 0x1p-52)%float). rewrite leb_spec, add_spec.
    change (Prim2SF a) with sf_above1. change (Prim2SF 1) with sf1.
    apply SFadd_one_above;
      [apply Prim2SF_valid|change sf1 with (Prim2SF 1); apply Prim2SF_add_valid|].
    rewrite leb_spec, abs_spec in Heps. rewrite ltb_spec in Hpos.
    change (Prim2SF 0x1p-52) with sf_eps in Heps.
    change (Prim2SF 0) with sf0 in Hpos.
    destruct (Prim2SF (p * b)) as [[|]|[|]| |[|] m e]; try discriminate;
      assumption. }
  assert (He : PrimFloat.ltb l (l * (1 + p * b)) = true).
  { rewrite ltb_spec, mul_spec, El.
    apply SFmul_above; try assumption.
    - apply Prim2SF_valid.
    - rewrite <- El. apply Prim2SF_mul_valid.
    - rewrite leb_spec in Hu. exact Hu. }
  rewrite ltb_spec, sub_spec, El. change (Prim2SF 0) with sf0.
  apply SFsub_pos; [apply Prim2SF_valid|assumption|].
  rewrite ltb_spec, El in He. exact He.
Qed.

Lemma float_gap_neg p b l :
  PrimFloat.ltb 0 b = true -> PrimFloat.classify l = PNormal ->
  PrimFloat.ltb (p * b) 0 = true ->
  PrimFloat.leb 0x1p-52 (PrimFloat.abs (p * b)) = true ->
  PrimFloat.ltb (l * (1 + p * b) - l) 0 = true.
Proof.
  intros Hb Hl Hneg Heps.
  destruct (classify_normal l Hl) as (ml & el & El & Hnorm).
  pose proof (Prim2SF_valid l) as HvL. rewrite El in HvL.
  assert (Hu : PrimFloat.leb (1 + p * b) (1 - 0x1p-52) = true).
  { set (a := (1 - 0x1p-52)%float). rewrite leb_spec, add_spec.
    change (Prim2SF a) with sf_below1. change (Prim2SF 1) with sf1.
    apply SFadd_one_below;
      [apply Prim2SF_valid|change sf1 with (Prim2SF 1); apply Prim2SF_add_valid| |].
    - rewrite ltb_spec in Hneg. exact Hneg.
    - rewrite leb_spec, abs_spec in Heps. exact Heps. }
  assert (He : PrimFloat.ltb (l * (1 + p * b)) l = true).
  { rewrite ltb_spec, mul_spec, El.
    apply SFmul_below; try assumption.
    - apply Prim2SF_valid.
    - rewrite <- El. apply Prim2SF_mul_valid.
    - rewrite leb_spec in Hu. exact Hu. }
  rewrite ltb_spec, sub_spec, El. change (Prim2SF 0) with sf0.
  apply SFsub_neg; [apply Prim2SF_valid|assumption|].
  rewrite ltb_spec, El in He. exact He.
Qed.

Lemma float_abs_sign t :
  PrimFloat.leb 0x1p-52 (PrimFloat.abs t) = true ->
  PrimFloat.ltb 0 t = true \/ PrimFloat.ltb t 0 = true.
Proof.
  rewrite leb_spec, abs_spec, !ltb_spec.
  change (Prim2SF 0x1p-52) with sf_eps. change (Prim2SF 0) with sf0.
  destruct (Prim2SF t) as [[|]|[|]| |[|] m e]; cbn; auto; discriminate.
Qed.

Lemma sign_float (x : float) :
  sign x = if PrimFloat.ltb 0 x then 1 else if PrimFloat.ltb x 0 then -1 else 0.
Proof. reflexivity. Qed.

(** The sign of [l * (1 + p * b) - l] in binary64, for positive [l] and
    [b]: that of [p] or 0, and that of [p] when [p * b] is at least one
    unit in the last place of 1 and [l] is a normal number. *)
Lemma float_gap_sign (p b l : float) :
  PrimFloat.ltb 0 b = true -> PrimFloat.ltb 0 l = true ->
  (sign (l * (1 + p * b) - l)%float = sign p
   \/ sign (l * (1 + p * b) - l)%float = 0)
  /\ (PrimFloat.classify l = PNormal ->
      PrimFloat.leb 0x1p-52 (PrimFloat.abs (p * b)) = true ->
      sign (l * (1 + p * b) - l)%float = sign p
      /\ sign (l * (1 + p * b) - l)%float <> 0).
Proof.
  intros Hb Hl. set (d := (l * (1 + p * b) - l)%float).
  rewrite !sign_float. split.
  - destruct (PrimFloat.ltb 0 p) eqn:Hp.
    + pose proof (float_gap_not_neg p b l Hb Hl (float_ltb_asym _ Hp)) as Hd.
      fold d in Hd. rewrite Hd. destruct (PrimFloat.ltb 0 d); auto.
    + pose proof (float_gap_not_pos p b l Hb Hl Hp) as Hd.
      fold d in Hd. rewrite Hd.
      destruct (PrimFloat.ltb p 0) eqn:Hp'.
      * destruct (PrimFloat.ltb d 0); auto.
      * pose proof (float_gap_not_neg p b l Hb Hl Hp') as Hd'.
        fold d in Hd'. rewrite Hd'. auto.
  - intros Hn Heps.
    destruct (float_abs_sign _ Heps) as [Ht|Ht].
    + assert (Hp : PrimFloat.ltb 0 p = true).
      { destruct (PrimFloat.ltb 0 p) eqn:Hp; [reflexivity|].
        rewrite (float_mul_not_pos p b Hb Hp) in Ht. discriminate. }
      rewrite Hp. unfold d. rewrite (float_gap_pos p b l Hb Hn Ht Heps).
      split; [reflexivity|discriminate].
    + assert (Hp : PrimFloat.ltb p 0 = true).
      { destruct (PrimFloat.ltb p 0) eqn:Hp; [reflexivity|].
        rewrite (float_mul_not_neg p b Hb Hp) in Ht. discriminate. }
      rewrite Hp, (float_ltb_asym' _ Hp).
      pose proof (float_gap_neg p b l Hb Hn Ht Heps) as Hd. fold d in Hd.
      rewrite Hd, (float_ltb_asym' _ Hd). split; [reflexivity|discriminate].
Qed.

(** A [NaN] has no sign, and neither has a difference with one. *)
Lemma sign_sub_nan (e l : float) :
  PrimFloat.is_nan e = true -> sign (e - l)%float = 0.
Proof.
  intros H. rewrite sign_float, !ltb_spec, sub_spec.
  unfold PrimFloat.is_nan in H. apply negb_true_iff in H.
  rewrite eqb_spec in H.
  destruct (Prim2SF e) as [[|]|[|]| |[|] m ex]; try discriminate H;
    try reflexivity;
    unfold SFeqb in H; cbn [SFcompare] in H;
    rewrite Z.compare_refl, Pos.compare_cont_refl in H; discriminate H.
Qed.

(** ** The gap prediction *)

(** C5, as stated, fails in the arithmetic the code runs on: a move of one
    unit in the last place of the current price is lost when it is added
    to 1, and the expected open equals the local price. *)
Lemma renderGap_sign_counterexample :
  ~ gap_sign_claim (mkQuote (JNum 4000.0000000000005) (JNum 3990) (JNum 4000))
                   (mkQuote (JNum 100) (JNum 99) JUndefined)
                   GOLD_MODEL.
Proof.
  intros H.
  destruct (H eq_refl eq_refl eq_refl eq_refl blankSink) as (e & He & Hsign).
  vm_compute in He. injection He as <-.
  vm_compute in Hsign. discriminate.
Qed.

(** C5, amended.  For a current price and an anchor that are numbers other
    than zero, a positive local price and a positive beta, [renderGap]
    shows [expectedOpen = localCurrent * (1 + overnightMove * beta)], and
    in the arithmetic it runs on [sign(expectedOpen - localCurrent)] is
    [sign(overnightMove)] or 0, never the opposite sign.  The two signs
    are equal whenever [overnightMove * beta], as computed, is at least
    [2 ^ -52] in absolute value and the local price is a normal number;
    only below that can rounding make the expected open equal the local
    price. *)
Theorem renderGap_sign_up_to_rounding
        (usdState beesState : Quote) (els : GapSink) (model : Model) :
  truthy (cur usdState) = true ->
  truthy (anchor1530 usdState) = true ->
  PrimFloat.ltb 0 (ToNumber (cur beesState)) = true ->
  PrimFloat.ltb 0 (beta model) = true ->
  let move := overnightPct (ToNumber (cur usdState))
                           (ToNumber (anchor1530 usdState)) in
  let e := expected (ToNumber (cur beesState)) move (beta model) in
  let d := PrimFloat.sub e (ToNumber (cur beesState)) in
  expShown (renderGap usdState beesState els model)
  = (if PrimFloat.is_nan e then expShown els else Some e)
  /\ (sign d = sign move \/ sign d = 0)
  /\ (PrimFloat.classify (ToNumber (cur beesState)) = PNormal ->
      PrimFloat.leb 0x1p-52 (PrimFloat.abs (PrimFloat.mul move (beta model))) = true ->
      sign d = sign move
      /\ expShown (renderGap usdState beesState els model) = Some e).
Proof.
  intros Hc Ha Hl Hb move e d.
  assert (Hshown : expShown (renderGap usdState beesState els model)
                   = (if PrimFloat.is_nan e then expShown els else Some e)).
  { unfold renderGap. rewrite Hc, Ha.
    assert (Ht : truthy (cur beesState) = true).
    { destruct (cur beesState) as [| |x]; cbn [ToNumber truthy] in Hl |- *;
        try discriminate Hl.
      rewrite ltb_spec in Hl. unfold PrimFloat.is_nan.
      rewrite !eqb_spec. change (Prim2SF 0) with sf0 in *.
      destruct (Prim2SF x) as [[|]|[|]| |[|] m ex]; try discriminate Hl;
        unfold SFeqb; cbn [SFcompare sf0];
        rewrite ?Z.compare_refl, ?Pos.compare_cont_refl; reflexivity. }
    rewrite Ht. cbn [negb orb]. unfold animateTo. fold move. fold e.
    now destruct (PrimFloat.is_nan e). }
  destruct (float_gap_sign move (beta model) (ToNumber (cur beesState)) Hb Hl)
    as [Hweak Hstrict].
  split; [exact Hshown|]. split; [exact Hweak|].
  intros Hn Heps. destruct (Hstrict Hn Heps) as [Heq Hnz].
  split; [exact Heq|]. rewrite Hshown.
  destruct (PrimFloat.is_nan e) eqn:En; [|reflexivity].
  exfalso. apply Hnz. now apply sign_sub_nan.
Qed.

(** The scenario of the specification: 2650 against an anchor of 2640, a
    local price of 100 and the gold model.  The move is above the
    threshold, and both signs are positive. *)
Lemma renderGap_sign_up_to_rounding_witness :
  sign (PrimFloat.sub
          (expected 100%float (overnightPct 2650%float 2640%float) 0.88%float)
          100%float) = 1
  /\ expShown (renderGap (mkQuote (JNum 2650) (JNum 2600) (JNum 2640))
                         (mkQuote (JNum 100) (JNum 99) JUndefined)
                         blankSink GOLD_MODEL)
     = Some (expected 100%float (overnightPct 2650%float 2640%float) 0.88%float).
Proof.
  destruct (renderGap_sign_up_to_rounding
              (mkQuote (JNum 2650) (JNum 2600) (JNum 2640))
              (mkQuote (JNum 100) (JNum 99) JUndefined)
              blankSink GOLD_MODEL eq_refl eq_refl eq_refl eq_refl)
    as (_ & _ & H).
  destruct (H eq_refl eq_refl) as [Hs He].
  split; [|exact He].
  transitivity (sign (overnightPct 2650%float 2640%float));
    [exact Hs | reflexivity].
Defined.

Lemma truthy_present (v : jsval) : truthy v = true -> present_nonzero v.
Proof.
  destruct v as [| |x]; try discriminate. cbn. intros H.
  exists x. split; [reflexivity|].
  apply negb_true_iff, orb_false_iff in H. tauto.
Qed.

Lemma zero_or_missing_falsy (v : jsval) : zero_or_missing v -> truthy v = false.
Proof.
  intros [->|[->|(x & -> & Hx)]]; try reflexivity.
  cbn. now rewrite Hx.
Qed.

(** C6.  [renderGap], in both versions of the file, returns at once and
    leaves every prediction output as it was when the international
    current price, the anchor or the local current price is zero, [null]
    or missing; it writes to the outputs only when all three are present
    and non-zero. *)
Theorem renderGap_guard (usdState beesState : Quote) (els : GapSink) (model : Model) :
  (zero_or_missing (cur usdState) \/ zero_or_missing (anchor1530 usdState)
   \/ zero_or_missing (cur beesState) ->
   renderGap usdState beesState els model = els
   /\ V2.renderGap usdState beesState els = els)
  /\ (renderGap usdState beesState els model <> els
      \/ V2.renderGap usdState beesState els <> els ->
      present_nonzero (cur usdState) /\ present_nonzero (anchor1530 usdState)
      /\ present_nonzero (cur beesState)).
Proof.
  split.
  - intros H. unfold renderGap, V2.renderGap.
    assert (Hg : negb (truthy (cur usdState)) || negb (truthy (anchor1530 usdState))
                 || negb (truthy (cur beesState)) = true).
    { destruct H as [H|[H|H]]; apply zero_or_missing_falsy in H; rewrite H;
        cbn; rewrite ?orb_true_r; reflexivity. }
    now rewrite Hg.
  - intros H. unfold renderGap, V2.renderGap in H.
    destruct (truthy (cur usdState)) eqn:E1;
      [|cbn in H; destruct H as [H|H]; now elim H].
    destruct (truthy (anchor1530 usdState)) eqn:E2;
      [|cbn in H; destruct H as [H|H]; now elim H].
    destruct (truthy (cur beesState)) eqn:E3;
      [|cbn in H; destruct H as [H|H]; now elim H].
    auto using truthy_present.
Qed.

Lemma renderGap_guard_witness :
  renderGap (mkQuote (JNum 2650) (JNum 2600) (JNum 0))
            (mkQuote (JNum 100) (JNum 99) JUndefined) blankSink GOLD_MODEL
  = blankSink
  /\ V2.renderGap (mkQuote (JNum 2650) (JNum 2600) (JNum 0))
                  (mkQuote (JNum 100) (JNum 99) JUndefined) blankSink
     = blankSink.
Proof.
  apply (renderGap_guard (mkQuote (JNum 2650) (JNum 2600) (JNum 0))
                         (mkQuote (JNum 100) (JNum 99) JUndefined)
                         blankSink GOLD_MODEL).
  right; left. right; right. exists 0%float. split; reflexivity.
Defined.

(** ** The trading calendar *)

Lemma YearFromDay_spec d :
  DayFromYear (YearFromDay d) <= d < DayFromYear (YearFromDay d + 1).
Proof.
  unfold YearFromDay.
  set (a := 1970 + 400 * d / 146097).
  assert (Hlo : DayFromYear (a - 1) <= d) by (unfold DayFromYear, a; zlia).
  assert (Hhi : d < DayFromYear (a + 2)) by (unfold DayFromYear, a; zlia).
  destruct (DayFromYear (a + 1) <=? d) eqn:E1.
  - apply Z.leb_le in E1. replace (a + 1 + 1) with (a + 2) by lia. lia.
  - apply Z.leb_gt in E1. destruct (DayFromYear a <=? d) eqn:E2.
    + apply Z.leb_le in E2. lia.
    + apply Z.leb_gt in E2. replace (a - 1 + 1) with a by lia. lia.
Qed.

Lemma Day_MakeDate d : Day (MakeDate d 0) = d.
Proof. unfold Day, MakeDate, msPerDay. rewrite Z.add_0_r. now apply Z.div_mul. Qed.

(** [d.setDate(d.getDate() + 1)] moves a date one day ahead and keeps the
    time of day. *)
Lemma setDate_succ (t : Date) : setDate t (getDate t + 1) = t + msPerDay.
Proof.
  unfold setDate, getDate, DateFromTime, MakeDay, MakeDate, InLeapYear,
    DayWithinYear, TimeWithinDay.
  set (ms := monthStart _ _).
  replace (DayFromYear (YearFromTime t) + ms
           + (Day t - DayFromYear (YearFromTime t) - ms + 1 + 1) - 1)
    with (Day t + 1) by lia.
  unfold Day, msPerDay. zlia.
Qed.

Lemma range_all_spec f n : forall lo,
  range_all f lo n = true ->
  forall d, lo <= d < lo + Z.of_nat n -> f d = true.
Proof.
  induction n as [|k IH]; intros lo H d Hd; [lia|].
  cbn [range_all] in H. apply andb_prop in H. destruct H as [H0 H1].
  destruct (Z.eq_dec d lo) as [->|Hne]; [assumption|].
  apply (IH (lo + 1)); [assumption|lia].
Qed.

(** Reading the year back from a date string: the digits before the
    first hyphen determine the number that was printed. *)
Ltac next_digit u H :=
  destruct u; cbn in H; try discriminate H; injection H as H.

Lemma year_digits_2025 u rest tail :
  (NilZero.string_of_uint u ++ "-" ++ rest = "2025-" ++ tail)%string ->
  u = D2 (D0 (D2 (D5 Nil))).
Proof.
  intros H. unfold NilZero.string_of_uint in H.
  next_digit u H. next_digit u H. next_digit u H. next_digit u H.
  destruct u; cbn in H; try discriminate H. reflexivity.
Qed.

Lemma year_digits_2026 u rest tail :
  (NilZero.string_of_uint u ++ "-" ++ rest = "2026-" ++ tail)%string ->
  u = D2 (D0 (D2 (D6 Nil))).
Proof.
  intros H. unfold NilZero.string_of_uint in H.
  next_digit u H. next_digit u H. next_digit u H. next_digit u H.
  destruct u; cbn in H; try discriminate H. reflexivity.
Qed.

Lemma string_of_Z_year y rest tail :
  ((string_of_Z y ++ "-" ++ rest = "2025-" ++ tail)%string -> y = 2025)
  /\ ((string_of_Z y ++ "-" ++ rest = "2026-" ++ tail)%string -> y = 2026).
Proof.
  unfold string_of_Z. rewrite <- (DecimalZ.of_to y) at 2 4.
  destruct (Z.to_int y) as [u|u]; cbn [NilZero.string_of_int].
  - split; intros H.
    + now rewrite (year_digits_2025 _ _ _ H).
    + now rewrite (year_digits_2026 _ _ _ H).
  - split; intros H; cbn in H; discriminate H.
Qed.

Lemma holiday_prefix h :
  In h NSE_HOLIDAYS ->
  exists tail, (h = "2025-" ++ tail \/ h = "2026-" ++ tail)%string.
Proof.
  unfold NSE_HOLIDAYS. intros H.
  repeat (destruct H as [<-|H];
          [eexists; ((left; reflexivity) || (right; reflexivity))|]).
  destruct H.
Qed.

Lemma isNseHoliday_year (t : Date) :
  isNseHoliday t = true -> getFullYear t = 2025 \/ getFullYear t = 2026.
Proof.
  unfold isNseHoliday, set_has. intros H.
  apply existsb_exists in H. destruct H as (h & Hin & Heq).
  apply String.eqb_eq in Heq.
  destruct (holiday_prefix h Hin) as (tail & [Hh|Hh]); rewrite Hh in Heq;
    unfold toISTDateString in Heq;
    match type of Heq with
    | (string_of_Z ?y ++ "-" ++ ?rest ++ ?more)%string = _ =>
        destruct (string_of_Z_year y (rest ++ more)%string tail) as [H25 H26]
    end; auto.
Qed.

Lemma DayFromYear_2025 : DayFromYear 2025 = 20089.
Proof. reflexivity. Qed.
Lemma DayFromYear_2026 : DayFromYear 2026 = 20454.
Proof. reflexivity. Qed.
Lemma DayFromYear_2027 : DayFromYear 2027 = 20819.
Proof. reflexivity. Qed.

Lemma isNseHoliday_days (t : Date) :
  isNseHoliday t = true -> 20089 <= Day t < 20819.
Proof.
  intros H. apply isNseHoliday_year in H.
  unfold getFullYear, YearFromTime in H.
  pose proof (YearFromDay_spec (Day t)) as Hy.
  destruct H as [H|H]; rewrite H in Hy.
  - change (2025 + 1) with 2026 in Hy.
    rewrite DayFromYear_2025, DayFromYear_2026 in Hy. lia.
  - change (2026 + 1) with 2027 in Hy.
    rewrite DayFromYear_2026, DayFromYear_2027 in Hy. lia.
Qed.

Lemma WeekDay_MakeDate d : WeekDay (MakeDate d 0) = (d + 4) mod 7.
Proof. unfold WeekDay. now rewrite Day_MakeDate. Qed.

(** Whether a date is a trading day depends on its calendar day only. *)
Lemma isNseTradingDay_day (t : Date) :
  isNseTradingDay t = isNseTradingDay (MakeDate (Day t) 0).
Proof.
  unfold isNseTradingDay, isNseHoliday, toISTDateString, getDay, getFullYear,
    getMonth, getDate, WeekDay, DateFromTime, MonthFromTime, InLeapYear,
    DayWithinYear, YearFromTime.
  now rewrite Day_MakeDate.
Qed.

Lemma trading_within_14_table_years :
  range_all trading_within_14 20070 760 = true.
Proof. vm_compute. reflexivity. Qed.

Lemma monday_holiday_then_tuesday_table_years :
  range_all monday_holiday_then_tuesday 20080 750 = true.
Proof. vm_compute. reflexivity. Qed.

Lemma not_holiday_outside d :
  d < 20089 \/ 20819 <= d -> isNseHoliday (MakeDate d 0) = false.
Proof.
  intros H. destruct (isNseHoliday (MakeDate d 0)) eqn:E; [|reflexivity].
  apply isNseHoliday_days in E. rewrite Day_MakeDate in E. lia.
Qed.

(** Away from the years of the holiday table, one of the next three days
    is a weekday. *)
Lemma trading_within_14_outside d :
  d < 20070 \/ 20830 <= d -> trading_within_14 d = true.
Proof.
  intros Hd. unfold trading_within_14. apply existsb_exists.
  assert (Hk : exists k, (k < 3)%nat /\ 1 <= (d + Z.of_nat k + 4) mod 7 <= 5).
  { assert (Hm := Z.mod_pos_bound (d + 4) 7 ltac:(lia)).
    destruct (Z.eq_dec ((d + 4) mod 7) 0);
      [exists 1%nat|destruct (Z.eq_dec ((d + 4) mod 7) 6);
                    [exists 2%nat|exists 0%nat]];
      (split; [lia|]); zlia. }
  destruct Hk as (k & Hk & Hw). exists k. split; [apply in_seq; lia|].
  unfold isNseTradingDay, getDay. rewrite WeekDay_MakeDate.
  rewrite not_holiday_outside by lia.
  apply andb_true_intro; split; [|reflexivity].
  apply andb_true_intro; split; apply Z.leb_le; lia.
Qed.

(** Every run of 14 days holds a trading day: the loop of [getNextNseDay]
    never runs out. *)
Lemma trading_within_14_always d : trading_within_14 d = true.
Proof.
  destruct (Z_lt_dec d 20070) as [Hlo|Hlo];
    [apply trading_within_14_outside; lia|].
  destruct (Z_le_dec 20830 d) as [Hhi|Hhi];
    [apply trading_within_14_outside; lia|].
  apply (range_all_spec _ _ _ trading_within_14_table_years). lia.
Qed.

(** Among the indices below [n] that satisfy [P] there is a first one. *)
Lemma first_index (P : nat -> bool) n :
  (exists i, (i < n)%nat /\ P i = true) ->
  exists i, (i < n)%nat /\ P i = true /\
            forall j, (j < i)%nat -> P j = false.
Proof.
  induction n as [|k IH]; intros (i & Hi & HP); [lia|].
  destruct (existsb P (seq 0 k)) eqn:E.
  - apply existsb_exists in E. destruct E as (i' & Hin & HP').
    apply in_seq in Hin.
    destruct IH as (i0 & Hi0 & HP0 & Hfirst); [exists i'; split; [lia|assumption]|].
    exists i0. repeat split; [lia|assumption|assumption].
  - assert (Hnone : forall j, (j < k)%nat -> P j = false).
    { intros j Hj. destruct (P j) eqn:Ej; [|reflexivity].
      assert (existsb P (seq 0 k) = true)
        by (apply existsb_exists; exists j; split; [apply in_seq; lia|assumption]).
      congruence. }
    exists k. repeat split; [lia| |assumption].
    destruct (Nat.eq_dec i k) as [<-|]; [assumption|].
    rewrite Hnone in HP by lia. discriminate.
Qed.

Lemma getNextNseDay_loop_first fuel : forall d k,
  (k < fuel)%nat ->
  isNseTradingDay (MakeDate (d + Z.of_nat k) 0) = true ->
  (forall j, (j < k)%nat -> isNseTradingDay (MakeDate (d + Z.of_nat j) 0) = false) ->
  getNextNseDay_loop fuel (MakeDate d 0) = MakeDate (d + Z.of_nat k) 0.
Proof.
  induction fuel as [|fuel IH]; intros d k Hk Ht Hfirst; [lia|].
  cbn [getNextNseDay_loop]. destruct k as [|k].
  - rewrite Z.add_0_r in Ht. rewrite Ht. now rewrite Z.add_0_r.
  - assert (H0 := Hfirst 0%nat ltac:(lia)). rewrite Z.add_0_r in H0. rewrite H0.
    rewrite setDate_succ.
    replace (MakeDate d 0 + msPerDay) with (MakeDate (d + 1) 0)
      by (unfold MakeDate; lia).
    replace (d + Z.of_nat (S k)) with (d + 1 + Z.of_nat k) in * by lia.
    apply IH; [lia|assumption|].
    intros j Hj. specialize (Hfirst (S j) ltac:(lia)).
    now replace (d + Z.of_nat (S j)) with (d + 1 + Z.of_nat j) in Hfirst by lia.
Qed.

Lemma getNextNseDay_start (now : Date) :
  setHours0 (setDate now (getDate now + 1)) = MakeDate (Day now + 1) 0.
Proof.
  rewrite setDate_succ. unfold setHours0. f_equal.
  unfold Day, msPerDay. zlia.
Qed.

(** C7.  For a reading [now] of the clock, [getNextNseDay] returns a date
    (never an invalid one): midnight of the first calendar day strictly
    after the day of [now] that is a weekday (Monday to Friday) and not in
    the NSE holiday table.  It is never the day of [now] itself, and no
    trading day lies in between.  On a Friday whose following Monday is a
    holiday it returns the Tuesday after. *)
Theorem getNextNseDay_first_trading_day (now : Date) :
  clock_reading now ->
  TimeClip (getNextNseDay now) = Some (getNextNseDay now)
  /\ Day now < Day (getNextNseDay now)
  /\ TimeWithinDay (getNextNseDay now) = 0
  /\ 1 <= getDay (getNextNseDay now) <= 5
  /\ isNseHoliday (getNextNseDay now) = false
  /\ (forall t, Day now < Day t < Day (getNextNseDay now) ->
                isNseTradingDay t = false)
  /\ (getDay now = 5 ->
      isNseHoliday (MakeDate (Day now + 3) 0) = true ->
      getNextNseDay now = MakeDate (Day now + 4) 0
      /\ getDay (getNextNseDay now) = 2).
Proof.
  intros Hrange.
  unfold getNextNseDay. rewrite getNextNseDay_start.
  set (d0 := Day now + 1).
  pose proof (trading_within_14_always d0) as H14.
  unfold trading_within_14 in H14. apply existsb_exists in H14.
  destruct H14 as (k0 & Hin & Hk0). apply in_seq in Hin.
  destruct (first_index (fun k => isNseTradingDay (MakeDate (d0 + Z.of_nat k) 0)) 14)
    as (k & Hk & Ht & Hfirst); [exists k0; split; [lia|assumption]|].
  rewrite (getNextNseDay_loop_first 14 d0 k Hk Ht Hfirst).
  rewrite Day_MakeDate.
  assert (Ht' := Ht). unfold isNseTradingDay in Ht'.
  apply andb_prop in Ht'. destruct Ht' as [Hw Hh].
  apply andb_prop in Hw. destruct Hw as [Hw1 Hw2].
  apply Z.leb_le in Hw1, Hw2. apply negb_true_iff in Hh.
  split.
  { unfold TimeClip.
    replace (Z.abs (MakeDate (d0 + Z.of_nat k) 0) <=? 8640000000000000) with true;
      [reflexivity|].
    symmetry. apply Z.leb_le.
    unfold clock_reading in Hrange. unfold d0, MakeDate, Day, msPerDay in *. zlia. }
  split; [unfold d0; lia|].
  split; [unfold TimeWithinDay, MakeDate, msPerDay; rewrite Z.add_0_r;
          now apply Z.mod_mul|].
  split; [split; assumption|].
  split; [assumption|].
  split.
  - intros t Hd. rewrite isNseTradingDay_day.
    replace (Day t) with (d0 + Z.of_nat (Z.to_nat (Day t - d0)))
      by (unfold d0 in *; lia).
    apply Hfirst. unfold d0 in *. lia.
  - intros Hfri Hmon. unfold getDay, WeekDay in Hfri.
    assert (Hd3 : 20089 <= Day now + 3 < 20819).
    { apply isNseHoliday_days in Hmon. now rewrite Day_MakeDate in Hmon. }
    assert (Htue : isNseHoliday (MakeDate (Day now + 4) 0) = false).
    { pose proof (range_all_spec _ _ _ monday_holiday_then_tuesday_table_years
                                 (Day now + 3) ltac:(lia)) as Hc.
      unfold monday_holiday_then_tuesday in Hc.
      rewrite Hmon, WeekDay_MakeDate in Hc.
      replace ((Day now + 3 + 4) mod 7 =? 1) with true in Hc
        by (symmetry; apply Z.eqb_eq; zlia).
      cbn in Hc. apply negb_true_iff in Hc.
      now replace (Day now + 3 + 1) with (Day now + 4) in Hc by lia. }
    unfold getDay in *. rewrite WeekDay_MakeDate in *.
    assert (E : k = 3%nat).
    { destruct (Nat.lt_trichotomy k 3) as [Hlt|[Heq|Hgt]]; [|assumption|].
      - exfalso. unfold d0 in Hw1, Hw2, Hh.
        destruct k as [|[|[|k]]]; [| | |lia].
        + zlia.
        + zlia.
        + replace (Day now + 1 + Z.of_nat 2) with (Day now + 3) in Hh by lia.
          congruence.
      - exfalso. specialize (Hfirst 3%nat Hgt).
        unfold isNseTradingDay, getDay in Hfirst.
        rewrite WeekDay_MakeDate in Hfirst.
        unfold d0 in Hfirst.
        replace (Day now + 1 + Z.of_nat 3) with (Day now + 4) in Hfirst by lia.
        rewrite Htue in Hfirst.
        replace (1 <=? (Day now + 4 + 4) mod 7) with true in Hfirst
          by (symmetry; apply Z.leb_le; zlia).
        replace ((Day now + 4 + 4) mod 7 <=? 5) with true in Hfirst
          by (symmetry; apply Z.leb_le; zlia).
        discriminate. }
    subst k. unfold d0. split; [f_equal; lia | zlia].
Qed.

Lemma getNextNseDay_first_trading_day_witness :
  getNextNseDay (MakeDate 20476 56700000)
  = MakeDate (Day (MakeDate 20476 56700000) + 4) 0
  /\ getDay (getNextNseDay (MakeDate 20476 56700000)) = 2.
Proof.
  assert (Hr : clock_reading (MakeDate 20476 56700000))
    by (unfold clock_reading, MakeDate, msPerDay; lia).
  destruct (getNextNseDay_first_trading_day (MakeDate 20476 56700000) Hr)
    as (_ & _ & _ & _ & _ & _ & H).
  apply H; vm_compute; reflexivity.
Defined.

(** Friday 23 January 2026, 15:45: Monday the 26th is Republic Day, and
    the next trading day is Tuesday the 27th. *)
Example getNextNseDay_republic_day :
  toISTDateString (MakeDate 20476 56700000) = "2026-01-23"%string
  /\ toISTDateString (getNextNseDay (MakeDate 20476 56700000)) = "2026-01-27"%string.
Proof. split; vm_compute; reflexivity. Qed.

(** ** The prediction section *)

(** C8.  On a Saturday or Sunday, at any time of day and whatever the
    clock reads later in the tick, [updatePredictionSection] puts the
    section in its locked, not-a-trading-day state: the banner is shown
    with the calendar icon and the message that NSE is closed today and
    that the prediction comes on the next trading day, which it names; the
    prediction cards are hidden. *)
Theorem updatePredictionSection_weekend
        (fmtDateShort : Date -> string) (ist now1 now2 now3 : Date)
        (dom : PredictionDom) (banner cards : Elem) :
  predictionBanner dom = Some banner ->
  predictionCards dom = Some cards ->
  getDay ist = 6 \/ getDay ist = 0 ->
  predictionBanner (updatePredictionSection fmtDateShort ist now1 now2 now3 dom)
  = Some (mkElem "prediction-banner banner-locked"
                 ("<i class=" ++ String "034" "fa-solid fa-calendar-xmark"
                  ++ String "034" "></i> NSE is closed today — prediction will be available on the next trading day (<strong>"
                  ++ fmtDateShort (getNextNseDay now1) ++ "</strong>)")
                 "flex")
  /\ predictionCards (updatePredictionSection fmtDateShort ist now1 now2 now3 dom)
     = Some (mkElem (className cards) (content cards) "none")
  /\ priceWraps (updatePredictionSection fmtDateShort ist now1 now2 now3 dom)
     = priceWraps dom.
Proof.
  intros Hb Hc Hdow. unfold updatePredictionSection. rewrite Hb, Hc.
  assert (Hwk : (1 <=? getDay ist) && (getDay ist <=? 5) = false)
    by (destruct Hdow as [-> | ->]; reflexivity).
  rewrite Hwk.
  cbn [andb negb orb predictionBanner predictionCards priceWraps].
  repeat split.
Qed.

Lemma updatePredictionSection_weekend_witness :
  predictionBanner
    (updatePredictionSection (fun _ => "Mon, 26 Jan"%string)
       (MakeDate 20477 40000000) (MakeDate 20477 40000000)
       (MakeDate 20477 40000000) (MakeDate 20477 40000000)
       (mkDom (Some (mkElem EmptyString EmptyString EmptyString))
              (Some (mkElem "prediction-grid" EmptyString "grid")) None []))
  = Some (mkElem "prediction-banner banner-locked"
            ("<i class=" ++ String "034" "fa-solid fa-calendar-xmark"
             ++ String "034" "></i> NSE is closed today — prediction will be available on the next trading day (<strong>Mon, 26 Jan</strong>)")
            "flex")
  /\ predictionCards
       (updatePredictionSection (fun _ => "Mon, 26 Jan"%string)
          (MakeDate 20477 40000000) (MakeDate 20477 40000000)
          (MakeDate 20477 40000000) (MakeDate 20477 40000000)
          (mkDom (Some (mkElem EmptyString EmptyString EmptyString))
                 (Some (mkElem "prediction-grid" EmptyString "grid")) None []))
     = Some (mkElem "prediction-grid" EmptyString "none")
  /\ priceWraps
       (updatePredictionSection (fun _ => "Mon, 26 Jan"%string)
          (MakeDate 20477 40000000) (MakeDate 20477 40000000)
          (MakeDate 20477 40000000) (MakeDate 20477 40000000)
          (mkDom (Some (mkElem EmptyString EmptyString EmptyString))
                 (Some (mkElem "prediction-grid" EmptyString "grid")) None []))
     = [].
Proof.
  apply (updatePredictionSection_weekend (fun _ => "Mon, 26 Jan"%string)
           (MakeDate 20477 40000000) (MakeDate 20477 40000000)
           (MakeDate 20477 40000000) (MakeDate 20477 40000000)
           (mkDom (Some (mkElem EmptyString EmptyString EmptyString))
                  (Some (mkElem "prediction-grid" EmptyString "grid")) None [])
           (mkElem EmptyString EmptyString EmptyString)
           (mkElem "prediction-grid" EmptyString "grid"));
    [reflexivity | reflexivity | left; vm_compute; reflexivity].
Defined.

(** * Further properties of the code *)

(** ** Anchor search and series helpers *)

Lemma findAnchor1530_loop_sound ts cl n : forall b m,
  (n <= List.length ts)%nat ->
  scan_state ts cl b m ->
  findAnchor1530_loop ts cl n b m = JNull
  \/ exists i, (i < List.length ts)%nat /\ closer_than 30 ts cl i = true
               /\ findAnchor1530_loop ts cl n b m = js_nth cl i.
Proof.
  induction n as [|k IH]; intros b m Hn Hst.
  - cbn. destruct Hst as [[-> _]|(i & -> & Hi & Hv & Hd & Hm)].
    + now left.
    + right. exists i. rewrite Nat2Z.id.
      replace (Z.of_nat i =? -1) with false by (symmetry; apply Z.eqb_neq; lia).
      repeat split; [assumption|].
      unfold closer_than. rewrite Hv, Hd. cbn. now apply Z.ltb_lt.
  - cbn [findAnchor1530_loop].
    destruct (is_nullish (js_nth cl k)) eqn:Ev; [apply IH; [lia|assumption]|].
    destruct (candleDiff (nth k ts 0)) as [d|] eqn:Ed; [|apply IH; [lia|assumption]].
    assert (Hm30 : m <= 30)
      by (destruct Hst as [[_ ->]|(i & _ & _ & _ & _ & Hm)]; lia).
    destruct (d <=? 5) eqn:E5.
    + right. exists k. apply Z.leb_le in E5. repeat split; [lia|].
      unfold closer_than, valid_sample. rewrite Ev, Ed. cbn.
      apply Z.ltb_lt. lia.
    + destruct (d <? m) eqn:Em; [|apply IH; [lia|assumption]].
      apply Z.ltb_lt in Em. apply IH; [lia|].
      right. exists k. repeat split; try lia.
      * unfold valid_sample. now rewrite Ev.
      * assumption.
Qed.

(** X1. [findAnchor1530] returns either [null] or the close of a sample of
    the series whose close is neither [null] nor [undefined] and that is
    closer than 30 minutes to the cutoff: a sample outside the window, an
    index past the timestamps, [undefined] or a [null] close is never
    returned as an anchor.  The scan does not test a close for [NaN]: a
    [NaN] close inside the window is returned like a price. *)
Theorem findAnchor1530_sound (timestamps : list Z) (closes : list jsval) :
  (findAnchor1530 timestamps closes = JNull
   \/ exists i, (i < List.length timestamps)%nat
                /\ closer_than 30 timestamps closes i = true
                /\ findAnchor1530 timestamps closes = js_nth closes i
                /\ is_nullish (findAnchor1530 timestamps closes) = false)
  /\ (forall t d, candleDiff t = Some d -> d < 30 ->
        findAnchor1530 [t] [JNum nan] = JNum nan).
Proof.
  split.
  2:{ intros t d Hd Hlt. unfold findAnchor1530.
      cbn [List.length findAnchor1530_loop js_nth nth is_nullish].
      rewrite Hd. destruct (d <=? 5); [reflexivity|].
      apply Z.ltb_lt in Hlt. rewrite Hlt. reflexivity. }
  unfold findAnchor1530.
  destruct (findAnchor1530_loop_sound timestamps closes (List.length timestamps)
              (-1) 30 (Nat.le_refl _)) as [H|(i & Hi & Hc & H)].
  - left. now split.
  - now left.
  - right. exists i. repeat split; try assumption.
    rewrite H. unfold closer_than, valid_sample in Hc.
    apply andb_prop in Hc. destruct Hc as [Hv _]. now apply negb_true_iff in Hv.
Qed.

Lemma findAnchor1530_closest_in_window_witness :
  findAnchor1530 [1769076600; 1769163600; 1769167200] [JNum 4100; JNum 4200; JNum 4300]
  = js_nth [JNum 4100; JNum 4200; JNum 4300] 0.
Proof.
  apply (findAnchor1530_closest_in_window
           [1769076600; 1769163600; 1769167200] [JNum 4100; JNum 4200; JNum 4300]
           0%nat 10).
  - simpl; lia.
  - reflexivity.
  - reflexivity.
  - lia.
  - intros j Hj. destruct j as [|[|[|j]]]; [reflexivity | reflexivity | reflexivity |].
    simpl in Hj. lia.
  - intros j dj Hj. lia.
  - intros j dj Hj _ Hd. destruct j as [|[|[|j]]]; [lia| | |simpl in Hj; lia].
    + vm_compute in Hd. injection Hd as <-. lia.
    + vm_compute in Hd. injection Hd as <-. lia.
Defined.

Lemma lastValid_loop_spec arr n :
  (n <= List.length arr)%nat ->
  ((forall i, (i < n)%nat -> valid_close arr i = false)
   /\ lastValid_loop arr n = JNull)
  \/ exists i, (i < n)%nat /\ valid_close arr i = true
               /\ (forall j, (i < j < n)%nat -> valid_close arr j = false)
               /\ lastValid_loop arr n = js_nth arr i.
Proof.
  induction n as [|k IH]; intros Hn.
  - left. split; [intros i Hi; lia | reflexivity].
  - cbn [lastValid_loop]. fold (valid_close arr k).
    destruct (valid_close arr k) eqn:Ek.
    + right. exists k. repeat split; [lia|assumption|intros j Hj; lia].
    + destruct IH as [[Hnone Hres]|(i & Hi & Hv & Hlast & Hres)]; [lia| |].
      * left. split; [|assumption]. intros i Hi.
        destruct (Nat.eq_dec i k) as [->|]; [assumption|apply Hnone; lia].
      * right. exists i. repeat split; [lia|assumption| |assumption].
        intros j Hj. destruct (Nat.eq_dec j k) as [->|]; [assumption|apply Hlast; lia].
Qed.

(** X3. [lastValid] returns the last element of the array that is neither
    [null], [undefined] nor [NaN], and [null] when the array has no such
    element (in particular when it is empty). *)
Theorem lastValid_last_valid (arr : list jsval) :
  ((forall i, (i < List.length arr)%nat -> valid_close arr i = false)
   /\ lastValid arr = JNull)
  \/ exists i, (i < List.length arr)%nat /\ valid_close arr i = true
               /\ (forall j, (i < j < List.length arr)%nat -> valid_close arr j = false)
               /\ lastValid arr = js_nth arr i.
Proof. unfold lastValid. apply lastValid_loop_spec. lia. Qed.

(** ** Updates of the store *)

Ltac case_ifs :=
  repeat match goal with
         | |- context [if ?b then _ else _] => destruct b eqn:?
         end.

(** X4. On a chart result that has its [meta] and [indicators.quote[0]]
    objects (what [ChartResult] describes), [processUSD] completes normally
    exactly when the result lets it read the rest of what it needs: a
    current price that is present or a [close] array to take it from, and
    a [timestamp] array together with a [close] array (or an empty
    [timestamp] array).  When it throws, no anchor has been changed, and
    with the scanner as data source the store is left as it was. *)
Theorem processUSD_completion (sym : string) (raw : ChartResult) (s : Store) :
  (snd (processUSD sym raw s) = Normal <->
   (is_nullish (regularMarketPrice (meta raw)) = false \/ quote_close raw <> None)
   /\ exists ts, timestamp raw = Some ts /\ (quote_close raw <> None \/ ts = []))
  /\ (snd (processUSD sym raw s) = TypeError ->
      anchor1530 (xau (fst (processUSD sym raw s))) = anchor1530 (xau s)
      /\ anchor1530 (xag (fst (processUSD sym raw s))) = anchor1530 (xag s)
      /\ (source s <> "yahoo"%string -> fst (processUSD sym raw s) = s)).
Proof.
  unfold processUSD, lastValid_call, findAnchor1530_call.
  destruct (is_nullish (regularMarketPrice (meta raw))) eqn:Ep;
    destruct (quote_close raw) as [cl|] eqn:Ec;
    destruct (timestamp raw) as [[|t ts]|] eqn:Et; cbn [snd fst];
    (split;
     [ split;
       [ intros H;
         first [ discriminate H
               | (split; [first [now left | right; congruence]
                         | eexists; split; [reflexivity
                                           | first [left; congruence | now right]]])
               | (revert H; case_ifs; intros H; cbn in H;
                  first [ discriminate H
                        | (split; [first [now left | right; congruence]
                                  | eexists; split; [reflexivity
                                                    | first [left; congruence | now right]]])])]
       | intros ([H1|H1] & tsx & H2 & [H3|H3]);
         try discriminate; try congruence;
         case_ifs; reflexivity ]
     | intros H; revert H; case_ifs; cbn [snd fst]; intros H;
       try discriminate H;
       (split; [|split]);
       try reflexivity;
       try (unfold upd_usd_obj, upd_xau, upd_xag, set_prev, set_cur;
            case_ifs; reflexivity);
       try (intros Hs; apply String.eqb_neq in Hs; congruence) ]).
Qed.

Lemma processTVItem_anchor it s r :
  anchor1530 (slot r (processTVItem it s)) = anchor1530 (slot r s).
Proof. unfold processTVItem. case_ifs; destruct r; reflexivity. Qed.

Lemma processTVItem_flags it s :
  source (processTVItem it s) = source s
  /\ firstLoad (processTVItem it s) = firstLoad s.
Proof. unfold processTVItem. case_ifs; split; reflexivity. Qed.

Lemma processTVItem_unknown it s :
  known_symbol (item_s it) = false -> processTVItem it s = s.
Proof.
  unfold known_symbol, processTVItem. cbn [existsb]. intros H.
  repeat (apply orb_false_elim in H; destruct H as [? H]).
  repeat match goal with E : String.eqb _ _ = false |- _ => rewrite E; clear E end.
  reflexivity.
Qed.

Lemma processTVItems_keep items : forall st,
  (forall r, anchor1530 (slot r (fold_left (fun st it => processTVItem it st) items st))
             = anchor1530 (slot r st))
  /\ source (fold_left (fun st it => processTVItem it st) items st) = source st
  /\ firstLoad (fold_left (fun st it => processTVItem it st) items st) = firstLoad st.
Proof.
  induction items as [|it items IH]; intros st; cbn [fold_left];
    [repeat split|].
  destruct (IH (processTVItem it st)) as (Ha & Hs & Hf).
  destruct (processTVItem_flags it st) as (Hs' & Hf').
  repeat split.
  - intros r. rewrite Ha. apply processTVItem_anchor.
  - congruence.
  - congruence.
Qed.

Lemma processTVData_keeps res s :
  (forall r, anchor1530 (slot r (processTVData res s)) = anchor1530 (slot r s))
  /\ source (processTVData res s) = source s
  /\ firstLoad (processTVData res s) = firstLoad s.
Proof.
  unfold processTVData. destruct (data res) as [items|].
  - apply processTVItems_keep.
  - repeat split.
Qed.

(** X5. A scanner response never touches an anchor, the data source or the
    first-load flag, whatever it contains; a response without [data], or
    whose entries all carry symbols that the code does not know, leaves
    the whole store as it was. *)
Theorem processTVData_frame (res : ScanResponse) (s : Store) :
  (forall r, anchor1530 (slot r (processTVData res s)) = anchor1530 (slot r s))
  /\ source (processTVData res s) = source s
  /\ firstLoad (processTVData res s) = firstLoad s
  /\ (data res = None -> processTVData res s = s)
  /\ (forall items, data res = Some items ->
        forallb (fun it => negb (known_symbol (item_s it))) items = true ->
        processTVData res s = s).
Proof.
  destruct (processTVData_keeps res s) as (Ha & Hs & Hf).
  split; [exact Ha|]. split; [exact Hs|]. split; [exact Hf|].
  clear Ha Hs Hf. unfold processTVData. split.
  - now intros ->.
  - intros items E Hall. rewrite E. clear E.
    revert s. induction items as [|it items IH]; intros s; [reflexivity|].
    cbn [forallb] in Hall. apply andb_prop in Hall. destruct Hall as [H1 H2].
    cbn [fold_left]. rewrite processTVItem_unknown by now apply negb_true_iff.
    now apply IH.
Qed.

Lemma processTVData_frame_witness :
  processTVData (mkScan (Some [mkItem "NSE:NIFTY" [JNum 25000; JNum 1; JNum 250]])) S0
  = S0.
Proof.
  destruct (processTVData_frame
              (mkScan (Some [mkItem "NSE:NIFTY" [JNum 25000; JNum 1; JNum 250]])) S0)
    as (_ & _ & _ & _ & H).
  apply (H [mkItem "NSE:NIFTY" [JNum 25000; JNum 1; JNum 250]]); reflexivity.
Defined.



Lemma processUSD_anchor_kept sym raw s :
  (truthy (anchor1530 (xau s)) = true ->
   truthy (anchor1530 (xau (fst (processUSD sym raw s)))) = true)
  /\ (truthy (anchor1530 (xag s)) = true ->
      truthy (anchor1530 (xag (fst (processUSD sym raw s)))) = true).
Proof.
  unfold processUSD, usd_obj, upd_usd_obj.
  destruct (if is_nullish (regularMarketPrice (meta raw))
            then lastValid_call (quote_close raw)
            else Some (regularMarketPrice (meta raw))); [|now split].
  destruct (findAnchor1530_call (timestamp raw) (quote_close raw)) as [a|].
  - destruct (truthy a) eqn:Ea.
    + destruct (String.eqb (source s) "yahoo"), (String.eqb sym "GC=F");
        cbn; split; auto.
    + destruct (String.eqb (source s) "yahoo"), (String.eqb sym "GC=F"); cbn;
        split; intros H; try rewrite H; cbn; auto;
        case_ifs; cbn; auto.
  - destruct (String.eqb (source s) "yahoo"), (String.eqb sym "GC=F");
      cbn; split; auto.
Qed.

Lemma apply_update_anchor_kept u s :
  (truthy (anchor1530 (xau s)) = true ->
   truthy (anchor1530 (xau (apply_update s u))) = true)
  /\ (truthy (anchor1530 (xag s)) = true ->
      truthy (anchor1530 (xag (apply_update s u))) = true).
Proof.
  destruct u as [res|sym raw|sym raw|raw]; cbn [apply_update].
  - destruct (processTVData_keeps res s) as (Ha & _).
    rewrite (Ha SlotXau : anchor1530 (xau _) = _).
    rewrite (Ha SlotXag : anchor1530 (xag _) = _). now split.
  - apply processUSD_anchor_kept.
  - unfold processBees.
    destruct (if is_nullish (regularMarketPrice (meta raw))
              then lastValid_call (quote_close raw)
              else Some (regularMarketPrice (meta raw))); [|now split].
    destruct (String.eqb sym "GOLDBEES.NS"); now split.
  - now split.
Qed.

(** X7. An anchor is never lost: once the gold (or silver) record holds a
    usable [anchor1530], it holds one after every further call that a
    refresh cycle makes, whatever the responses contain or lack. *)
Theorem anchor_never_lost (us : list Update) (s : Store) :
  (truthy (anchor1530 (xau s)) = true ->
   truthy (anchor1530 (xau (apply_updates us s))) = true)
  /\ (truthy (anchor1530 (xag s)) = true ->
      truthy (anchor1530 (xag (apply_updates us s))) = true).
Proof.
  unfold apply_updates. revert s.
  induction us as [|u us IH]; intros s; [now split|].
  cbn [fold_left]. destruct (IH (apply_update s u)) as [IHau IHag].
  destruct (apply_update_anchor_kept u s) as [Hau Hag]. split; auto.
Qed.

Lemma anchor_never_lost_witness :
  truthy (anchor1530 (xau
    (apply_updates
       [UpUSD "GC=F" (mkChart (mkMeta (JNum 4210) JNull JNull JNull)
                              (Some [1769140800]) (Some [JNum 4205]));
        UpScanner (mkScan (Some [mkItem "TVC:GOLD" [JNum 4212; JNum 0.1; JNum 4]]));
        UpUSD "GC=F" (mkChart (mkMeta JNull JNull JNull JNull) None None)]
       (upd_xau (set_anchor1530 (JNum 4180)) S0)))) = true.
Proof.
  apply (anchor_never_lost
           [UpUSD "GC=F" (mkChart (mkMeta (JNum 4210) JNull JNull JNull)
                                  (Some [1769140800]) (Some [JNum 4205]));
            UpScanner (mkScan (Some [mkItem "TVC:GOLD" [JNum 4212; JNum 0.1; JNum 4]]));
            UpUSD "GC=F" (mkChart (mkMeta JNull JNull JNull JNull) None None)]
           (upd_xau (set_anchor1530 (JNum 4180)) S0)).
  reflexivity.
Defined.

Lemma apply_update_flags u s :
  source (apply_update s u) = source s
  /\ firstLoad (apply_update s u) = firstLoad s.
Proof.
  destruct u as [res|sym raw|sym raw|raw]; cbn [apply_update].
  - destruct (processTVData_keeps res s) as (_ & Hs & Hf). now split.
  - unfold processUSD, upd_usd_obj.
    destruct (if is_nullish (regularMarketPrice (meta raw))
              then lastValid_call (quote_close raw)
              else Some (regularMarketPrice (meta raw))); [|now split].
    destruct (findAnchor1530_call (timestamp raw) (quote_close raw));
      case_ifs; cbn; split; reflexivity.
  - unfold processBees.
    destruct (if is_nullish (regularMarketPrice (meta raw))
              then lastValid_call (quote_close raw)
              else Some (regularMarketPrice (meta raw))); [|now split].
    case_ifs; cbn; split; reflexivity.
  - split; reflexivity.
Qed.

(** X8. No call of a refresh cycle changes the data source or the
    first-load flag.  Starting from the initial store the source therefore
    stays the scanner for ever, and at every store that can be reached
    [processUSD] leaves all displayed [cur] and [prev] values alone: its
    chart-provider branch is never taken. *)
Theorem scanner_stays_the_source (us : list Update) :
  (forall s, source (apply_updates us s) = source s
             /\ firstLoad (apply_updates us s) = firstLoad s)
  /\ source (apply_updates us S0) = "tradingview"%string
  /\ forall sym raw,
       displayed (fst (processUSD sym raw (apply_updates us S0)))
       = displayed (apply_updates us S0).
Proof.
  assert (H : forall s, source (apply_updates us s) = source s
                        /\ firstLoad (apply_updates us s) = firstLoad s).
  { unfold apply_updates. induction us as [|u us IH]; intros s; [now split|].
    cbn [fold_left]. destruct (IH (apply_update s u)) as [Hs Hf].
    destruct (apply_update_flags u s) as [Hs' Hf']. split; congruence. }
  split; [exact H|].
  assert (Hsrc : source (apply_updates us S0) = "tradingview"%string)
    by (now rewrite (proj1 (H S0))).
  split; [exact Hsrc|].
  intros sym raw. now apply displayed_processUSD.
Qed.

Lemma upd_slot_id r s : upd_slot r (fun o => o) s = s.
Proof. destruct s, r; reflexivity. Qed.

Lemma upd_slot_source r f s : source (upd_slot r f s) = source s.
Proof. destruct r; reflexivity. Qed.

Lemma upd_slot_comm r1 r2 f1 f2 s :
  r1 <> r2 ->
  upd_slot r2 f2 (upd_slot r1 f1 s) = upd_slot r1 f1 (upd_slot r2 f2 s).
Proof. destruct r1, r2; intros H; try reflexivity; congruence. Qed.

(** A chart-provider call only rewrites its own record, from that record
    and the data source. *)
Lemma chart_update_local u r :
  chart_target u = Some r ->
  exists f : string -> Quote -> Quote,
    forall s, apply_update s u = upd_slot r (f (source s)) s.
Proof.
  destruct u as [res|sym raw|sym raw|raw]; cbn [chart_target apply_update];
    intros H; [discriminate| | |]; injection H as <-.
  - exists (fun src o =>
      match (if is_nullish (regularMarketPrice (meta raw))
             then lastValid_call (quote_close raw)
             else Some (regularMarketPrice (meta raw))) with
      | None => o
      | Some c =>
          let o1 := if String.eqb src "yahoo"
                    then set_prev (resolvedPrev raw) (set_cur c o) else o in
          match findAnchor1530_call (timestamp raw) (quote_close raw) with
          | None => o1
          | Some a =>
              if truthy a then set_anchor1530 a o1
              else if negb (truthy (anchor1530 o1))
                   then set_anchor1530 (resolvedPrev raw) o1 else o1
          end
      end).
    intros s. unfold processUSD, upd_usd_obj, usd_obj, resolvedPrev.
    destruct s as [fl src au ag ui gb sb am gm]. cbn.
    destruct (if is_nullish (regularMarketPrice (meta raw))
              then lastValid_call (quote_close raw)
              else Some (regularMarketPrice (meta raw)));
      destruct (String.eqb sym "GC=F"),
               (findAnchor1530_call (timestamp raw) (quote_close raw)) as [a|];
      try destruct (truthy a); destruct (String.eqb src "yahoo");
      unfold upd_slot, upd_xau, upd_xag; cbn;
      case_ifs; reflexivity.
  - exists (fun _ o =>
      match (if is_nullish (regularMarketPrice (meta raw))
             then lastValid_call (quote_close raw)
             else Some (regularMarketPrice (meta raw))) with
      | None => o
      | Some c => set_prev (resolvedPrev raw) (set_cur c o)
      end).
    intros s. unfold processBees, resolvedPrev.
    destruct s as [fl src au ag ui gb sb am gm].
    destruct (if is_nullish (regularMarketPrice (meta raw))
              then lastValid_call (quote_close raw)
              else Some (regularMarketPrice (meta raw)));
      destruct (String.eqb sym "GOLDBEES.NS"); reflexivity.
  - exists (fun _ o =>
      set_prev (regularMarketPreviousClose (meta raw) ?? previousClose (meta raw)
                ?? chartPreviousClose (meta raw) ?? JNum 0)
               (set_cur (regularMarketPrice (meta raw) ?? JNum 0) o)).
    intros s. destruct s. reflexivity.
Qed.

Lemma chart_updates_commute u1 u2 r1 r2 s :
  chart_target u1 = Some r1 -> chart_target u2 = Some r2 -> r1 <> r2 ->
  apply_update (apply_update s u1) u2 = apply_update (apply_update s u2) u1.
Proof.
  intros H1 H2 Hne.
  destruct (chart_update_local u1 r1 H1) as (f1 & E1).
  destruct (chart_update_local u2 r2 H2) as (f2 & E2).
  rewrite (E1 s), (E2 s), E1, E2, !upd_slot_source.
  now apply upd_slot_comm.
Qed.

(** X9. The calls that a refresh cycle in chart mode makes for different
    instruments can complete in any order: as long as no two of them work
    on the same record, every order of the same calls leaves the same
    store. *)
Theorem refresh_order_independent (us us' : list Update) (s : Store) :
  Permutation us us' ->
  Forall (fun u => chart_target u <> None) us ->
  NoDup (map chart_target us) ->
  apply_updates us s = apply_updates us' s.
Proof.
  intros Hperm. revert s.
  induction Hperm as [|u l l' Hperm IH|u1 u2 l|l l' l'' H1 IH1 H2 IH2];
    intros s Hall Hnd.
  - reflexivity.
  - unfold apply_updates in *. cbn [fold_left]. apply IH.
    + now inversion Hall.
    + cbn in Hnd. now inversion Hnd.
  - unfold apply_updates. cbn [fold_left]. f_equal.
    inversion Hall as [|? ? Hu2 Hall']. inversion Hall' as [|? ? Hu1 _]. subst.
    cbn in Hnd. inversion Hnd as [|? ? Hnotin _]. subst.
    destruct (chart_target u1) as [r1|] eqn:E1; [|contradiction].
    destruct (chart_target u2) as [r2|] eqn:E2; [|contradiction].
    apply (chart_updates_commute u2 u1 r2 r1); try assumption.
    intros ->. apply Hnotin. now left.
  - rewrite IH1 by assumption. apply IH2.
    + now apply (Permutation_Forall H1).
    + apply (Permutation_NoDup (Permutation_map chart_target H1)). assumption.
Qed.

Lemma refresh_order_independent_witness :
  apply_updates
    [UpUSD "GC=F" (mkChart (mkMeta (JNum 4210) (JNum 4150) JNull JNull)
                           (Some [1769076000]) (Some [JNum 4180]));
     UpForex (mkChart (mkMeta (JNum 88.4) JNull (JNum 88.1) JNull) None None);
     UpBees "GOLDBEES.NS" (mkChart (mkMeta JNull (JNum 101.5) JNull JNull)
                                   (Some [1769076000]) (Some [JNum 102.3; JNull]))]
    S0
  = apply_updates
      [UpBees "GOLDBEES.NS" (mkChart (mkMeta JNull (JNum 101.5) JNull JNull)
                                     (Some [1769076000]) (Some [JNum 102.3; JNull]));
       UpUSD "GC=F" (mkChart (mkMeta (JNum 4210) (JNum 4150) JNull JNull)
                             (Some [1769076000]) (Some [JNum 4180]));
       UpForex (mkChart (mkMeta (JNum 88.4) JNull (JNum 88.1) JNull) None None)]
      S0.
Proof.
  apply refresh_order_independent.
  - eapply perm_trans; [apply perm_skip; apply perm_swap | apply perm_swap].
  - repeat constructor; discriminate.
  - repeat constructor; cbn; intuition discriminate.
Defined.

(** ** The calendar and the prediction gate *)

(** A date is determined by its year, month and day of the month. *)
Lemma Day_MakeDay (t : Date) :
  Day t = MakeDay (getFullYear t) (getMonth t) (getDate t).
Proof.
  unfold MakeDay, getFullYear, getMonth, getDate, DateFromTime, InLeapYear,
    DayWithinYear.
  set (ms := monthStart _ _). lia.
Qed.

Lemma civil_date_eq_Day (a b : Date) :
  getDate a = getDate b -> getMonth a = getMonth b ->
  getFullYear a = getFullYear b -> Day a = Day b.
Proof. intros Hd Hm Hy. rewrite (Day_MakeDay a), (Day_MakeDay b). congruence. Qed.

(** The result of [getNextNseDay]: midnight of the first trading day among
    the 14 days that follow the day of [now]. *)
Lemma getNextNseDay_shape (now : Date) :
  exists k, (k < 14)%nat
    /\ getNextNseDay now = MakeDate (Day now + 1 + Z.of_nat k) 0
    /\ isNseTradingDay (MakeDate (Day now + 1 + Z.of_nat k) 0) = true
    /\ forall j, (j < k)%nat ->
         isNseTradingDay (MakeDate (Day now + 1 + Z.of_nat j) 0) = false.
Proof.
  unfold getNextNseDay. rewrite getNextNseDay_start.
  pose proof (trading_within_14_always (Day now + 1)) as H14.
  unfold trading_within_14 in H14. apply existsb_exists in H14.
  destruct H14 as (k0 & Hin & Hk0). apply in_seq in Hin.
  destruct (first_index
              (fun k => isNseTradingDay (MakeDate (Day now + 1 + Z.of_nat k) 0)) 14)
    as (k & Hk & Ht & Hfirst); [exists k0; split; [lia|assumption]|].
  exists k. repeat split; try assumption.
  now apply getNextNseDay_loop_first.
Qed.

Lemma isTomorrowNseOpen_same_day (now now' : Date) :
  Day now' = Day now ->
  isTomorrowNseOpen now now' = isNseTradingDay (MakeDate (Day now + 1) 0).
Proof.
  intros Hday. unfold isTomorrowNseOpen. rewrite getNextNseDay_start.
  destruct (getNextNseDay_shape now') as (k & _ & -> & Ht & Hfirst).
  rewrite Hday in *. destruct k as [|k].
  - rewrite Z.add_0_r in *. rewrite Ht, !Z.eqb_refl. reflexivity.
  - assert (H0 := Hfirst 0%nat ltac:(lia)). rewrite Z.add_0_r in H0. rewrite H0.
    destruct ((getDate (MakeDate (Day now + 1 + Z.of_nat (S k)) 0)
               =? getDate (MakeDate (Day now + 1) 0))
              && (getMonth (MakeDate (Day now + 1 + Z.of_nat (S k)) 0)
                  =? getMonth (MakeDate (Day now + 1) 0))
              && (getFullYear (MakeDate (Day now + 1 + Z.of_nat (S k)) 0)
                  =? getFullYear (MakeDate (Day now + 1) 0))) eqn:E;
      [|reflexivity].
    apply andb_prop in E. destruct E as [E Ey].
    apply andb_prop in E. destruct E as [Ed Em].
    apply Z.eqb_eq in Ed, Em, Ey.
    pose proof (civil_date_eq_Day _ _ Ed Em Ey) as Heq.
    rewrite !Day_MakeDate in Heq. lia.
Qed.

(** X10. [isTomorrowNseOpen], when its two clock readings fall on the same
    calendar day, answers exactly whether the day after is a trading day: a
    weekday that is not in the holiday table. *)
Theorem isTomorrowNseOpen_iff_trading (now now' : Date) :
  Day now' = Day now ->
  isTomorrowNseOpen now now' = isNseTradingDay (MakeDate (Day now + 1) 0).
Proof. apply isTomorrowNseOpen_same_day. Qed.

Lemma isTomorrowNseOpen_iff_trading_witness :
  isTomorrowNseOpen (MakeDate 20476 56700000) (MakeDate 20476 56700001)
  = isNseTradingDay (MakeDate (Day (MakeDate 20476 56700000) + 1) 0).
Proof.
  apply (isTomorrowNseOpen_iff_trading (MakeDate 20476 56700000)
                                       (MakeDate 20476 56700001)).
  vm_compute. reflexivity.
Defined.

Lemma trading_within_4_table_years :
  range_all trading_within_4 20070 760 = true.
Proof. vm_compute. reflexivity. Qed.

Lemma trading_within_4_always d : trading_within_4 d = true.
Proof.
  destruct (Z_lt_dec d 20070) as [Hlo|Hlo];
    [|destruct (Z_le_dec 20830 d) as [Hhi|Hhi]];
    [| |apply (range_all_spec _ _ _ trading_within_4_table_years); lia].
  - unfold trading_within_4. apply existsb_exists.
    assert (Hk : exists k, (k < 3)%nat /\ 1 <= (d + Z.of_nat k + 4) mod 7 <= 5).
    { assert (Hm := Z.mod_pos_bound (d + 4) 7 ltac:(lia)).
      destruct (Z.eq_dec ((d + 4) mod 7) 0);
        [exists 1%nat|destruct (Z.eq_dec ((d + 4) mod 7) 6);
                      [exists 2%nat|exists 0%nat]];
        (split; [lia|]); zlia. }
    destruct Hk as (k & Hk & Hw). exists k. split; [apply in_seq; lia|].
    unfold isNseTradingDay, getDay. rewrite WeekDay_MakeDate.
    rewrite not_holiday_outside by lia.
    apply andb_true_intro; split; [|reflexivity].
    apply andb_true_intro; split; apply Z.leb_le; lia.
  - unfold trading_within_4. apply existsb_exists.
    assert (Hk : exists k, (k < 3)%nat /\ 1 <= (d + Z.of_nat k + 4) mod 7 <= 5).
    { assert (Hm := Z.mod_pos_bound (d + 4) 7 ltac:(lia)).
      destruct (Z.eq_dec ((d + 4) mod 7) 0);
        [exists 1%nat|destruct (Z.eq_dec ((d + 4) mod 7) 6);
                      [exists 2%nat|exists 0%nat]];
        (split; [lia|]); zlia. }
    destruct Hk as (k & Hk & Hw). exists k. split; [apply in_seq; lia|].
    unfold isNseTradingDay, getDay. rewrite WeekDay_MakeDate.
    rewrite not_holiday_outside by lia.
    apply andb_true_intro; split; [|reflexivity].
    apply andb_true_intro; split; apply Z.leb_le; lia.
Qed.

(** X11. For a reading of the clock, the next trading day is never more
    than four days ahead, so the 14-iteration cap of the search is far
    from being reached and no date that the search sets leaves the range of
    [Date]; and the result depends on the calendar day of the clock reading
    only, not on the time of day. *)
Theorem getNextNseDay_within_four_days (now now' : Date) :
  clock_reading now ->
  Day now < Day (getNextNseDay now) <= Day now + 4
  /\ Z.abs (getNextNseDay now) <= 8640000000000000
  /\ (Day now' = Day now -> getNextNseDay now' = getNextNseDay now).
Proof.
  intros Hrange.
  assert (H4d : Day now < Day (getNextNseDay now) <= Day now + 4
                /\ TimeWithinDay (getNextNseDay now) = 0).
  { destruct (getNextNseDay_shape now) as (k & Hk & -> & Ht & Hfirst).
    rewrite Day_MakeDate.
    pose proof (trading_within_4_always (Day now + 1)) as H4.
    unfold trading_within_4 in H4. apply existsb_exists in H4.
    destruct H4 as (j & Hin & Hj). apply in_seq in Hin.
    split.
    - destruct (Nat.lt_ge_cases j k) as [Hlt|Hge].
      + rewrite (Hfirst j Hlt) in Hj. discriminate.
      + lia.
    - unfold TimeWithinDay, MakeDate, msPerDay. rewrite Z.add_0_r.
      now apply Z.mod_mul. }
  split; [apply H4d|]. split.
  { destruct H4d as [Hd Ht]. unfold clock_reading in Hrange.
    generalize dependent (getNextNseDay now). intros r Hd Ht.
    unfold Day, TimeWithinDay, msPerDay in *. zlia. }
  intros Hday. unfold getNextNseDay. now rewrite !getNextNseDay_start, Hday.
Qed.

Lemma getNextNseDay_within_four_days_witness :
  getNextNseDay (MakeDate 20560 1000) = getNextNseDay (MakeDate 20560 80000000).
Proof.
  apply (getNextNseDay_within_four_days (MakeDate 20560 80000000)
                                        (MakeDate 20560 1000)).
  - unfold clock_reading, MakeDate, msPerDay. lia.
  - vm_compute. reflexivity.
Defined.

(** X12. With the banner and the cards in the page and all clock readings
    of the tick on one calendar day, the call displays the prediction cards
    exactly on a trading day from 15:30 on and hides them otherwise; it
    hides the banner (the full prediction is shown) exactly when, in
    addition, the next day is a trading day.  When it displays the cards it
    sets every expected-price wrap: hidden when the next day is not a
    trading day, shown when it is.  When it hides the cards it leaves the
    wraps as they were, so wraps hidden by an earlier call stay hidden. *)
Theorem prediction_gate (fmtDateShort : Date -> string) (ist now1 now2 now3 : Date)
        (dom : PredictionDom) (banner cards : Elem) :
  predictionBanner dom = Some banner ->
  predictionCards dom = Some cards ->
  Day now2 = Day ist -> Day now3 = Day ist ->
  let dom' := updatePredictionSection fmtDateShort ist now1 now2 now3 dom in
  let afterClose := isNseTradingDay ist
                    && (930 <=? getHours ist * 60 + getMinutes ist) in
  let tomorrow := isNseTradingDay (MakeDate (Day ist + 1) 0) in
  predictionCards dom'
  = Some (mkElem (className cards) (content cards)
                 (if afterClose then "grid" else "none")%string)
  /\ (exists b, predictionBanner dom' = Some b
                /\ display b = (if afterClose && tomorrow then "none" else "flex")%string)
  /\ priceWraps dom'
     = (if afterClose then hideExpectedPrices (negb tomorrow) (priceWraps dom)
        else priceWraps dom).
Proof.
  intros Hb Hc H2 H3 dom' afterClose tomorrow. subst dom' afterClose tomorrow.
  unfold updatePredictionSection. rewrite Hb, Hc.
  rewrite (isTomorrowNseOpen_same_day now2 now3) by congruence.
  rewrite H2. unfold isNseTradingDay.
  set (wk := (1 <=? getDay ist) && (getDay ist <=? 5)).
  set (hol := isNseHoliday ist).
  set (late := 930 <=? getHours ist * 60 + getMinutes ist).
  set (tom := (1 <=? getDay (MakeDate (Day ist + 1) 0))
              && (getDay (MakeDate (Day ist + 1) 0) <=? 5)
              && negb (isNseHoliday (MakeDate (Day ist + 1) 0))).
  destruct wk, hol, late, tom; cbn [andb negb orb predictionBanner predictionCards
                                    priceWraps];
    (split; [reflexivity|split; [eexists; split; reflexivity|reflexivity]]).
Qed.

Lemma prediction_gate_witness :
  predictionCards
    (updatePredictionSection (fun _ => "Tue, 27 Jan"%string)
       (MakeDate 20476 56700000) (MakeDate 20476 56700000)
       (MakeDate 20476 56700000) (MakeDate 20476 56700000)
       (mkDom (Some (mkElem EmptyString EmptyString EmptyString))
              (Some (mkElem "prediction-grid" EmptyString "none")) None
              [mkElem "prediction-price-wrap" EmptyString EmptyString]))
  = Some (mkElem "prediction-grid" EmptyString
                 (if isNseTradingDay (MakeDate 20476 56700000)
                     && (930 <=? getHours (MakeDate 20476 56700000) * 60
                                 + getMinutes (MakeDate 20476 56700000))
                  then "grid"%string else "none"%string)).
Proof.
  apply (prediction_gate (fun _ => "Tue, 27 Jan"%string)
           (MakeDate 20476 56700000) (MakeDate 20476 56700000)
           (MakeDate 20476 56700000) (MakeDate 20476 56700000)
           (mkDom (Some (mkElem EmptyString EmptyString EmptyString))
                  (Some (mkElem "prediction-grid" EmptyString "none")) None
                  [mkElem "prediction-price-wrap" EmptyString EmptyString])
           (mkElem EmptyString EmptyString EmptyString)
           (mkElem "prediction-grid" EmptyString "none"));
    reflexivity.
Defined.

(** ** Market status and live dots *)

Lemma getDay_range (d : Date) : 0 <= getDay d <= 6.
Proof.
  unfold getDay, WeekDay.
  pose proof (Z.mod_pos_bound (Day d + 4) 7 ltac:(lia)). lia.
Qed.

Lemma weekday_not_weekend (d : Date) :
  (1 <=? getDay d) && (getDay d <=? 5) = negb ((getDay d =? 0) || (getDay d =? 6)).
Proof.
  pose proof (getDay_range d) as H.
  destruct (getDay d =? 0) eqn:E0; [apply Z.eqb_eq in E0; rewrite E0; reflexivity|].
  destruct (getDay d =? 6) eqn:E6; [apply Z.eqb_eq in E6; rewrite E6; reflexivity|].
  apply Z.eqb_neq in E0, E6. cbn.
  apply andb_true_intro; split; apply Z.leb_le; lia.
Qed.

(** X13. The status line and the BeES dot agree with [isNseOpen]: with the
    status element in the page, [updateNseStatus] completes, shows class
    [open] (and the "Open" text) exactly when [isNseOpen] holds at that
    instant, and sets the BeES dot active exactly then. *)
Theorem nse_status_agrees_with_isNseOpen (ist : Date) (dom : StatusDom) (el : Elem) :
  nseStatus dom = Some el ->
  snd (updateNseStatus ist dom) = Normal
  /\ (exists el', nseStatus (fst (updateNseStatus ist dom)) = Some el'
        /\ (className el' = "open"%string <-> isNseOpen ist = true)
        /\ (content el' = "NSE: Open 🟢"%string <-> isNseOpen ist = true))
  /\ dotBees (fst (updateNseStatus ist dom)) = setDot (dotBees dom) (isNseOpen ist).
Proof.
  intros Hel. unfold updateNseStatus, isNseOpen. rewrite Hel.
  pose proof (weekday_not_weekend ist) as Hwk.
  set (min := getHours ist * 60 + getMinutes ist) in *.
  destruct ((getDay ist =? 0) || (getDay ist =? 6)) eqn:Ewe.
  - cbn [fst snd updateLiveDots nseStatus dotBees]. rewrite Hwk.
    split; [reflexivity|]. split; [|reflexivity].
    eexists. split; [reflexivity|]. cbn. split; split; discriminate.
  - destruct (isNseHoliday ist) eqn:Eh.
    + cbn [fst snd updateLiveDots nseStatus dotBees]. rewrite Hwk.
      split; [reflexivity|]. split; [|reflexivity].
      eexists. split; [reflexivity|]. cbn. split; split; discriminate.
    + destruct (min <? 540) eqn:E1; [|destruct (min <? 555) eqn:E2;
                                      [|destruct (min <? 930) eqn:E3]];
        cbn [fst snd updateLiveDots nseStatus dotBees]; rewrite Hwk;
        cbn [negb andb]; rewrite ?E1, ?E2, ?E3;
        (split; [reflexivity|]);
        (split; [eexists; split; [reflexivity|]; cbn [className content]|]).
      * replace ((555 <=? min) && (min <? 930)) with false
          by (symmetry; apply andb_false_intro1; apply Z.leb_gt;
              apply Z.ltb_lt in E1; lia).
        split; split; discriminate.
      * replace ((555 <=? min) && (min <? 930)) with false
          by (symmetry; apply andb_false_intro1; apply Z.leb_gt;
              apply Z.ltb_lt in E1; lia).
        reflexivity.
      * replace ((555 <=? min) && (min <? 930)) with false
          by (symmetry; apply andb_false_intro1; apply Z.leb_gt;
              apply Z.ltb_lt in E2; lia).
        split; split; discriminate.
      * replace ((555 <=? min) && (min <? 930)) with false
          by (symmetry; apply andb_false_intro1; apply Z.leb_gt;
              apply Z.ltb_lt in E2; lia).
        reflexivity.
      * replace (555 <=? min) with true
          by (symmetry; apply Z.leb_le; apply Z.ltb_ge in E2; lia).
        cbn. split; split; reflexivity.
      * replace (555 <=? min) with true
          by (symmetry; apply Z.leb_le; apply Z.ltb_ge in E2; lia).
        reflexivity.
      * rewrite andb_false_r. split; split; discriminate.
      * rewrite andb_false_r. reflexivity.
Qed.

Lemma nse_status_agrees_with_isNseOpen_witness :
  dotBees (fst (updateNseStatus (MakeDate 20475 36000000)
                  (mkStatusDom (Some (mkElem EmptyString EmptyString EmptyString))
                               None None (Some (mkDot false true)) None)))
  = setDot (Some (mkDot false true)) (isNseOpen (MakeDate 20475 36000000)).
Proof.
  apply (nse_status_agrees_with_isNseOpen (MakeDate 20475 36000000)
           (mkStatusDom (Some (mkElem EmptyString EmptyString EmptyString))
                        None None (Some (mkDot false true)) None)
           (mkElem EmptyString EmptyString EmptyString)).
  reflexivity.
Defined.

Lemma setDot_some el b d : setDot el b = Some d -> d = mkDot b (negb b).
Proof. destruct el; cbn; congruence. Qed.

(** X14. The live dots are nested as the sessions are: whenever the BeES
    dot is active so is the MCX dot, whenever the MCX or the prediction dot
    is active so is the international dot, the BeES and the prediction dot
    are never active together, and every dot carries exactly one of the
    classes [active] and [inactive]. *)
Theorem live_dots_nested (minIST dayOfWeek : Z) (isHoliday : bool) (dom : StatusDom)
        (di dm db dp : Dot) :
  dotInternational (updateLiveDots minIST dayOfWeek isHoliday dom) = Some di ->
  dotMcx (updateLiveDots minIST dayOfWeek isHoliday dom) = Some dm ->
  dotBees (updateLiveDots minIST dayOfWeek isHoliday dom) = Some db ->
  dotPrediction (updateLiveDots minIST dayOfWeek isHoliday dom) = Some dp ->
  (dotActive db = true -> dotActive dm = true)
  /\ (dotActive dm = true -> dotActive di = true)
  /\ (dotActive dp = true -> dotActive di = true)
  /\ (dotActive db = true -> dotActive dp = false)
  /\ Forall (fun d => dotInactive d = negb (dotActive d)) [di; dm; db; dp].
Proof.
  unfold updateLiveDots. cbn [dotInternational dotMcx dotBees dotPrediction].
  intros Hi Hm Hb Hp.
  apply setDot_some in Hi, Hm, Hb, Hp. subst di dm db dp.
  cbn [dotActive dotInactive].
  set (wk := (1 <=? dayOfWeek) && (dayOfWeek <=? 5) && negb isHoliday).
  destruct wk; cbn [andb].
  - destruct (555 <=? minIST) eqn:E555, (minIST <? 930) eqn:E930,
      (540 <=? minIST) eqn:E540, (minIST <? 1410) eqn:E1410,
      (930 <=? minIST) eqn:E930'; cbn;
      repeat split; try congruence; try (repeat constructor);
      intros _; exfalso;
      repeat match goal with
             | H : (_ <=? _) = true |- _ => apply Z.leb_le in H
             | H : (_ <=? _) = false |- _ => apply Z.leb_gt in H
             | H : (_ <? _) = true |- _ => apply Z.ltb_lt in H
             | H : (_ <? _) = false |- _ => apply Z.ltb_ge in H
             end; lia.
  - repeat split; try discriminate. repeat constructor.
Qed.

Lemma live_dots_nested_witness :
  (dotActive (mkDot true false) = true -> dotActive (mkDot true false) = true)
  /\ (dotActive (mkDot true false) = true -> dotActive (mkDot true false) = true)
  /\ (dotActive (mkDot false true) = true -> dotActive (mkDot true false) = true)
  /\ (dotActive (mkDot true false) = true -> dotActive (mkDot false true) = false)
  /\ Forall (fun d => dotInactive d = negb (dotActive d))
            [mkDot true false; mkDot true false; mkDot true false; mkDot false true].
Proof.
  apply (live_dots_nested 600 3 false
           (mkStatusDom None (Some (mkDot false false)) (Some (mkDot false false))
                        (Some (mkDot false false)) (Some (mkDot false false))));
    reflexivity.
Defined.

Lemma updateNseStatus_present ist dom el :
  nseStatus dom = Some el ->
  exists txt cls,
    updateNseStatus ist dom
    = (updateLiveDots (getHours ist * 60 + getMinutes ist) (getDay ist)
         (isNseHoliday ist)
         (mkStatusDom (Some (mkElem cls txt (display el)))
                      (dotInternational dom) (dotMcx dom) (dotBees dom)
                      (dotPrediction dom)),
       Normal).
Proof.
  intros Hel. unfold updateNseStatus. rewrite Hel.
  case_ifs; eexists; eexists; reflexivity.
Qed.

(** X15. Within one clock tick the prediction dot and the prediction
    cards agree: with the clock, the status line, the banner, the cards
    and the dot in the page, the tick completes and leaves the prediction
    dot active exactly when the cards are displayed. *)
Theorem tick_prediction_dot_matches_cards
        (fmtDateShort : Date -> string) (ist now1 now2 now3 : Date) (page : Page)
        (c el banner cards : Elem) (dp : Dot) :
  clock page = Some c ->
  nseStatus (statusDom page) = Some el ->
  dotPrediction (statusDom page) = Some dp ->
  predictionBanner (predictionDom page) = Some banner ->
  predictionCards (predictionDom page) = Some cards ->
  snd (tick fmtDateShort ist now1 now2 now3 page) = Normal
  /\ exists dp' cards',
       dotPrediction (statusDom (fst (tick fmtDateShort ist now1 now2 now3 page)))
       = Some dp'
       /\ predictionCards
            (predictionDom (fst (tick fmtDateShort ist now1 now2 now3 page)))
          = Some cards'
       /\ (dotActive dp' = true <-> display cards' = "grid"%string).
Proof.
  intros Hc Hel Hdp Hb Hcards. unfold tick. rewrite Hc.
  destruct (updateNseStatus_present ist (statusDom page) el Hel) as (txt & cls & ->).
  cbn [fst snd statusDom predictionDom updateLiveDots dotPrediction].
  split; [reflexivity|].
  rewrite Hdp. cbn [setDot].
  unfold updatePredictionSection. rewrite Hb, Hcards.
  set (wk := (1 <=? getDay ist) && (getDay ist <=? 5)).
  set (hol := isNseHoliday ist).
  set (late := 930 <=? getHours ist * 60 + getMinutes ist).
  destruct wk, hol, late; cbn [andb negb orb];
    try (destruct (isTomorrowNseOpen now2 now3); cbn [negb]);
    cbn [predictionCards dotActive];
    (eexists; eexists; split; [reflexivity|split; [reflexivity|]]);
    cbn [display]; split; (reflexivity || discriminate).
Qed.

Lemma tick_prediction_dot_matches_cards_witness :
  snd (tick (fun _ => "Tue, 27 Jan"%string)
         (MakeDate 20476 56700000) (MakeDate 20476 56700000)
         (MakeDate 20476 56700000) (MakeDate 20476 56700000)
         (mkPage (Some (mkElem EmptyString EmptyString EmptyString))
                 (mkStatusDom (Some (mkElem EmptyString EmptyString EmptyString))
                              None None None (Some (mkDot false false)))
                 (mkDom (Some (mkElem EmptyString EmptyString EmptyString))
                        (Some (mkElem "prediction-grid" EmptyString "none"))
                        None [])))
  = Normal.
Proof.
  apply (tick_prediction_dot_matches_cards (fun _ => "Tue, 27 Jan"%string)
           (MakeDate 20476 56700000) (MakeDate 20476 56700000)
           (MakeDate 20476 56700000) (MakeDate 20476 56700000)
           (mkPage (Some (mkElem EmptyString EmptyString EmptyString))
                   (mkStatusDom (Some (mkElem EmptyString EmptyString EmptyString))
                                None None None (Some (mkDot false false)))
                   (mkDom (Some (mkElem EmptyString EmptyString EmptyString))
                          (Some (mkElem "prediction-grid" EmptyString "none"))
                          None []))
           (mkElem EmptyString EmptyString EmptyString)
           (mkElem EmptyString EmptyString EmptyString)
           (mkElem EmptyString EmptyString EmptyString)
           (mkElem "prediction-grid" EmptyString "none")
           (mkDot false false));
    reflexivity.
Defined.

(** ** Date keys *)

Lemma DaysInYear_spec y : DayFromYear (y + 1) - DayFromYear y = DaysInYear y.
Proof.
  unfold DayFromYear, DaysInYear.
  destruct (y mod 4 =? 0) eqn:E4; cbn [negb].
  - destruct (y mod 100 =? 0) eqn:E100; cbn [negb].
    + destruct (y mod 400 =? 0) eqn:E400; cbn [negb];
        [apply Z.eqb_eq in E4, E100, E400 | apply Z.eqb_eq in E4, E100;
                                            apply Z.eqb_neq in E400]; zlia.
    + apply Z.eqb_eq in E4. apply Z.eqb_neq in E100. zlia.
  - apply Z.eqb_neq in E4. zlia.
Qed.

Lemma DayWithinYear_range (t : Date) :
  0 <= DayWithinYear t < 365 + InLeapYear t.
Proof.
  unfold DayWithinYear, InLeapYear, YearFromTime.
  pose proof (YearFromDay_spec (Day t)) as H.
  pose proof (DaysInYear_spec (YearFromDay (Day t))) as Hd.
  assert (Hcases : DaysInYear (YearFromDay (Day t)) = 365
                   \/ DaysInYear (YearFromDay (Day t)) = 366)
    by (unfold DaysInYear; case_ifs; auto).
  destruct Hcases as [E|E]; rewrite E in *; cbn; lia.
Qed.

Lemma getMonth_range (t : Date) : 0 <= getMonth t <= 11.
Proof. unfold getMonth, MonthFromTime. case_ifs; lia. Qed.

Lemma getDate_range (t : Date) : 1 <= getDate t <= 31.
Proof.
  pose proof (DayWithinYear_range t) as H.
  assert (Hl : InLeapYear t = 0 \/ InLeapYear t = 1)
    by (unfold InLeapYear; case_ifs; auto).
  unfold getDate, DateFromTime, MonthFromTime.
  repeat match goal with
         | |- context [if ?b then _ else _] =>
             let E := fresh "E" in
             destruct b eqn:E;
             [apply Z.ltb_lt in E | apply Z.ltb_ge in E]
         end; cbn [monthStart]; lia.
Qed.

Lemma digits_hyphen_inj u : forall u' r r',
  (NilEmpty.string_of_uint u ++ String "-" r
   = NilEmpty.string_of_uint u' ++ String "-" r')%string ->
  u = u' /\ r = r'.
Proof.
  induction u as [|u IH|u IH|u IH|u IH|u IH|u IH|u IH|u IH|u IH|u IH];
    intros u' r r' H; destruct u'; cbn in H; try discriminate H;
    injection H as H;
    try (destruct (IH _ _ _ H) as [-> ->]; now split).
  now split.
Qed.

Lemma string_of_uint_nonempty u :
  NilZero.string_of_uint u = NilEmpty.string_of_uint (nonempty_digits u).
Proof. now destruct u. Qed.

Lemma of_uint_nonempty u : Z.of_uint (nonempty_digits u) = Z.of_uint u.
Proof. now destruct u. Qed.

Lemma nonempty_digits_head u r :
  exists c s, (NilEmpty.string_of_uint (nonempty_digits u) ++ String "-" r
               = String c s)%string /\ c <> "-"%char.
Proof.
  destruct u; cbn; eexists; eexists; (split; [reflexivity|discriminate]).
Qed.

(** A printed integer followed by a hyphen can be read back. *)
Lemma string_of_Z_hyphen_inj y y' r r' :
  (string_of_Z y ++ "-" ++ r = string_of_Z y' ++ "-" ++ r')%string ->
  y = y' /\ r = r'.
Proof.
  unfold string_of_Z.
  pose proof (DecimalZ.of_to y) as Ey. pose proof (DecimalZ.of_to y') as Ey'.
  destruct (Z.to_int y) as [u|u], (Z.to_int y') as [u'|u'];
    cbn [NilZero.string_of_int String.append]; rewrite ?string_of_uint_nonempty;
    intros H; rewrite <- Ey, <- Ey'.
  - apply digits_hyphen_inj in H. destruct H as [Hu ->]. split; [|reflexivity].
    cbn [Z.of_int]. now rewrite <- (of_uint_nonempty u), <- (of_uint_nonempty u'), Hu.
  - exfalso. destruct (nonempty_digits_head u r) as (c & s & E & Hc).
    rewrite E in H. injection H as Hc' _. contradiction.
  - exfalso. destruct (nonempty_digits_head u' r') as (c & s & E & Hc).
    rewrite E in H. injection H as Hc' _. symmetry in Hc'. contradiction.
  - injection H as H.
    apply digits_hyphen_inj in H. destruct H as [Hu ->]. split; [|reflexivity].
    cbn [Z.of_int]. now rewrite <- (of_uint_nonempty u), <- (of_uint_nonempty u'), Hu.
Qed.

Lemma month_day_parts_distinct_ok : month_day_parts_distinct = true.
Proof. vm_compute. reflexivity. Qed.

Lemma month_day_parts_in m d :
  0 <= m <= 11 -> 1 <= d <= 31 -> In (m, d) month_day_parts.
Proof.
  intros Hm Hd. unfold month_day_parts. apply in_flat_map.
  exists (Z.to_nat m). split; [apply in_seq; lia|].
  apply in_map_iff. exists (Z.to_nat d). split; [|apply in_seq; lia].
  f_equal; lia.
Qed.

Lemma month_day_part_inj m d m' d' :
  0 <= m <= 11 -> 1 <= d <= 31 -> 0 <= m' <= 11 -> 1 <= d' <= 31 ->
  month_day_part m d = month_day_part m' d' -> m = m' /\ d = d'.
Proof.
  intros Hm Hd Hm' Hd' E.
  pose proof month_day_parts_distinct_ok as H.
  unfold month_day_parts_distinct in H.
  rewrite forallb_forall in H.
  specialize (H (m, d) (month_day_parts_in m d Hm Hd)).
  rewrite forallb_forall in H.
  specialize (H (m', d') (month_day_parts_in m' d' Hm' Hd')).
  cbn [fst snd] in H. rewrite E, String.eqb_refl in H. cbn in H.
  apply andb_prop in H. destruct H as [H1 H2].
  apply Z.eqb_eq in H1, H2. now split.
Qed.

(** X16. The date key identifies the calendar day: two dates get the same
    [YYYY-MM-DD] string exactly when they lie on the same day, in any
    year.  So the holiday lookup neither confuses two days nor depends on
    the time of day. *)
Theorem toISTDateString_same_day (a b : Date) :
  toISTDateString a = toISTDateString b <-> Day a = Day b.
Proof.
  split.
  - unfold toISTDateString. intros H.
    apply string_of_Z_hyphen_inj in H. destruct H as [Hy H].
    change (month_day_part (getMonth a) (getDate a)
            = month_day_part (getMonth b) (getDate b)) in H.
    apply month_day_part_inj in H;
      try apply getMonth_range; try apply getDate_range.
    destruct H as [Hm Hd]. now apply civil_date_eq_Day.
  - intros H.
    unfold toISTDateString, getFullYear, getMonth, getDate, DateFromTime,
      MonthFromTime, InLeapYear, DayWithinYear, YearFromTime.
    now rewrite H.
Qed.

(** ** Rendering the day change *)

(** A number above zero is not below it, and is at least zero. *)
Lemma float_positive (d : float) :
  PrimFloat.ltb 0 d = true ->
  PrimFloat.ltb d 0 = false /\ PrimFloat.leb 0 d = true.
Proof.
  rewrite !ltb_spec, leb_spec.
  change (Prim2SF 0) with (S754_zero false).
  destruct (Prim2SF d) as [s|s| |s m e]; cbn; try discriminate;
    destruct s; cbn; try discriminate; now split.
Qed.

(** X17. [renderChange] shows nothing new when the current or the previous
    price is zero, [null], missing or [NaN], so it never divides by a zero
    previous close.  Otherwise, on a row that has its caret, it completes,
    and direction is shown consistently: the caret points down exactly when
    the row is classed [down], and a row classed [up] carries the [+]
    prefix. *)
Theorem renderChange_guard_and_direction
        (sink : ChangeSink) (cur prev : jsval) (decimals : Z) :
  (truthy cur = false \/ truthy prev = false ->
   renderChange sink cur prev decimals = (sink, Normal))
  /\ (forall c, caretClassName sink = Some c ->
        truthy cur = true -> truthy prev = true ->
        snd (renderChange sink cur prev decimals) = Normal
        /\ exists caret sgn diff,
             caretClassName (fst (renderChange sink cur prev decimals)) = Some caret
             /\ changeShown (fst (renderChange sink cur prev decimals))
                = Some (sgn, diff, decimals)
             /\ diff = PrimFloat.sub (ToNumber cur) (ToNumber prev)
             /\ (caret = "fa-solid fa-caret-down caret"%string
                 <-> rowClassName (fst (renderChange sink cur prev decimals))
                     = "card-change down"%string)
             /\ (rowClassName (fst (renderChange sink cur prev decimals))
                 = "card-change up"%string -> sgn = "+"%string)).
Proof.
  split.
  - intros H. unfold renderChange.
    destruct H as [-> | ->]; cbn; now rewrite ?orb_true_r.
  - intros c Hc Hcur Hprev. unfold renderChange. rewrite Hcur, Hprev, Hc. cbn [negb orb].
    set (diff := PrimFloat.sub (ToNumber cur) (ToNumber prev)).
    cbn [fst snd caretClassName changeShown rowClassName].
    split; [reflexivity|].
    eexists. eexists. exists diff.
    split; [reflexivity|]. split; [reflexivity|]. split; [reflexivity|].
    destruct (PrimFloat.ltb 0 diff) eqn:Epos.
    + destruct (float_positive diff Epos) as [-> ->]. cbn.
      split; [split; discriminate | reflexivity].
    + destruct (PrimFloat.ltb diff 0); cbn;
        (split; [split; (reflexivity || discriminate) | discriminate]).
Qed.

Lemma renderChange_guard_and_direction_witness :
  renderChange (mkChangeSink "card-change" (Some "fa-solid fa-caret-up caret"%string) None None)
               (JNum 4210) (JNum 0) 2
  = (mkChangeSink "card-change" (Some "fa-solid fa-caret-up caret"%string) None None, Normal).
Proof.
  apply (renderChange_guard_and_direction
           (mkChangeSink "card-change" (Some "fa-solid fa-caret-up caret"%string) None None)
           (JNum 4210) (JNum 0) 2).
  right. reflexivity.
Defined.

(** ** The cache *)

Lemma json_property_exact v : cache_exact v = true -> json_property v = Some v.
Proof.
  destruct v as [| |x]; cbn; try discriminate; [reflexivity|].
  unfold json_number. destruct (PrimFloat.classify x); (discriminate || reflexivity).
Qed.

Lemma assign_quote_field c q f :
  field f (assign_quote c q)
  = match (match f with
           | FieldCur => cached_cur c
           | FieldPrev => cached_prev c
           | FieldAnchor1530 => cached_anchor1530 c
           end) with
    | Some v => v
    | None => field f q
    end.
Proof. now destruct f. Qed.

Lemma classify_nan_or_infinite (x : float) :
  PrimFloat.is_nan x = true \/ PrimFloat.is_infinity x = true ->
  PrimFloat.classify x = FloatClass.NaN
  \/ PrimFloat.classify x = PInf \/ PrimFloat.classify x = NInf.
Proof.
  intros Hx. rewrite classify_spec.
  unfold PrimFloat.is_nan, PrimFloat.is_infinity in Hx.
  rewrite !eqb_spec, abs_spec in Hx.
  change (Prim2SF infinity) with (S754_infinity false) in Hx.
  destruct (Prim2SF x) as [sx|sx| |sx m e].
  - destruct Hx as [Hx|Hx]; cbn in Hx; discriminate.
  - cbn. destruct sx; auto.
  - cbn. auto.
  - exfalso. destruct Hx as [Hx|Hx].
    + unfold SFeqb, SFcompare in Hx.
      destruct sx; rewrite Z.compare_refl, Pos.compare_cont_refl in Hx;
        discriminate.
    + cbn in Hx. discriminate.
Qed.

(** X18. Saving the store and loading the cache into any store restores a
    field exactly when the field holds [null] or a finite number other than
    negative zero.  A field that is [undefined] is not written to the cache:
    the store that loads keeps its own value there.  A [NaN] or infinite
    number comes back as [null].  The data source is not part of the
    cache. *)
Theorem cache_round_trip (s s0 : Store) (rendered : completion) (r : Slot) (f : Field) :
  (cache_exact (field f (slot r s)) = true ->
   field f (slot r (loadCache (Some (saveCache s)) rendered s0)) = field f (slot r s))
  /\ (field f (slot r s) = JUndefined ->
      field f (slot r (loadCache (Some (saveCache s)) rendered s0))
      = field f (slot r s0))
  /\ (forall x, field f (slot r s) = JNum x ->
        PrimFloat.is_nan x = true \/ PrimFloat.is_infinity x = true ->
        field f (slot r (loadCache (Some (saveCache s)) rendered s0)) = JNull)
  /\ source (loadCache (Some (saveCache s)) rendered s0) = source s0
  /\ loadCache None rendered s0 = s0.
Proof.
  assert (E : field f (slot r (loadCache (Some (saveCache s)) rendered s0))
              = match json_property (field f (slot r s)) with
                | Some v => v
                | None => field f (slot r s0)
                end).
  { destruct r, f; reflexivity. }
  rewrite E. repeat split.
  - intros H. now rewrite json_property_exact.
  - now intros ->.
  - intros x -> Hx. cbn. unfold json_number.
    pose proof (classify_nan_or_infinite x Hx) as Hc.
    destruct Hc as [-> | [-> | ->]]; reflexivity.
Qed.

Lemma cache_round_trip_witness :
  field FieldAnchor1530
    (slot SlotXau
       (loadCache (Some (saveCache (upd_xau (set_anchor1530 (JNum 4180)) S0)))
                  Normal S0))
  = field FieldAnchor1530 (slot SlotXau (upd_xau (set_anchor1530 (JNum 4180)) S0)).
Proof.
  apply (cache_round_trip (upd_xau (set_anchor1530 (JNum 4180)) S0) S0 Normal
                          SlotXau FieldAnchor1530).
  reflexivity.
Defined.

(** ** Countdown and theme *)

Lemma countdown_after_spec n : forall cd,
  0 <= cd -> countdown_after n cd = Z.max 0 (cd - Z.of_nat n).
Proof.
  induction n as [|k IH]; intros cd Hcd.
  - cbn [countdown_after]. lia.
  - cbn [countdown_after]. unfold countdown_tick at 1.
    rewrite IH by lia. lia.
Qed.

(** X19. The countdown never goes below zero: [n] seconds after a reset it
    shows the larger of 0 and 5 - [n], so it reaches 0 with the fifth tick,
    when the next refresh is due, and stays there until it is reset. *)
Theorem countdown_never_negative (n : nat) :
  countdown_after n resetCountdown = Z.max 0 (5 - Z.of_nat n)
  /\ 0 <= countdown_after n resetCountdown <= 5
  /\ ((5 <= n)%nat -> countdown_after n resetCountdown = 0).
Proof.
  assert (E : countdown_after n resetCountdown = Z.max 0 (5 - Z.of_nat n))
    by (rewrite countdown_after_spec; [reflexivity | vm_compute; discriminate]).
  rewrite E. repeat split; lia.
Qed.

Lemma countdown_never_negative_witness :
  countdown_after 7 resetCountdown = 0.
Proof.
  apply (countdown_never_negative 7). lia.
Defined.

Lemma themeClick_invariant st :
  let st' := themeClick st in
  savedTheme st' = dataTheme st'
  /\ (dataTheme st' = Some "dark"%string \/ dataTheme st' = Some "light"%string)
  /\ (themeIconClass st' = "fa-solid fa-moon"%string
      <-> dataTheme st' = Some "dark"%string).
Proof.
  unfold themeClick, applyTheme. cbn.
  destruct (dataTheme st) as [t|]; [destruct (String.eqb t "dark")|]; cbn;
    repeat split; auto; discriminate.
Qed.

(** X20. After any click on the theme button the stored theme is the one
    applied to the page, it is [dark] or [light] whatever had been stored
    before, the icon is the moon exactly for [dark], and two further
    clicks bring the same state back. *)
Theorem theme_toggle (st : ThemeState) (n : nat) :
  let st' := themeClicks (S n) (initTheme st) in
  savedTheme st' = dataTheme st'
  /\ (dataTheme st' = Some "dark"%string \/ dataTheme st' = Some "light"%string)
  /\ (themeIconClass st' = "fa-solid fa-moon"%string
      <-> dataTheme st' = Some "dark"%string)
  /\ themeClick (themeClick st') = st'.
Proof.
  cbn zeta. cbn [themeClicks]. generalize (initTheme st). clear st.
  induction n as [|k IH]; intros st.
  - cbn [themeClicks].
    destruct (themeClick_invariant st) as (Hs & Hd & Hi).
    split; [exact Hs|]. split; [exact Hd|]. split; [exact Hi|].
    unfold themeClick, applyTheme. cbn.
    destruct (dataTheme st) as [t|]; [destruct (String.eqb t "dark")|]; reflexivity.
  - cbn [themeClicks]. apply IH.
Qed.
